(** * TEHTRIS EDR installer automation: a shallow embedding

    The program under study is [src/ansible/res/tehtris_edr_installer.py], the
    class [TehtrisEDRInstaller].  It drives a third-party installer wizard
    through win32gui, pyautogui and pytesseract.  Every call that leaves the
    Python process (a window enumeration, a posted message, a screenshot, a
    keystroke, a sleep) is recorded as an [Event] in a chronological trace;
    what such a call returns, whether it raises and how long it takes are
    given by an environment [Env] of oracles reading the trace so far.  The
    methods of the class become computations in a small state-and-exception
    monad [M] over that trace.

    Calls to [self.logger] and [print] only write to the log stream and are
    left out.  Strings are [string]s of bytes; [lower] folds ASCII letters. *)

From Stdlib Require Import String Ascii List ZArith NArith Bool Lia Permutation.
Import ListNotations.
Open Scope string_scope.
Open Scope Z_scope.
Open Scope list_scope.

(** ** Python string operations used by the source *)

Module PyStr.

(** [c.lower()] on one ASCII character. *)
Definition lower_ascii (c : ascii) : ascii :=
  let n := N_of_ascii c in
  if ((65 <=? n) && (n <=? 90))%N then ascii_of_N (n + 32) else c.

(** [s.lower()]. *)
Fixpoint lower (s : string) : string :=
  match s with
  | EmptyString => EmptyString
  | String c s' => String (lower_ascii c) (lower s')
  end.

(** [s.replace('&', '')]. *)
Fixpoint strip_amp (s : string) : string :=
  match s with
  | EmptyString => EmptyString
  | String c s' => if Ascii.eqb c "&"%char then strip_amp s' else String c (strip_amp s')
  end.

(** [s.startswith(p)]. *)
Definition startswith (p s : string) : bool := String.prefix p s.

(** [needle in hay] for two strings: [needle] occurs as a substring. *)
Fixpoint contains (needle hay : string) : bool :=
  String.prefix needle hay ||
  match hay with
  | EmptyString => false
  | String _ hay' => contains needle hay'
  end.

(** Truth value of a string: [if s:] holds for a non-empty string. *)
Definition truthy (s : string) : bool :=
  match s with EmptyString => false | _ => true end.

End PyStr.
Import PyStr.

(** ** Events, environment and state *)

(** Window messages of [win32con] that the source sends. *)
Inductive Msg := BM_CLICK | WM_SETTEXT | WM_KEYDOWN | WM_KEYUP.

(** One call that leaves the Python process. *)
Inductive Event :=
| EnumWindows                                  (* win32gui.EnumWindows *)
| FindWindow (title : string)                  (* win32gui.FindWindow(None, title) *)
| EnumChildWindows (parent : Z)                (* win32gui.EnumChildWindows *)
| GetWindowRect (h : Z)                        (* win32gui.GetWindowRect *)
| PostMessage (h : Z) (m : Msg)                (* win32gui.PostMessage(h, m, 0, 0) *)
| SendMessage (h : Z) (m : Msg) (arg : string) (* win32gui.SendMessage(h, m, ..) *)
| Screenshot                                   (* pyautogui.screenshot() *)
| SaveScreenshot (step_name : string)          (* screenshot.save(path) *)
| ImageToData                                  (* pytesseract.image_to_data *)
| ImageToString                                (* pytesseract.image_to_string *)
| FindContours                                 (* cv2.inRange + cv2.findContours *)
| Click (x y : Z)                              (* pyautogui.click(x, y) *)
| Hotkey (k1 k2 : string)                      (* pyautogui.hotkey(k1, k2) *)
| Write (text : string)                        (* pyautogui.write(text) *)
| ClickCoordinates (x y : Z) (what : string)   (* self.click_coordinates(x, y, what) *)
| Sleep (ms : Z)                               (* time.sleep, in milliseconds *)
| Popen (cmd : string)                         (* subprocess.Popen(cmd, shell=True) *)
| Connect                                      (* Application().connect(title_re=..) *)
| InspectApp                                   (* self.app.window(..).descendants() *)
| PathExists                                   (* self.msi_path.exists() *)
| IsUserAnAdmin                                (* ctypes.windll.shell32.IsUserAnAdmin() *)
| ProcessIter                                  (* psutil.process_iter([..]) *)
| GetFileVersionInfo (exe : string)            (* win32api.GetFileVersionInfo *)
| Invoke.                                      (* _retry_operation enters the wrapped operation *)

Definition Trace := list Event.

(** What win32gui reports about one window or control handle.  [faulty] says
    that querying the handle raises inside the enumeration callback. *)
Record Handle := mkHandle {
  hwnd : Z;
  visible : bool;        (* win32gui.IsWindowVisible *)
  is_window : bool;      (* win32gui.IsWindow *)
  window_text : string;  (* win32gui.GetWindowText *)
  class_name : string;   (* win32gui.GetClassName *)
  faulty : bool
}.

(** One row of [pytesseract.image_to_data(.., output_type=DICT)]. *)
Record OcrWord := mkOcrWord {
  ocr_text : string;
  ocr_conf : Z;
  ocr_left : Z;
  ocr_top : Z;
  ocr_width : Z;
  ocr_height : Z
}.

(** One contour of [cv2.findContours] with its area and moments, as integers. *)
Record Contour := mkContour {
  area : Z;
  m00 : Z;
  m10 : Z;
  m01 : Z
}.

(** What reading one process entry raises: nothing, one of the psutil
    errors the loop skips, or another exception. *)
Inductive ProcFault := NoFault | PsutilGone | OtherFault.

(** One entry of [psutil.process_iter]. *)
Record Proc := mkProc {
  proc_fault : ProcFault;
  proc_name : string;
  proc_exe : string;                 (* '' when psutil reports no path *)
  file_description : string          (* the FileDescription of its executable *)
}.

Inductive Exn :=
| ImportError (module : string)
| ValueError                  (* time.sleep of a negative duration *)
| CallError (e : Event)       (* the external call [e] raised *)
| OpError (code : Z).         (* raised by a wrapped operation or a process entry *)

(** Result of a wrapped operation or of a computation. *)
Inductive Outcome (A : Type) :=
| Ret (a : A)
| Raise (x : Exn)
| OutOfFuel.
Arguments Ret {A} a.
Arguments Raise {A} x.
Arguments OutOfFuel {A}.

(** The world outside the process.  Every oracle reads the trace of the calls
    made so far, so the world may change after any call. *)
Record Env := mkEnv {
  PYWINAUTO_AVAILABLE : bool;
  PYAUTOGUI_AVAILABLE : bool;
  WIN32_AVAILABLE : bool;                    (* import win32gui, win32con, win32api succeed *)
  PSUTIL_AVAILABLE : bool;                   (* import psutil succeeds *)
  fails : Trace -> Event -> bool;            (* the call raises an exception *)
  latency : Trace -> Event -> N;             (* milliseconds the call takes *)
  top_windows : Trace -> list Handle;        (* handles EnumWindows passes to its callback *)
  find_window : Trace -> string -> Z;        (* FindWindow result, 0 when absent *)
  child_windows : Trace -> Z -> list Handle; (* handles EnumChildWindows passes to its callback *)
  window_rect : Trace -> Z -> Z * Z * Z * Z; (* left, top, right, bottom *)
  ocr_data : Trace -> list OcrWord;
  contours : Trace -> list Contour;          (* what cv2.findContours returns *)
  click_result : Trace -> Z -> Z -> bool;    (* what click_coordinates returns *)
  msi_exists : Trace -> bool;
  is_admin : Trace -> bool;
  processes : Trace -> list Proc
}.

(** The fields of [TehtrisEDRInstaller] that the methods read. *)
Record Installer := mkInstaller {
  msi_path : string;
  dry_run : bool;
  server_address : string;   (* self.config['server_address'] *)
  tag : string;              (* self.config['tag'] *)
  license_key : string;      (* self.config['license_key'] *)
  max_retries : Z;
  retry_delay : Z            (* milliseconds *)
}.

(** [TehtrisEDRInstaller.__init__]. *)
Definition init (msi : string) (dry : bool) : Installer :=
  mkInstaller msi dry "xpgapp16.tehtris.net" "XPG_QAT" "MH83-2CDX-9DXQ-LG89-92FF" 3 2000.

(** The mutable state: the calls made so far, the wall clock in milliseconds
    and whether [self.app] is bound. *)
Record State := mkState {
  trace : Trace;
  clock : Z;
  app : bool
}.

Definition start : State := mkState [] 0 false.

(** ** The monad *)

Definition M (A : Type) := State -> Outcome A * State.

Definition ret {A} (a : A) : M A := fun s => (Ret a, s).

Definition bind {A B} (m : M A) (f : A -> M B) : M B :=
  fun s =>
    match m s with
    | (Ret a, s') => f a s'
    | (Raise x, s') => (Raise x, s')
    | (OutOfFuel, s') => (OutOfFuel, s')
    end.

Definition raise {A} (x : Exn) : M A := fun s => (Raise x, s).

(** [try: m  except Exception as x: h x]. *)
Definition try_except {A} (m : M A) (h : Exn -> M A) : M A :=
  fun s =>
    match m s with
    | (Raise x, s') => h x s'
    | r => r
    end.

(** [try: m  finally: fin]. *)
Definition try_finally {A} (m : M A) (fin : M unit) : M A :=
  fun s =>
    match m s with
    | (r, s') =>
        match fin s' with
        | (Ret _, s'') => (r, s'')
        | (Raise x, s'') => (Raise x, s'')
        | (OutOfFuel, s'') => (OutOfFuel, s'')
        end
    end.

Definition get_trace : M Trace := fun s => (Ret (trace s), s).
Definition get_clock : M Z := fun s => (Ret (clock s), s).
Definition get_app : M bool := fun s => (Ret (app s), s).
Definition set_app (b : bool) : M unit :=
  fun s => (Ret tt, mkState (trace s) (clock s) b).

Declare Scope monad_scope.
Delimit Scope monad_scope with monad.
Notation "x <- m ;; k" := (bind m (fun x => k))
  (at level 61, m at next level, right associativity) : monad_scope.
Notation "m ;; k" := (bind m (fun _ => k))
  (at level 61, right associativity) : monad_scope.
Open Scope monad_scope.

Definition result {A} (r : Outcome A * State) : Outcome A := fst r.
Definition final {A} (r : Outcome A * State) : State := snd r.

Section Program.

Variable env : Env.
Variable self : Installer.

(** The state after the call [e], which took [extra] milliseconds besides
    the oracle's latency. *)
Definition record (e : Event) (extra : Z) (s : State) : State :=
  mkState (trace s ++ [e])
          (clock s + extra + Z.of_N (latency env (trace s) e))
          (app s).

(** An external call: recorded, then it returns or raises. *)
Definition call (e : Event) : M unit :=
  fun s =>
    if fails env (trace s) e
    then (Raise (CallError e), record e 0 s)
    else (Ret tt, record e 0 s).

(** [time.sleep(ms / 1000)]: refuses a negative duration, otherwise takes
    at least [ms]. *)
Definition sleep (ms : Z) : M unit :=
  fun s =>
    if ms <? 0 then (Raise ValueError, s)
    else (Ret tt, record (Sleep ms) ms s).

(** [import win32gui; import win32con]. *)
Definition import_win32 : M unit :=
  if WIN32_AVAILABLE env then ret tt else raise (ImportError "win32gui").

(** ** Native-handle strategy *)

(** The callback [find_tehtris_windows]: the handle is appended when this holds. *)
Definition is_tehtris_window (h : Handle) : bool :=
  negb (faulty h) && (visible h && is_window h) &&
  (truthy (window_text h) && contains "TEHTRIS EDR Setup" (window_text h)).

(** The top-level windows both win32gui methods search: the EnumWindows pass,
    and on its failure the FindWindow replacement. *)
Definition find_tehtris_windows : M (list Z) :=
  t <- get_trace ;;
  let tehtris_windows := map hwnd (filter is_tehtris_window (top_windows env t)) in
  try_except
    (call EnumWindows ;; ret tehtris_windows)
    (fun _ =>
       try_except
         (t1 <- get_trace ;;
          call (FindWindow "TEHTRIS EDR Setup") ;;
          let h := find_window env t1 "TEHTRIS EDR Setup" in
          ret (if h =? 0 then tehtris_windows else [h]))
         (fun _ => ret tehtris_windows)).

(** The callback [find_button_callback] stops the enumeration at the first
    handle for which this holds, and stores it in [button_info]. *)
Definition button_matches (button_text : string) (h : Handle) : bool :=
  negb (faulty h) && (visible h && is_window h) &&
  truthy (window_text h) &&
  (let clean_window_text := lower (strip_amp (window_text h)) in
   let clean_button_text := lower (strip_amp button_text) in
   contains clean_button_text clean_window_text &&
   String.eqb (class_name h) "Button" &&
   negb (contains "not" clean_window_text)).

(** The loop [for window_index, tehtris_hwnd in enumerate(tehtris_windows)]:
    [true] when a button was clicked (the method returns True there). *)
Fixpoint click_in_windows (button_text : string) (tehtris_windows : list Z) : M bool :=
  match tehtris_windows with
  | [] => ret false
  | tehtris_hwnd :: rest =>
      clicked <-
        (t <- get_trace ;;
         let button_info := find (button_matches button_text) (child_windows env t tehtris_hwnd) in
         try_except
           (call (EnumChildWindows tehtris_hwnd) ;;
            match button_info with
            | Some b =>
                try_except
                  (call (PostMessage (hwnd b) BM_CLICK) ;; ret true)
                  (fun _ => ret false)
            | None => ret false
            end)
           (fun _ => ret false)) ;;
      if clicked then ret true else click_in_windows button_text rest
  end.

Definition click_with_win32gui (button_text : string) : M bool :=
  try_except
    (import_win32 ;;
     tehtris_windows <- find_tehtris_windows ;;
     match tehtris_windows with
     | [] => ret false
     | _ => click_in_windows button_text tehtris_windows
     end)
    (fun _ => ret false).

(** ** Filling a field through its native handle *)

(** The callback [find_edit_callback]: the handle is appended when this holds. *)
Definition is_edit_control (h : Handle) : bool :=
  negb (faulty h) && (visible h && is_window h) &&
  existsb (String.eqb (class_name h))
          ["Edit"; "TextBox"; "RichEdit"; "RichEdit20A"; "RichEdit20W"].

(** The [if]/[elif] chain on [field_label.lower()]. *)
Definition field_index (field_label : string) : nat :=
  if contains "server" (lower field_label) then 0%nat
  else if contains "tag" (lower field_label) then 1%nat
  else if contains "license" (lower field_label) then 2%nat
  else 0%nat.

(** The statements run on the chosen edit control. *)
Definition fill_edit_control (edit_hwnd : Z) (value : string) : M unit :=
  t <- get_trace ;;
  call (GetWindowRect edit_hwnd) ;;
  let '(rect0, rect1, rect2, rect3) := window_rect env t edit_hwnd in
  let center_x := (rect0 + rect2) / 2 in
  let center_y := (rect1 + rect3) / 2 in
  (if PYAUTOGUI_AVAILABLE env
   then call (Click center_x center_y) ;; sleep 200
   else ret tt) ;;
  call (SendMessage edit_hwnd WM_SETTEXT "") ;;
  sleep 100 ;;
  call (SendMessage edit_hwnd WM_SETTEXT value) ;;
  sleep 100 ;;
  call (SendMessage edit_hwnd WM_KEYDOWN "VK_TAB") ;;
  call (SendMessage edit_hwnd WM_KEYUP "VK_TAB").

(** The list [edit_controls] that [EnumChildWindows] with [find_edit_callback]
    builds for one window. *)
Definition edit_controls (t : Trace) (tehtris_hwnd : Z) : list Z :=
  map hwnd (filter is_edit_control (child_windows env t tehtris_hwnd)).

(** The loop [for tehtris_hwnd in tehtris_windows]: [true] when a field was
    filled (the method returns True there). *)
Fixpoint fill_in_windows (field_label value : string) (tehtris_windows : list Z) : M bool :=
  match tehtris_windows with
  | [] => ret false
  | tehtris_hwnd :: rest =>
      filled <-
        try_except
          (t <- get_trace ;;
           call (EnumChildWindows tehtris_hwnd) ;;
           match edit_controls t tehtris_hwnd with
           | [] => ret false
           | _ =>
               match nth_error (edit_controls t tehtris_hwnd) (field_index field_label) with
               | Some edit_hwnd => fill_edit_control edit_hwnd value ;; ret true
               | None => ret false
               end
           end)
          (fun _ => ret false) ;;
      if filled then ret true else fill_in_windows field_label value rest
  end.

Definition fill_field_with_win32gui (field_label value : string) : M bool :=
  try_except
    (import_win32 ;;
     tehtris_windows <- find_tehtris_windows ;;
     match tehtris_windows with
     | [] => ret false
     | _ => fill_in_windows field_label value tehtris_windows
     end)
    (fun _ => ret false).

(** ** Screen probes *)

Definition take_screenshot (step_name : string) : M unit :=
  if negb (PYAUTOGUI_AVAILABLE env) || dry_run self then ret tt
  else try_except
         (call Screenshot ;; call (SaveScreenshot step_name))
         (fun _ => ret tt).

(** The loop over [data['text']] with the default [confidence = 0.8]:
    the centre of the first row that contains the text with a confidence
    above 80. *)
Fixpoint first_ocr_match (text : string) (data : list OcrWord) : option (Z * Z) :=
  match data with
  | [] => None
  | w :: rest =>
      if contains (lower text) (lower (ocr_text w)) && (80 <? ocr_conf w)
      then Some (ocr_left w + ocr_width w / 2, ocr_top w + ocr_height w / 2)
      else first_ocr_match text rest
  end.

Definition find_text_on_screen (text : string) : M (option (Z * Z)) :=
  if negb (PYAUTOGUI_AVAILABLE env) || dry_run self then ret None
  else try_except
         (t <- get_trace ;;
          call Screenshot ;;
          call ImageToData ;;
          ret (first_ocr_match text (ocr_data env t)))
         (fun _ => ret None).

(** The loop [while time.time() - start_time < timeout] of
    [find_button_by_text]; [timeout] is in milliseconds here.  Every pass
    that finds nothing sleeps a second. *)
Fixpoint find_button_loop (fuel : nat) (button_text : string) (timeout start_time : Z)
    : M (option (Z * Z)) :=
  now <- get_clock ;;
  if now - start_time <? timeout then
    match fuel with
    | O => fun s => (OutOfFuel, s)
    | S fuel' =>
        position <- find_text_on_screen button_text ;;
        match position with
        | Some p => ret (Some p)
        | None => sleep 1000 ;; find_button_loop fuel' button_text timeout start_time
        end
    end
  else ret None.

(** [find_button_by_text(button_text, timeout)], with [timeout] a whole number
    of seconds as its annotation says: at most that many passes fit. *)
Definition find_button_by_text (button_text : string) (timeout : Z) : M (option (Z * Z)) :=
  if negb (PYAUTOGUI_AVAILABLE env) || dry_run self then ret None
  else
    start_time <- get_clock ;;
    find_button_loop (Z.to_nat timeout) button_text (timeout * 1000) start_time.

(** [sorted(contours, key=cv2.contourArea, reverse=True)]. *)
Fixpoint insert_by_area (c : Contour) (l : list Contour) : list Contour :=
  match l with
  | [] => [c]
  | d :: l' => if area c <? area d then d :: insert_by_area c l' else c :: l
  end.

Definition sort_by_area (l : list Contour) : list Contour :=
  fold_right insert_by_area [] l.

Fixpoint first_large_contour (min_area : Z) (l : list Contour) : option (Z * Z) :=
  match l with
  | [] => None
  | c :: rest =>
      if (min_area <? area c) && negb (m00 c =? 0)
      then Some (Z.quot (m10 c) (m00 c), Z.quot (m01 c) (m00 c))
      else first_large_contour min_area rest
  end.

(** The colour range only selects the mask; the contours found on it are
    the environment's. *)
Definition find_ui_element_by_color (min_area : Z) : M (option (Z * Z)) :=
  if negb (PYAUTOGUI_AVAILABLE env) || dry_run self then ret None
  else try_except
         (t <- get_trace ;;
          call Screenshot ;;
          call FindContours ;;
          ret (first_large_contour min_area (sort_by_area (contours env t))))
         (fun _ => ret None).

(** [self.click_coordinates] is called by the source but the class does not
    define it.  The call is recorded; whether it raises (as it does while the
    attribute is missing) and what it returns are the environment's. *)
Definition click_coordinates (x y : Z) (what : string) : M bool :=
  t <- get_trace ;;
  call (ClickCoordinates x y what) ;;
  ret (click_result env t x y).

(** ** The smart click: OCR text, fallback coordinates, keyboard shortcut *)

(** The list [search_texts] built for one text option. *)
Definition search_texts (text : string) : list string :=
  if contains "&" text then [text; strip_amp text] else [text; ("&" ++ text)%string].

(** The loop [for search_text in search_texts]. *)
Fixpoint click_search_texts (element_type : string) (texts : list string) : M bool :=
  match texts with
  | [] => ret false
  | search_text :: rest =>
      position <- find_text_on_screen search_text ;;
      match position with
      | Some (x, y) =>
          clicked <- click_coordinates x y
            (element_type ++ " found by text '" ++ search_text ++ "'")%string ;;
          if clicked then ret true else click_search_texts element_type rest
      | None => click_search_texts element_type rest
      end
  end.

(** Strategy 1, the loop [for text in text_options]. *)
Fixpoint click_text_options (element_type : string) (text_options : list string) : M bool :=
  match text_options with
  | [] => ret false
  | text :: rest =>
      clicked <- click_search_texts element_type (search_texts text) ;;
      if clicked then ret true else click_text_options element_type rest
  end.

Definition ocr_text_search (element_type : string) (text_options : list string) : M bool :=
  if PYAUTOGUI_AVAILABLE env then click_text_options element_type text_options
  else ret false.

(** Strategy 3, the loop [for x, y in fallback_positions]. *)
Fixpoint click_fallback_positions (element_type : string) (positions : list (Z * Z)) : M bool :=
  match positions with
  | [] => ret false
  | (x, y) :: rest =>
      clicked <- click_coordinates x y (element_type ++ " fallback position")%string ;;
      if clicked then sleep 500 ;; ret true
      else click_fallback_positions element_type rest
  end.

(** The key pressed with Alt for an element type, if any. *)
Definition shortcut_key (element_type : string) : option string :=
  if contains "next" (lower element_type) then Some "n"
  else if contains "accept" (lower element_type) then Some "a"
  else if contains "install" (lower element_type) then Some "i"
  else if contains "finish" (lower element_type) then Some "f"
  else None.

(** The last strategy: keyboard shortcuts for common buttons. *)
Definition keyboard_shortcut (element_type : string) : M bool :=
  if PYAUTOGUI_AVAILABLE env then
    match shortcut_key element_type with
    | Some k => call (Hotkey "alt" k) ;; sleep 500 ;; ret true
    | None => ret false
    end
  else ret false.

Definition smart_find_and_click (element_type : string) (text_options : list string)
    (fallback_positions : list (Z * Z)) : M bool :=
  if dry_run self then ret true
  else
    found <- ocr_text_search element_type text_options ;;
    if found then ret true
    else
      found <- click_fallback_positions element_type fallback_positions ;;
      if found then ret true
      else keyboard_shortcut element_type.

(** ** Filling a field through the screen *)

Definition find_input_field_by_label (label_text : string) : M (option (Z * Z)) :=
  if negb (PYAUTOGUI_AVAILABLE env) || dry_run self then ret None
  else try_except
         (label_position <- find_text_on_screen label_text ;;
          match label_position with
          | Some (label_x, label_y) => ret (Some (label_x + 0, label_y + 25))
          | None => ret None
          end)
         (fun _ => ret None).

(** After a successful click on a field: select all and type.  [true] when
    the method returns True there. *)
Definition type_value (value : string) : M bool :=
  sleep 300 ;;
  if PYAUTOGUI_AVAILABLE env
  then call (Hotkey "ctrl" "a") ;; call (Write value) ;; ret true
  else ret false.

Fixpoint fill_by_labels (field_name value : string) (label_options : list string) : M bool :=
  match label_options with
  | [] => ret false
  | label :: rest =>
      field_position <- find_input_field_by_label label ;;
      filled <-
        match field_position with
        | Some (x, y) =>
            clicked <- click_coordinates x y
              (field_name ++ " field found by label '" ++ label ++ "'")%string ;;
            if clicked then type_value value else ret false
        | None => ret false
        end ;;
      if filled then ret true else fill_by_labels field_name value rest
  end.

Fixpoint fill_by_positions (field_name value : string) (positions : list (Z * Z)) : M bool :=
  match positions with
  | [] => ret false
  | (x, y) :: rest =>
      clicked <- click_coordinates x y (field_name ++ " fallback position")%string ;;
      filled <- (if clicked then type_value value else ret false) ;;
      if filled then ret true else fill_by_positions field_name value rest
  end.

Definition smart_fill_field (field_name value : string) (label_options : list string)
    (fallback_positions : list (Z * Z)) : M bool :=
  if dry_run self then ret true
  else
    filled <- fill_by_labels field_name value label_options ;;
    if filled then ret true
    else fill_by_positions field_name value fallback_positions.

(** ** Debug output, launch and prerequisites *)

(** The callback [enum_windows_callback] of the debug dump keeps these. *)
Definition is_setup_window (h : Handle) : bool :=
  visible h && (contains "TEHTRIS" (window_text h) || contains "Setup" (window_text h)).

Fixpoint dump_children (windows : list Z) : M unit :=
  match windows with
  | [] => ret tt
  | w :: rest => call (EnumChildWindows w) ;; dump_children rest
  end.

(** [print_window_text]: three read-only dumps, each in its own [try]. *)
Definition print_window_text : M unit :=
  try_except
    (bound <- get_app ;; if bound then call InspectApp else ret tt)
    (fun _ => ret tt) ;;
  try_except
    (if PYAUTOGUI_AVAILABLE env then call Screenshot ;; call ImageToString else ret tt)
    (fun _ => ret tt) ;;
  try_except
    (import_win32 ;;
     t <- get_trace ;;
     call EnumWindows ;;
     if existsb faulty (top_windows env t) then raise (CallError EnumWindows)
     else dump_children (map hwnd (filter is_setup_window (top_windows env t))))
    (fun _ => ret tt).

Definition minimize_all_windows : M unit :=
  if dry_run self then ret tt
  else if PYAUTOGUI_AVAILABLE env
       then try_except (call (Hotkey "win" "d") ;; sleep 1000) (fun _ => ret tt)
       else ret tt.

Definition dquote : string := String (ascii_of_nat 34) EmptyString.

Definition launch_installer : M bool :=
  if dry_run self then ret true
  else
    try_except
      (minimize_all_windows ;;
       take_screenshot "before_launch" ;;
       call (Popen ("msiexec /i " ++ dquote ++ msi_path self ++ dquote)%string) ;;
       sleep 5000 ;;
       take_screenshot "after_launch" ;;
       try_except
         (call Connect ;; set_app true ;; print_window_text ;; ret true)
         (fun _ => ret true))
      (fun _ => ret false).

Definition _is_admin : M bool :=
  try_except
    (t <- get_trace ;; call IsUserAnAdmin ;; ret (is_admin env t))
    (fun _ => ret false).

Definition validate_prerequisites : M bool :=
  if negb (PYWINAUTO_AVAILABLE env) then ret false
  else
    t <- get_trace ;;
    call PathExists ;;
    if negb (msi_exists env t) then ret false
    else
      (if negb (dry_run self) then _is_admin ;; ret tt else ret tt) ;;
      if negb (startswith "XPG_" (tag self)) then ret false
      else ret true.

(** ** Retry *)

Section Retry.

Context {A : Type}.

(** The wrapped operation, any computation. *)
Variable operation : M A.

(** The call of the wrapped operation with its arguments, marked in the
    trace. *)
Definition invoke : M A :=
  fun s => operation (record Invoke 0 s).

(** The loop [for attempt in range(self.max_retries)] from [attempt] on, with
    [remaining] iterations left.  [None] is Python's None, returned when the
    loop ends without a [return]. *)
Fixpoint retry_from (remaining : nat) (attempt : Z) : M (option A) :=
  match remaining with
  | O => ret None
  | S remaining' =>
      try_except
        (a <- invoke ;; ret (Some a))
        (fun e =>
           if attempt =? max_retries self - 1 then raise e
           else sleep (retry_delay self * (attempt + 1)) ;;
                retry_from remaining' (attempt + 1))
  end.

Definition _retry_operation : M (option A) :=
  retry_from (Z.to_nat (max_retries self)) 0.

End Retry.

(** ** Wizard steps *)

Definition next_text_options : list string :=
  ["&Next >"; "Next >"; "Next"; "Suivant >"; "Suivant"].

Definition handle_welcome_screen : M bool :=
  if dry_run self then ret true
  else
    take_screenshot "welcome_screen" ;;
    print_window_text ;;
    clicked <- click_with_win32gui "Next" ;;
    if clicked then ret true
    else smart_find_and_click "Next button (welcome screen)" next_text_options [].

Definition handle_license_agreement : M bool :=
  if dry_run self then ret true
  else
    take_screenshot "license_agreement" ;;
    print_window_text ;;
    done <-
      (accepted <- click_with_win32gui "accept" ;;
       if accepted then sleep 500 ;; click_with_win32gui "Next" else ret false) ;;
    if done then ret true
    else
      accepted <- smart_find_and_click "I accept radio button"
                    ["I accept"; "J'accepte"; "accept"; "accepte"] [] ;;
      (if accepted then sleep 500 else ret tt) ;;
      smart_find_and_click "Next button (license screen)" next_text_options [].

Definition handle_activation_information : M bool :=
  if dry_run self then ret true
  else
    take_screenshot "activation_information" ;;
    print_window_text ;;
    let success := true in
    r <- fill_field_with_win32gui "server" (server_address self) ;;
    let success := success && r in
    r <- fill_field_with_win32gui "tag" (tag self) ;;
    let success := success && r in
    r <- fill_field_with_win32gui "license" (license_key self) ;;
    let success := success && r in
    done <- (if success then sleep 500 ;; click_with_win32gui "Next" else ret false) ;;
    if done then ret true
    else
      smart_fill_field "Server address" (server_address self)
        ["Server address"; "Adresse serveur"; "Server"; "Serveur"] [] ;;
      smart_fill_field "Tag" (tag self) ["Tag"; "Étiquette"] [] ;;
      smart_fill_field "License key" (license_key self)
        ["License key"; "Clé de licence"; "License"; "Licence"] [] ;;
      sleep 1000 ;;
      smart_find_and_click "Next button (activation screen)" next_text_options [].

Definition handle_installation : M bool :=
  if dry_run self then ret true
  else
    take_screenshot "installation_screen" ;;
    clicked <- click_with_win32gui "Install" ;;
    if clicked then ret true
    else smart_find_and_click "Install button" ["Install"; "Installer"; "Install >"] [].

(** ** Waiting for completion *)

Definition completion_timeout : Z := 180000.

(** Every pass of the polling loop sleeps two seconds, so ninety passes use
    up the budget. *)
Definition completion_fuel : nat := 90.

(** One pass of the loop body with its [try]/[except].  [Some b]: the
    method returns [b]; [None]: the loop goes on. *)
Definition poll_completion : M (option bool) :=
  try_except
    (take_screenshot "completion_check" ;;
     finish <- click_with_win32gui "Finish" ;;
     if finish then ret (Some true)
     else
       close <- click_with_win32gui "Close" ;;
       if close then ret (Some true)
       else sleep 2000 ;; ret None)
    (fun _ => sleep 2000 ;; ret None).

(** The loop [while time.time() - start_time < completion_timeout].
    [Some b]: the method returned [b] inside the loop; [None]: the loop ended
    on its condition. *)
Fixpoint completion_loop (fuel : nat) (start_time : Z) : M (option bool) :=
  now <- get_clock ;;
  if now - start_time <? completion_timeout then
    match fuel with
    | O => fun s => (OutOfFuel, s)
    | S fuel' =>
        r <- poll_completion ;;
        match r with
        | Some b => ret (Some b)
        | None => completion_loop fuel' start_time
        end
    end
  else ret None.

Definition wait_for_completion : M bool :=
  if dry_run self then ret true
  else
    try_except
      (start_time <- get_clock ;;
       r <- completion_loop completion_fuel start_time ;;
       match r with
       | Some b => ret b
       | None =>
           if PYAUTOGUI_AVAILABLE env
           then call (Hotkey "alt" "f") ;; sleep 1000 ;; ret true
           else ret false
       end)
      (fun _ => ret false).

(** ** Verification *)

(** The body of [if 'agent' in proc_name]: [true] when the process is
    appended to [tehtris_agents]. *)
Definition is_tehtris_agent (proc : Proc) : M bool :=
  try_except
    (let exe_path := proc_exe proc in
     if truthy exe_path then
       (if WIN32_AVAILABLE env then ret tt else raise (ImportError "win32api")) ;;
       try_except
         (call (GetFileVersionInfo exe_path) ;;
          let file_info := file_description proc in
          ret (truthy file_info && contains "tehtris" (lower file_info)))
         (fun _ => ret (contains "tehtris" (lower exe_path)))
     else ret false)
    (fun _ => ret false).

(** The loop [for proc in psutil.process_iter(..)]. *)
Fixpoint scan_processes (procs tehtris_agents : list Proc) : M (list Proc) :=
  match procs with
  | [] => ret tehtris_agents
  | proc :: rest =>
      match proc_fault proc with
      | PsutilGone => scan_processes rest tehtris_agents
      | OtherFault => raise (OpError 0)
      | NoFault =>
          if contains "agent" (lower (proc_name proc)) then
            found <- is_tehtris_agent proc ;;
            scan_processes rest (if found then tehtris_agents ++ [proc] else tehtris_agents)
          else scan_processes rest tehtris_agents
      end
  end.

Definition verify_installation : M bool :=
  if dry_run self then ret true
  else
    try_except
      ((if PSUTIL_AVAILABLE env then ret tt else raise (ImportError "psutil")) ;;
       r <- try_except
              (t <- get_trace ;;
               call ProcessIter ;;
               tehtris_agents <- scan_processes (processes env t) [] ;;
               ret (Some tehtris_agents))
              (fun _ => ret None) ;;
       match r with
       | None => ret true
       | Some [] => ret true
       | Some (_ :: _) => ret true
       end)
      (fun x =>
         match x with
         | ImportError _ => ret true
         | _ => ret true
         end).

(** ** The whole run *)

Definition cleanup : M unit :=
  bound <- get_app ;;
  if bound then set_app false else ret tt.

(** The steps of [run_installation] before the verification: [false] where
    the method returns False. *)
Definition wizard_steps : M bool :=
  ok <- validate_prerequisites ;;
  if negb ok then ret false else
  ok <- launch_installer ;;
  if negb ok then ret false else
  sleep 500 ;;
  ok <- handle_welcome_screen ;;
  if negb ok then ret false else
  sleep 500 ;;
  ok <- handle_license_agreement ;;
  if negb ok then ret false else
  sleep 500 ;;
  ok <- handle_activation_information ;;
  if negb ok then ret false else
  sleep 500 ;;
  ok <- handle_installation ;;
  if negb ok then ret false else
  wait_for_completion.

Definition run_installation : M bool :=
  try_finally
    (try_except
       (ok <- wizard_steps ;;
        if negb ok then ret false else
        ok <- verify_installation ;;
        (if negb ok then ret tt else ret tt) ;;
        ret true)
       (fun _ => ret false))
    cleanup.

End Program.

(** * Vocabulary of the properties *)

(** ** How computations behave *)

(** [emits P m]: from any state, [m] only appends events, each satisfying
    [P], and the clock does not go back. *)
Definition emits {A} (P : Event -> Prop) (m : M A) : Prop :=
  forall s, exists evs,
    trace (final (m s)) = trace s ++ evs /\ Forall P evs /\ clock s <= clock (final (m s)).

(** [halts m]: [m] never runs out of fuel. *)
Definition halts {A} (m : M A) : Prop :=
  forall s, result (m s) <> OutOfFuel.

(** [returns m]: [m] always returns a value; it neither raises nor runs out
    of fuel. *)
Definition returns {A} (m : M A) : Prop :=
  forall s, exists a s', m s = (Ret a, s').

(** ** Classes of events *)

(** Reads of the window tree. *)
Definition is_handle_probe (e : Event) : bool :=
  match e with
  | EnumWindows | FindWindow _ | EnumChildWindows _ | GetWindowRect _ => true
  | _ => false
  end.

(** Reads of the screen, the window tree or the installer process. *)
Definition is_probe (e : Event) : bool :=
  is_handle_probe e ||
  match e with
  | Screenshot | SaveScreenshot _ | ImageToData | ImageToString
  | Connect | InspectApp => true
  | _ => false
  end.

(** Calls that act on the installer or the desktop. *)
Definition is_actuation (e : Event) : bool :=
  match e with
  | PostMessage _ _ | SendMessage _ _ _ | Click _ _ | Hotkey _ _ | Write _
  | ClickCoordinates _ _ _ | Popen _ => true
  | _ => false
  end.

(** Keystrokes sent through pyautogui. *)
Definition is_hotkey (e : Event) : bool :=
  match e with Hotkey _ _ => true | _ => false end.

(** The ways the source activates a button. *)
Definition is_button_activation (e : Event) : bool :=
  match e with
  | PostMessage _ _ | Hotkey _ _ | ClickCoordinates _ _ _ => true
  | _ => false
  end.

(** The marker of a call of the wrapped operation. *)
Definition is_invoke (e : Event) : bool :=
  match e with Invoke => true | _ => false end.

(** Events that only read. *)
Definition probe (e : Event) : Prop := is_probe e = true.

(** Any event but the contour search of the colour detection. *)
Definition chain_event (e : Event) : Prop := e <> FindContours.

(** Events other than keystrokes. *)
Definition no_hotkey (e : Event) : Prop := is_hotkey e = false.

(** Events other than that marker. *)
Definition no_invoke (e : Event) : Prop := is_invoke e = false.

(** How many times the wrapped operation was called. *)
Definition invocations (evs : list Event) : nat := length (filter is_invoke evs).

(** The events of [click_with_win32gui button_text]: reads of the window
    tree, and BM_CLICK posted to an enumerated control that the callback
    accepted. *)
Definition click_event (env : Env) (button_text : string) (e : Event) : Prop :=
  match e with
  | EnumWindows | FindWindow _ | EnumChildWindows _ => True
  | PostMessage h m =>
      m = BM_CLICK /\
      exists t parent b,
        In b (child_windows env t parent) /\ hwnd b = h /\
        button_matches button_text b = true
  | _ => False
  end.

(** The events of [fill_field_with_win32gui field_label value]: enumerations
    of the window tree, and calls on the edit control found at position
    [field_index field_label] of some window's [edit_controls]. *)
Definition fill_event (env : Env) (field_label value : string) (e : Event) : Prop :=
  e = EnumWindows \/ (exists title, e = FindWindow title) \/
  (exists parent, e = EnumChildWindows parent) \/
  exists t parent h,
    nth_error (edit_controls env t parent) (field_index field_label) = Some h /\
    (e = GetWindowRect h \/ (exists x y, e = Click x y) \/ (exists ms, e = Sleep ms) \/
     e = SendMessage h WM_SETTEXT "" \/ e = SendMessage h WM_SETTEXT value \/
     e = SendMessage h WM_KEYDOWN "VK_TAB" \/ e = SendMessage h WM_KEYUP "VK_TAB").

(** Events other than a message posted to a control. *)
Definition no_post (e : Event) : Prop := forall h m, e <> PostMessage h m.

(** A boolean step that never answers False. *)
Definition never_false (m : M bool) : Prop :=
  forall s, result (m s) <> Ret false.

(** Sleeps. *)
Definition is_sleep (e : Event) : bool :=
  match e with Sleep _ => true | _ => false end.

(** Screenshots. *)
Definition is_screenshot (e : Event) : bool :=
  match e with Screenshot => true | _ => false end.

(** Events that do not act on the installer or the desktop. *)
Definition passive (e : Event) : Prop := is_actuation e = false.

(** What happens before msiexec is started: nothing that acts, but for the
    Win+D keystroke. *)
Definition minimizing (e : Event) : Prop := passive e \/ e = Hotkey "win" "d".

(** The command line of [launch_installer]. *)
Definition msiexec_command (self : Installer) : string :=
  "msiexec /i " ++ dquote ++ msi_path self ++ dquote.

(** What [launch_installer] does once msiexec is started. *)
Definition after_popen (env : Env) (self : Installer) : M bool :=
  sleep env 5000 ;;
  take_screenshot env self "after_launch" ;;
  try_except
    (call env Connect ;; set_app true ;; print_window_text env ;; ret true)
    (fun _ => ret true).

(** The events of the polling loop of [wait_for_completion]: screenshots,
    the native clicks on "Finish" and "Close", and the two-second sleep. *)
Definition completion_event (env : Env) (e : Event) : Prop :=
  probe e \/ click_event env "Finish" e \/ click_event env "Close" e \/ e = Sleep 2000.

(** The state ends on a BM_CLICK that was posted without error. *)
Definition ends_on_click (env : Env) (s : State) : Prop :=
  exists t h,
    trace s = t ++ [PostMessage h BM_CLICK] /\
    fails env t (PostMessage h BM_CLICK) = false.

(** The steps of [run_installation] between the launch and the
    verification. *)
Definition screen_steps (env : Env) (self : Installer) : M bool :=
  sleep env 500 ;;
  ok <- handle_welcome_screen env self ;;
  if negb ok then ret false else
  sleep env 500 ;;
  ok <- handle_license_agreement env self ;;
  if negb ok then ret false else
  sleep env 500 ;;
  ok <- handle_activation_information env self ;;
  if negb ok then ret false else
  sleep env 500 ;;
  ok <- handle_installation env self ;;
  if negb ok then ret false else
  wait_for_completion env self.

(** What [_retry_operation] itself adds to the trace: the calls of the
    wrapped operation and the sleeps between them. *)
Definition is_retry_event (e : Event) : bool := is_invoke e || is_sleep e.

(** An operation that neither sleeps nor goes through the retry wrapper. *)
Definition operation_event (e : Event) : Prop := is_retry_event e = false.

(** [k] attempts from the attempt numbered [attempt], with the sleeps
    between them: after the failure of attempt [i] (counted from zero) the
    wrapper sleeps [delay * (i + 1)]. *)
Fixpoint attempts_from (delay attempt : Z) (k : nat) : list Event :=
  match k with
  | O => []
  | S k' =>
      match k' with
      | O => [Invoke]
      | S _ => Invoke :: Sleep (delay * (attempt + 1)) :: attempts_from delay (attempt + 1) k'
      end
  end.

(** A contour the colour search accepts: larger than [min_area], with a
    non-zero moment [m00]. *)
Definition qualifies (min_area : Z) (c : Contour) : bool :=
  (min_area <? area c) && negb (m00 c =? 0).

(** [(int(M["m10"] / M["m00"]), int(M["m01"] / M["m00"]))]. *)
Definition centroid (c : Contour) : Z * Z :=
  (Z.quot (m10 c) (m00 c), Z.quot (m01 c) (m00 c)).

(** A list of contours by decreasing area. *)
Fixpoint descending (l : list Contour) : Prop :=
  match l with
  | [] => True
  | c :: l' => (forall d, In d l' -> area d <= area c) /\ descending l'
  end.

(** An OCR row that [find_text_on_screen] accepts for a text. *)
Definition ocr_row_matches (text : string) (w : OcrWord) : bool :=
  contains (lower text) (lower (ocr_text w)) && (80 <? ocr_conf w).

(** The centre of an OCR row. *)
Definition centre (w : OcrWord) : Z * Z :=
  (ocr_left w + ocr_width w / 2, ocr_top w + ocr_height w / 2).

(** The events of [print_window_text]: the three dumps, and the enumeration
    of the children of the visible top-level windows whose title contains
    "TEHTRIS" or "Setup". *)
Definition dump_event (env : Env) (e : Event) : Prop :=
  e = InspectApp \/ e = Screenshot \/ e = ImageToString \/ e = EnumWindows \/
  exists t h, In h (top_windows env t) /\ is_setup_window h = true /\
              e = EnumChildWindows (hwnd h).

(** The events of [find_button_by_text]: the OCR passes and the sleep of one
    second after each pass that found nothing. *)
Definition search_event (e : Event) : Prop :=
  e = Screenshot \/ e = ImageToData \/ e = Sleep 1000.

(** The state ends on a click at [(x, y)] that was answered True, followed
    by Ctrl+A and the typing of the value. *)
Definition typed_at (env : Env) (value : string) (x y : Z) (s' : State) : Prop :=
  exists t what,
    trace s' = t ++ [ClickCoordinates x y what; Sleep 300; Hotkey "ctrl" "a"; Write value] /\
    click_result env t x y = true.

(** [keeps_app m]: [m] leaves [self.app] as it found it. *)
Definition keeps_app {A} (m : M A) : Prop :=
  forall s, app (final (m s)) = app s.

(** A top-level window the native methods search: a visible window that
    EnumWindows reported with "TEHTRIS EDR Setup" in its title, or the window
    FindWindow returned for that title. *)
Definition setup_parent (env : Env) (p : Z) : Prop :=
  (exists t h, In h (top_windows env t) /\ is_tehtris_window h = true /\ hwnd h = p) \/
  (exists t, find_window env t "TEHTRIS EDR Setup" = p /\ p <> 0).

(** A child control of such a window that passes the test [ok]. *)
Definition setup_control (env : Env) (ok : Handle -> bool) (h : Z) : Prop :=
  exists t p b,
    setup_parent env p /\ In b (child_windows env t p) /\ ok b = true /\ hwnd b = h.

(** [((rect[0] + rect[2]) // 2, (rect[1] + rect[3]) // 2)]. *)
Definition rect_centre (rect : Z * Z * Z * Z) : Z * Z :=
  let '(rect0, rect1, rect2, rect3) := rect in ((rect0 + rect2) / 2, (rect1 + rect3) / 2).

(** The calls of the two native methods, with the windows they reach. *)
Definition native_event (env : Env) (e : Event) : Prop :=
  match e with
  | EnumWindows => True
  | FindWindow title => title = "TEHTRIS EDR Setup"
  | EnumChildWindows p => setup_parent env p
  | PostMessage h m =>
      m = BM_CLICK /\ setup_control env (fun b => String.eqb (class_name b) "Button") h
  | GetWindowRect h | SendMessage h _ _ => setup_control env is_edit_control h
  | Click x y =>
      exists t h, setup_control env is_edit_control h /\
                  (x, y) = rect_centre (window_rect env t h)
  | Sleep _ => True
  | _ => False
  end.

(** An event that posts no message, unless to a button the callback accepted
    for the text "accept". *)
Definition posts_to_accept_only (env : Env) (e : Event) : Prop :=
  forall h m, e = PostMessage h m -> click_event env "accept" e.

(** The state ends on a click at [(x, y)] that was answered True, followed
    by the events [tail]. *)
Definition clicked_at (env : Env) (x y : Z) (tail : list Event) (s' : State) : Prop :=
  exists t what,
    trace s' = t ++ ClickCoordinates x y what :: tail /\
    click_result env t x y = true.

(** The checks of [validate_prerequisites] touch the file system and the
    shell only. *)
Definition prerequisite_event (e : Event) : Prop := e = PathExists \/ e = IsUserAnAdmin.

(** A process the verification looks at: readable, with "agent" in its
    name and an executable path. *)
Definition agent_candidate (p : Proc) : Prop :=
  proc_fault p = NoFault /\ contains "agent" (lower (proc_name p)) = true /\
  truthy (proc_exe p) = true.

(** ['tehtris' in text.lower()]. *)
Definition mentions_tehtris (text : string) : bool := contains "tehtris" (lower text).

(** The calls of [verify_installation] on a list of processes: the process
    listing, and the version resource of the executable of a candidate. *)
Definition verification_event (procs : list Proc) (e : Event) : Prop :=
  e = ProcessIter \/
  exists p, In p procs /\ agent_candidate p /\ e = GetFileVersionInfo (proc_exe p).

(** [subsequence l1 l2]: [l1] is [l2] with some elements left out. *)
Inductive subsequence {A : Type} : list A -> list A -> Prop :=
| subsequence_nil : subsequence [] []
| subsequence_skip x l1 l2 : subsequence l1 l2 -> subsequence l1 (x :: l2)
| subsequence_keep x l1 l2 : subsequence l1 l2 -> subsequence (x :: l1) (x :: l2).

(** Events other than the start of a process. *)
Definition no_popen (e : Event) : Prop := forall cmd, e <> Popen cmd.

(** ** The strategy chain of the specification *)

(** The resolver of the specification: the strategies of a chain are tried in
    order, and the first that succeeds wins. *)
Fixpoint first_success (chain : list (M bool)) : M bool :=
  match chain with
  | [] => ret false
  | strategy :: rest =>
      ok <- strategy ;;
      if ok then ret true else first_success rest
  end.

(** [all_fail chain s s']: run in order from [s], every strategy of [chain]
    returns False, and the last leaves the state [s']. *)
Inductive all_fail : list (M bool) -> State -> State -> Prop :=
| all_fail_nil s : all_fail [] s s
| all_fail_cons m rest s s1 s2 :
    m s = (Ret false, s1) -> all_fail rest s1 s2 -> all_fail (m :: rest) s s2.

(** The chain inside [smart_find_and_click]. *)
Definition smart_chain (env : Env) (self : Installer) (element_type : string)
    (text_options : list string) (fallback_positions : list (Z * Z)) : list (M bool) :=
  [ocr_text_search env self element_type text_options;
   click_fallback_positions env element_type fallback_positions;
   keyboard_shortcut env element_type].

(** ** Worlds that differ in the captions only *)

(** The same handle with another caption. *)
Definition relabel (caption : Handle -> string) (h : Handle) : Handle :=
  mkHandle (hwnd h) (visible h) (is_window h) (caption h) (class_name h) (faulty h).

(** The same world, where every child control shows another caption. *)
Definition relabel_controls (caption : Handle -> string) (env : Env) : Env :=
  mkEnv (PYWINAUTO_AVAILABLE env) (PYAUTOGUI_AVAILABLE env) (WIN32_AVAILABLE env)
        (PSUTIL_AVAILABLE env) (fails env) (latency env) (top_windows env)
        (find_window env)
        (fun t parent => map (relabel caption) (child_windows env t parent))
        (window_rect env) (ocr_data env) (contours env) (click_result env)
        (msi_exists env) (is_admin env) (processes env).

(** ** Concrete worlds and installers *)

(** A world that never changes: nothing raises, calls take no time, the
    window tree, the OCR rows and the contours are fixed. *)
Definition static_env (pyautogui : bool) (tops : list Handle) (children : list Handle)
    (words : list OcrWord) (shapes : list Contour) (click_ok : bool) : Env :=
  mkEnv true pyautogui true true (fun _ _ => false) (fun _ _ => 0%N)
        (fun _ => tops) (fun _ _ => 0) (fun _ _ => children) (fun _ _ => (0, 0, 0, 0))
        (fun _ => words) (fun _ => shapes) (fun _ _ _ => click_ok)
        (fun _ => true) (fun _ => true) (fun _ => []).

(** The installer's top-level window. *)
Definition setup_window : Handle :=
  mkHandle 1 true true "TEHTRIS EDR Setup" "MsiDialogCloseClass" false.

(** A visible edit control. *)
Definition edit_box (h : Z) : Handle := mkHandle h true true "" "Edit" false.

(** A desktop without any installer window, with and without pyautogui. *)
Definition empty_desktop (pyautogui : bool) : Env :=
  static_env pyautogui [] [] [] [] true.

(** The wizard window with a single edit control. *)
Definition one_edit_env : Env :=
  static_env true [setup_window] [edit_box 11] [] [] true.

(** Two setup windows, the first with one edit control, the second with
    three. *)
Definition two_windows_env : Env :=
  mkEnv true true true true (fun _ _ => false) (fun _ _ => 0%N)
        (fun _ => [setup_window;
                   mkHandle 2 true true "TEHTRIS EDR Setup" "MsiDialogCloseClass" false])
        (fun _ _ => 0)
        (fun _ parent => if parent =? 1 then [edit_box 11]
                         else [edit_box 21; edit_box 22; edit_box 23])
        (fun _ _ => (0, 0, 0, 0))
        (fun _ => []) (fun _ => []) (fun _ _ _ => true)
        (fun _ => true) (fun _ => true) (fun _ => []).

(** The wizard window on the activation screen: three edit controls and the
    Next button. *)
Definition activation_env : Env :=
  static_env true [setup_window]
    [edit_box 11; edit_box 12; edit_box 13;
     mkHandle 21 true true "&Next >" "Button" false] [] [] true.

(** The licence screen: the refusal comes first among the radio buttons. *)
Definition license_env : Env :=
  mkEnv true true true true (fun _ _ => false) (fun _ _ => 0%N)
        (fun _ => [mkHandle 1 true true "TEHTRIS EDR Setup" "MsiDialogCloseClass" false])
        (fun _ _ => 0)
        (fun _ _ => [mkHandle 31 true true "I &do not accept the terms" "Button" false;
                     mkHandle 32 true true "I &accept the terms" "Button" false;
                     mkHandle 33 true true "&Next >" "Button" false])
        (fun _ _ => (0, 0, 0, 0))
        (fun _ => []) (fun _ => []) (fun _ _ _ => true)
        (fun _ => true) (fun _ => true) (fun _ => []).

(** The last screen of the wizard: a Finish button. *)
Definition finish_env : Env :=
  static_env true [setup_window] [mkHandle 41 true true "&Finish" "Button" false] [] [] true.

(** A machine after the installation: the agent runs beside an unrelated
    agent, a process that has gone and a browser. *)
Definition agent_running_env : Env :=
  mkEnv true true true true (fun _ _ => false) (fun _ _ => 0%N)
        (fun _ => []) (fun _ _ => 0) (fun _ _ => []) (fun _ _ => (0, 0, 0, 0))
        (fun _ => []) (fun _ => []) (fun _ _ _ => true)
        (fun _ => true) (fun _ => true)
        (fun _ => [mkProc NoFault "ssh-agent.exe" "C:\ssh\ssh-agent.exe" "OpenSSH agent";
                   mkProc PsutilGone "Agent.exe" "" "";
                   mkProc NoFault "Agent.exe" "C:\Program Files\TEHTRIS\Agent.exe"
                          "TEHTRIS EDR Agent";
                   mkProc NoFault "chrome.exe" "C:\chrome.exe" "Chrome"]).

(** A machine on which the first two connection attempts fail. *)
Definition flaky_connection_env : Env :=
  mkEnv true true true true
        (fun t e =>
           match e with
           | Connect =>
               (length (filter (fun e' => match e' with Connect => true | _ => false end) t)
                <? 2)%nat
           | _ => false
           end)
        (fun _ _ => 0%N)
        (fun _ => []) (fun _ _ => 0) (fun _ _ => []) (fun _ _ => (0, 0, 0, 0))
        (fun _ => []) (fun _ => []) (fun _ _ _ => true)
        (fun _ => true) (fun _ => true) (fun _ => []).

(** The activation screen as the OCR reads it: the label of the first
    field. *)
Definition server_label_env : Env :=
  static_env true [] [] [mkOcrWord "Server" 95 100 200 60 20] [] true.

(** The usual frame: the button text is rendered without its ampersand. *)
Definition plain_label_env : Env :=
  static_env true [] [] [mkOcrWord "Next" 95 0 0 20 20] [] true.

(** Two OCR rows, the second with a literal ampersand. *)
Definition two_labels_env : Env :=
  static_env true [] []
    [mkOcrWord "Next" 95 0 0 20 20; mkOcrWord "&Next" 95 40 40 20 20] [] true.

(** The same world while the class lacks [click_coordinates]: the call
    raises. *)
Definition without_click_coordinates (env : Env) : Env :=
  mkEnv (PYWINAUTO_AVAILABLE env) (PYAUTOGUI_AVAILABLE env) (WIN32_AVAILABLE env)
        (PSUTIL_AVAILABLE env)
        (fun t e => match e with ClickCoordinates _ _ _ => true | _ => fails env t e end)
        (latency env) (top_windows env) (find_window env) (child_windows env)
        (window_rect env) (ocr_data env) (contours env) (click_result env)
        (msi_exists env) (is_admin env) (processes env).

(** A desktop without installer window and without readable text, where the
    colour detection would find a large shape. *)
Definition shape_only_env : Env :=
  static_env true [] [] [] [mkContour 400 400 80000 40000] true.

(** A machine without pywinauto. *)
Definition no_pywinauto_env : Env :=
  mkEnv false true true true (fun _ _ => false) (fun _ _ => 0%N)
        (fun _ => []) (fun _ _ => 0) (fun _ _ => []) (fun _ _ => (0, 0, 0, 0))
        (fun _ => []) (fun _ => []) (fun _ _ _ => true)
        (fun _ => true) (fun _ => true) (fun _ => []).

(** A machine where the MSI file is missing. *)
Definition no_msi_env : Env :=
  mkEnv true true true true (fun _ _ => false) (fun _ _ => 0%N)
        (fun _ => []) (fun _ _ => 0) (fun _ _ => []) (fun _ _ => (0, 0, 0, 0))
        (fun _ => []) (fun _ => []) (fun _ _ _ => true)
        (fun _ => false) (fun _ => true) (fun _ => []).

(** A machine on which pywinauto never manages to connect. *)
Definition no_connection_env : Env :=
  mkEnv true true true true
        (fun _ e => match e with Connect => true | _ => false end) (fun _ _ => 0%N)
        (fun _ => []) (fun _ _ => 0) (fun _ _ => []) (fun _ _ => (0, 0, 0, 0))
        (fun _ => []) (fun _ => []) (fun _ _ _ => true)
        (fun _ => true) (fun _ => true) (fun _ => []).

(** An installer whose attempt budget is zero. *)
Definition no_retry_installer : Installer :=
  mkInstaller "edr.msi" false "xpgapp16.tehtris.net" "XPG_QAT" "MH83-2CDX-9DXQ-LG89-92FF" 0 2000.

(** * Properties *)

(** ** Laws of the monad *)

(** A computation that returns feeds its value to what follows. *)
Lemma bind_step {A B} (m : M A) (f : A -> M B) s a s' :
  m s = (Ret a, s') -> bind m f s = f a s'.
Proof. intros E. unfold bind. rewrite E. reflexivity. Qed.

Lemma try_except_step {A} (m : M A) (h : Exn -> M A) s a s' :
  m s = (Ret a, s') -> try_except m h s = (Ret a, s').
Proof. intros E. unfold try_except. rewrite E. reflexivity. Qed.

(** Two computations that agree on every state may replace each other under
    [bind] and [try_except]. *)
Lemma bind_ext {A B} (m1 m2 : M A) (f1 f2 : A -> M B) s :
  (forall s0, m1 s0 = m2 s0) -> (forall a s1, f1 a s1 = f2 a s1) ->
  bind m1 f1 s = bind m2 f2 s.
Proof.
  intros Hm Hf. unfold bind. rewrite Hm.
  destruct (m2 s) as [[a | x |] s1]; [apply Hf | reflexivity | reflexivity].
Qed.

Lemma try_except_ext {A} (m1 m2 : M A) (h1 h2 : Exn -> M A) s :
  (forall s0, m1 s0 = m2 s0) -> (forall x s1, h1 x s1 = h2 x s1) ->
  try_except m1 h1 s = try_except m2 h2 s.
Proof.
  intros Hm Hh. unfold try_except. rewrite Hm.
  destruct (m2 s) as [[a | x |] s1]; [reflexivity | apply Hh | reflexivity].
Qed.

(** A [bind] that only passes a boolean on changes nothing. *)
Lemma bind_bool_eta (m : M bool) s :
  bind m (fun ok => if ok then ret true else ret false) s = m s.
Proof.
  unfold bind. destruct (m s) as [[[|] | x |] s1]; reflexivity.
Qed.

(** ** What a computation adds to the trace *)

Section Emits.

Variable env : Env.
Variable P : Event -> Prop.

(** A computation that leaves the state alone emits nothing. *)
Lemma emits_silent {A} (m : M A) : (forall s, final (m s) = s) -> emits P m.
Proof.
  intros H s. exists []. rewrite H, app_nil_r. repeat split; [constructor | lia].
Qed.

Lemma emits_ret {A} (a : A) : emits P (ret a).
Proof. apply emits_silent. reflexivity. Qed.

Lemma emits_raise {A} (x : Exn) : emits P (@raise A x).
Proof. apply emits_silent. reflexivity. Qed.

Lemma emits_get_trace : emits P get_trace.
Proof. apply emits_silent. reflexivity. Qed.

Lemma emits_get_clock : emits P get_clock.
Proof. apply emits_silent. reflexivity. Qed.

Lemma emits_get_app : emits P get_app.
Proof. apply emits_silent. reflexivity. Qed.

(** [set_app] changes [self.app] only. *)
Lemma emits_set_app b : emits P (set_app b).
Proof.
  intros s. exists []. cbn. rewrite app_nil_r. repeat split; [constructor | lia].
Qed.

Lemma emits_call e : P e -> emits P (call env e).
Proof.
  intros He s. exists [e]. unfold call.
  destruct (fails env (trace s) e); cbn; (repeat split; [repeat constructor; exact He | lia]).
Qed.

Lemma emits_sleep ms : P (Sleep ms) -> emits P (sleep env ms).
Proof.
  intros He s. unfold sleep. destruct (Z.ltb_spec ms 0).
  - exists []. cbn. rewrite app_nil_r. repeat split; [constructor | lia].
  - exists [Sleep ms]. cbn. repeat split; [repeat constructor; exact He | lia].
Qed.

Lemma emits_bind {A B} (m : M A) (f : A -> M B) :
  emits P m -> (forall a, emits P (f a)) -> emits P (bind m f).
Proof.
  intros Hm Hf s. unfold bind.
  destruct (Hm s) as (e1 & T1 & F1 & C1).
  destruct (m s) as [[a | x |] s1]; cbn in *.
  - destruct (Hf a s1) as (e2 & T2 & F2 & C2).
    exists (e1 ++ e2). rewrite T2, T1, app_assoc.
    repeat split; [apply Forall_app; split; assumption | lia].
  - exists e1. repeat split; assumption.
  - exists e1. repeat split; assumption.
Qed.

Lemma emits_try_except {A} (m : M A) (h : Exn -> M A) :
  emits P m -> (forall x, emits P (h x)) -> emits P (try_except m h).
Proof.
  intros Hm Hh s. unfold try_except.
  destruct (Hm s) as (e1 & T1 & F1 & C1).
  destruct (m s) as [[a | x |] s1]; cbn in *.
  - exists e1. repeat split; assumption.
  - destruct (Hh x s1) as (e2 & T2 & F2 & C2).
    exists (e1 ++ e2). rewrite T2, T1, app_assoc.
    repeat split; [apply Forall_app; split; assumption | lia].
  - exists e1. repeat split; assumption.
Qed.

Lemma emits_try_finally {A} (m : M A) (fin : M unit) :
  emits P m -> emits P fin -> emits P (try_finally m fin).
Proof.
  intros Hm Hf s. unfold try_finally.
  destruct (Hm s) as (e1 & T1 & F1 & C1).
  destruct (m s) as [r s1]; cbn in *.
  destruct (Hf s1) as (e2 & T2 & F2 & C2).
  exists (e1 ++ e2).
  destruct (fin s1) as [[a | x |] s2]; cbn in *;
    (rewrite T2, T1, app_assoc;
     repeat split; [apply Forall_app; split; assumption | lia]).
Qed.

End Emits.

Lemma emits_weaken {A} (P Q : Event -> Prop) (m : M A) :
  (forall e, P e -> Q e) -> emits P m -> emits Q m.
Proof.
  intros HPQ Hm s. destruct (Hm s) as (evs & T & F & C).
  exists evs. repeat split; try assumption.
  eapply Forall_impl; [exact HPQ | exact F].
Qed.

(** One syntax-directed step of an [emits] proof. *)
Ltac emits_step :=
  lazymatch goal with
  | |- emits _ (ret _) => apply emits_ret
  | |- emits _ (raise _) => apply emits_raise
  | |- emits _ get_trace => apply emits_get_trace
  | |- emits _ get_clock => apply emits_get_clock
  | |- emits _ get_app => apply emits_get_app
  | |- emits _ (set_app _) => apply emits_set_app
  | |- emits _ (bind _ _) => apply emits_bind; [ | intros ? ]
  | |- emits _ (try_except _ _) => apply emits_try_except; [ | intros ? ]
  | |- emits _ (try_finally _ _) => apply emits_try_finally
  | |- emits _ (call _ _) => apply emits_call
  | |- emits _ (sleep _ _) => apply emits_sleep
  | |- emits _ (if ?b then _ else _) => destruct b eqn:?
  | |- emits _ (match ?x with _ => _ end) => destruct x eqn:?
  | |- emits _ (let _ := _ in _) => cbv zeta
  end.

(** ** The native-handle click *)

Section NativeHandle.

Variable env : Env.

Lemma find_tehtris_windows_emits (P : Event -> Prop) :
  P EnumWindows -> (forall title, P (FindWindow title)) ->
  emits P (find_tehtris_windows env).
Proof.
  intros H1 H2. unfold find_tehtris_windows.
  repeat (emits_step; auto).
Qed.

Lemma click_in_windows_emits button_text ws :
  emits (click_event env button_text) (click_in_windows env button_text ws).
Proof.
  induction ws as [| w ws IH]; cbn [click_in_windows].
  - emits_step.
  - emits_step.
    + emits_step; [emits_step |]. cbv zeta.
      emits_step; [| emits_step].
      emits_step; [emits_step; exact I |].
      emits_step; [| emits_step].
      emits_step; [| emits_step].
      emits_step; [| emits_step].
      emits_step. split; [reflexivity |].
      match goal with H : find _ _ = Some _ |- _ => apply find_some in H; destruct H end.
      eauto 8.
    + emits_step; [emits_step | exact IH].
Qed.

Lemma click_with_win32gui_emits button_text :
  emits (click_event env button_text) (click_with_win32gui env button_text).
Proof.
  unfold click_with_win32gui, import_win32.
  emits_step; [| emits_step].
  emits_step; [emits_step; emits_step |].
  emits_step; [apply find_tehtris_windows_emits; cbn; auto |].
  emits_step; [emits_step | apply click_in_windows_emits].
Qed.

(** What the callback's test says about the control it accepts. *)
Lemma button_matches_spec button_text b :
  button_matches button_text b = true ->
  class_name b = "Button" /\
  contains (lower (strip_amp button_text)) (lower (strip_amp (window_text b))) = true /\
  contains "not" (lower (strip_amp (window_text b))) = false.
Proof.
  unfold button_matches. intros H.
  repeat (apply andb_prop in H; destruct H as [H ?]).
  repeat match goal with
         | H : (_ && _)%bool = true |- _ => apply andb_prop in H; destruct H
         end.
  repeat split.
  - apply String.eqb_eq. assumption.
  - assumption.
  - apply negb_true_iff. assumption.
Qed.

End NativeHandle.


Example click_accept_skips_do_not_accept :
  click_with_win32gui license_env "accept"
    (mkState [] 0 false) =
  (Ret true, mkState [EnumWindows; EnumChildWindows 1; PostMessage 32 BM_CLICK] 0 false).
Proof. reflexivity. Qed.

(** ** Filling a field by position *)

Section FillField.

Variable env : Env.

Lemma fill_edit_control_emits field_label value t parent h :
  nth_error (edit_controls env t parent) (field_index field_label) = Some h ->
  emits (fill_event env field_label value) (fill_edit_control env h value).
Proof.
  intros Hn.
  assert (K : forall e,
             (e = GetWindowRect h \/ (exists x y, e = Click x y) \/ (exists ms, e = Sleep ms) \/
              e = SendMessage h WM_SETTEXT "" \/ e = SendMessage h WM_SETTEXT value \/
              e = SendMessage h WM_KEYDOWN "VK_TAB" \/ e = SendMessage h WM_KEYUP "VK_TAB") ->
             fill_event env field_label value e).
  { intros e He. right. right. right. exists t, parent, h. split; assumption. }
  unfold fill_edit_control.
  repeat (emits_step; try (apply K; eauto 12)).
Qed.

Lemma fill_in_windows_emits field_label value ws :
  emits (fill_event env field_label value) (fill_in_windows env field_label value ws).
Proof.
  induction ws as [| w ws IH]; cbn [fill_in_windows].
  - emits_step.
  - emits_step.
    + emits_step; [| emits_step].
      emits_step; [emits_step |].
      emits_step; [emits_step; right; right; left; eauto |].
      emits_step; [emits_step |].
      emits_step; [| emits_step].
      emits_step; [| emits_step].
      match goal with
      | E : edit_controls _ _ _ = _, N : nth_error _ _ = Some _ |- _ =>
          rewrite <- E in N; eapply fill_edit_control_emits; exact N
      end.
    + emits_step; [emits_step | exact IH].
Qed.

Lemma fill_field_with_win32gui_emits field_label value :
  emits (fill_event env field_label value) (fill_field_with_win32gui env field_label value).
Proof.
  unfold fill_field_with_win32gui, import_win32.
  emits_step; [| emits_step].
  emits_step; [emits_step; emits_step |].
  emits_step; [apply find_tehtris_windows_emits; [left; reflexivity | intros; right; left; eauto] |].
  emits_step; [emits_step | apply fill_in_windows_emits].
Qed.

(** A fill event that acts on the installer targets the positional control. *)
Lemma fill_event_actuation field_label value e :
  fill_event env field_label value e -> is_actuation e = true ->
  exists t parent h,
    nth_error (edit_controls env t parent) (field_index field_label) = Some h /\
    ((exists x y, e = Click x y) \/
     e = SendMessage h WM_SETTEXT "" \/ e = SendMessage h WM_SETTEXT value \/
     e = SendMessage h WM_KEYDOWN "VK_TAB" \/ e = SendMessage h WM_KEYUP "VK_TAB").
Proof.
  intros [-> | [[title ->] | [[parent ->] | (t & parent & h & Hn & He)]]] Hact;
    try discriminate.
  exists t, parent, h. split; [exact Hn |].
  destruct He as [-> | [He | [[ms ->] | He]]]; try discriminate; tauto.
Qed.

(** No fill event activates a button. *)
Lemma fill_event_no_button field_label value e :
  fill_event env field_label value e -> is_button_activation e = false.
Proof.
  intros [-> | [[title ->] | [[parent ->] | (t & parent & h & Hn & He)]]];
    try reflexivity.
  destruct He as [-> | [(x & y & ->) | [[ms ->] | [-> | [-> | [-> | ->]]]]]]; reflexivity.
Qed.

(** With the index out of range in every window, no window is filled. *)
Lemma fill_in_windows_out_of_range field_label value ws s :
  (forall t parent, nth_error (edit_controls env t parent) (field_index field_label) = None) ->
  result (fill_in_windows env field_label value ws s) = Ret false.
Proof.
  intros H. revert s. induction ws as [| w ws IH]; intros s; [reflexivity |].
  cbn [fill_in_windows]. unfold bind at 1. unfold try_except, bind, get_trace, call.
  rewrite H.
  destruct (fails env (trace s) (EnumChildWindows w)); cbn.
  - apply IH.
  - destruct (edit_controls env (trace s) w); cbn; apply IH.
Qed.

Lemma find_tehtris_windows_returns s :
  exists ws s', find_tehtris_windows env s = (Ret ws, s').
Proof.
  unfold find_tehtris_windows, bind, try_except, get_trace, call, ret.
  cbn. destruct (fails env (trace s) EnumWindows); cbn; [| eauto].
  destruct (fails env _ (FindWindow _)); cbn; eauto.
Qed.

Lemma fill_field_out_of_range field_label value s :
  (forall t parent, nth_error (edit_controls env t parent) (field_index field_label) = None) ->
  result (fill_field_with_win32gui env field_label value s) = Ret false.
Proof.
  intros H. unfold fill_field_with_win32gui, import_win32, try_except.
  unfold bind at 1.
  destruct (WIN32_AVAILABLE env); cbn; [| reflexivity].
  unfold bind at 1.
  destruct (find_tehtris_windows_returns s) as (ws & s' & ->).
  destruct ws as [| w ws]; [reflexivity |].
  pose proof (fill_in_windows_out_of_range field_label value (w :: ws) s' H) as R.
  unfold result in R.
  destruct (fill_in_windows env field_label value (w :: ws) s') as [[b | x |] s2];
    cbn in *; congruence.
Qed.

End FillField.

(** The captions of the controls do not matter to the fill. *)

Section Relabel.

Variable env : Env.
Variable caption : Handle -> string.

Lemma edit_controls_relabel t parent :
  edit_controls (relabel_controls caption env) t parent = edit_controls env t parent.
Proof.
  unfold edit_controls. cbn [child_windows relabel_controls].
  induction (child_windows env t parent) as [| h l IH]; [reflexivity |].
  cbn [map filter].
  change (is_edit_control (relabel caption h)) with (is_edit_control h).
  destruct (is_edit_control h); cbn [map]; rewrite IH; reflexivity.
Qed.

Lemma fill_in_windows_relabel field_label value ws s :
  fill_in_windows (relabel_controls caption env) field_label value ws s =
  fill_in_windows env field_label value ws s.
Proof.
  revert s. induction ws as [| w ws IH]; intros s; [reflexivity |].
  cbn [fill_in_windows].
  apply bind_ext; [| intros [|] s1; [reflexivity | apply IH]].
  intros s0. apply try_except_ext; [| reflexivity].
  intros s1. apply bind_ext; [reflexivity |].
  intros t s2. apply bind_ext; [reflexivity |].
  intros _ s3. rewrite edit_controls_relabel. reflexivity.
Qed.

Lemma fill_field_with_win32gui_relabel field_label value s :
  fill_field_with_win32gui (relabel_controls caption env) field_label value s =
  fill_field_with_win32gui env field_label value s.
Proof.
  unfold fill_field_with_win32gui.
  apply try_except_ext; [| reflexivity].
  intros s0. apply bind_ext; [reflexivity |].
  intros _ s1. apply bind_ext; [reflexivity |].
  intros [| w ws] s2; [reflexivity | apply fill_in_windows_relabel].
Qed.

End Relabel.



(** An index out of range for one window sends the loop on to the next. *)
Example fill_field_moves_on_to_next_window :
  result (fill_field_with_win32gui two_windows_env "tag" "XPG_QAT" start) = Ret true /\
  filter is_actuation
    (trace (final (fill_field_with_win32gui two_windows_env "tag" "XPG_QAT" start))) =
    [Click 0 0; SendMessage 22 WM_SETTEXT ""; SendMessage 22 WM_SETTEXT "XPG_QAT";
     SendMessage 22 WM_KEYDOWN "VK_TAB"; SendMessage 22 WM_KEYUP "VK_TAB"].
Proof. split; reflexivity. Qed.

(** ** How a computation ends *)

Lemma returns_halts {A} (m : M A) : returns m -> halts m.
Proof.
  intros H s. destruct (H s) as (a & s' & E). rewrite E. discriminate.
Qed.

Section Halts.

Variable env : Env.

Lemma halts_ret {A} (a : A) : halts (ret a).
Proof. intros s. discriminate. Qed.

Lemma halts_raise {A} (x : Exn) : halts (@raise A x).
Proof. intros s. discriminate. Qed.

Lemma halts_call e : halts (call env e).
Proof. intros s. unfold call. destruct (fails env (trace s) e); discriminate. Qed.

Lemma halts_sleep ms : halts (sleep env ms).
Proof. intros s. unfold sleep. destruct (ms <? 0); discriminate. Qed.

Lemma halts_bind {A B} (m : M A) (f : A -> M B) :
  halts m -> (forall a, halts (f a)) -> halts (bind m f).
Proof.
  intros Hm Hf s. unfold bind. specialize (Hm s).
  destruct (m s) as [[a | x |] s1]; cbn in *; [apply Hf | discriminate | congruence].
Qed.

Lemma halts_try_except {A} (m : M A) (h : Exn -> M A) :
  halts m -> (forall x, halts (h x)) -> halts (try_except m h).
Proof.
  intros Hm Hh s. unfold try_except. specialize (Hm s).
  destruct (m s) as [[a | x |] s1]; cbn in *; [discriminate | apply Hh | congruence].
Qed.

Lemma returns_ret {A} (a : A) : returns (ret a).
Proof. intros s. exists a, s. reflexivity. Qed.

Lemma returns_get_trace : returns get_trace.
Proof. intros s. exists (trace s), s. reflexivity. Qed.

Lemma returns_get_app : returns get_app.
Proof. intros s. exists (app s), s. reflexivity. Qed.

Lemma returns_set_app b : returns (set_app b).
Proof. intros s. eexists _, _. reflexivity. Qed.

Lemma returns_bind {A B} (m : M A) (f : A -> M B) :
  returns m -> (forall a, returns (f a)) -> returns (bind m f).
Proof.
  intros Hm Hf s. destruct (Hm s) as (a & s1 & E).
  rewrite (bind_step _ _ _ _ _ E). apply Hf.
Qed.

(** A [try] whose handlers return always returns, as soon as its body halts. *)
Lemma returns_try_except {A} (m : M A) (h : Exn -> M A) :
  halts m -> (forall x, returns (h x)) -> returns (try_except m h).
Proof.
  intros Hm Hh s. unfold try_except. specialize (Hm s).
  destruct (m s) as [[a | x |] s1]; cbn in *; [eauto | apply Hh | congruence].
Qed.

End Halts.

(** One syntax-directed step of a [halts] or [returns] proof. *)
Ltac ends_step :=
  lazymatch goal with
  | |- halts (ret _) => apply halts_ret
  | |- halts (raise _) => apply halts_raise
  | |- halts (call _ _) => apply halts_call
  | |- halts (sleep _ _) => apply halts_sleep
  | |- halts (bind _ _) => apply halts_bind; [ | intros ? ]
  | |- halts (try_except _ _) => apply halts_try_except; [ | intros ? ]
  | |- halts (if ?b then _ else _) => destruct b
  | |- halts (match ?x with _ => _ end) => destruct x
  | |- halts (let _ := _ in _) => cbv zeta
  | |- halts get_trace => apply returns_halts, returns_get_trace
  | |- halts get_app => apply returns_halts, returns_get_app
  | |- halts (set_app _) => apply returns_halts, returns_set_app
  | |- returns (ret _) => apply returns_ret
  | |- returns get_trace => apply returns_get_trace
  | |- returns get_app => apply returns_get_app
  | |- returns (set_app _) => apply returns_set_app
  | |- returns (bind _ _) => apply returns_bind; [ | intros ? ]
  | |- returns (try_except _ _) => apply returns_try_except; [ | intros ? ]
  | |- returns (if ?b then _ else _) => destruct b
  | |- returns (match ?x with _ => _ end) => destruct x
  | |- returns (let _ := _ in _) => cbv zeta
  end.

(** ** The steps of the wizard end and only extend the trace *)

Section StepsEnd.

Variable env : Env.
Variable self : Installer.

Lemma find_tehtris_windows_halts : returns (find_tehtris_windows env).
Proof. intros s. apply find_tehtris_windows_returns. Qed.

Lemma click_in_windows_halts button_text ws : halts (click_in_windows env button_text ws).
Proof.
  induction ws as [| w ws IH]; cbn [click_in_windows]; repeat ends_step; exact IH.
Qed.

Lemma click_with_win32gui_returns button_text : returns (click_with_win32gui env button_text).
Proof.
  unfold click_with_win32gui, import_win32.
  ends_step; [| ends_step].
  ends_step; [repeat ends_step |].
  ends_step; [apply returns_halts, find_tehtris_windows_halts |].
  ends_step; [ends_step | apply click_in_windows_halts].
Qed.

Lemma fill_edit_control_halts h value : halts (fill_edit_control env h value).
Proof. unfold fill_edit_control. repeat ends_step. Qed.

Lemma fill_in_windows_halts field_label value ws :
  halts (fill_in_windows env field_label value ws).
Proof.
  induction ws as [| w ws IH]; cbn [fill_in_windows]; [ends_step |].
  ends_step; [| ends_step; [ends_step | exact IH]].
  apply returns_halts. ends_step; [| ends_step].
  ends_step; [ends_step |].
  ends_step; [ends_step |].
  ends_step; [ends_step |].
  ends_step; [| ends_step].
  ends_step; [apply fill_edit_control_halts | ends_step].
Qed.

Lemma fill_field_with_win32gui_returns field_label value :
  returns (fill_field_with_win32gui env field_label value).
Proof.
  unfold fill_field_with_win32gui, import_win32.
  ends_step; [| ends_step].
  ends_step; [repeat ends_step |].
  ends_step; [apply returns_halts, find_tehtris_windows_halts |].
  ends_step; [ends_step | apply fill_in_windows_halts].
Qed.

Lemma take_screenshot_returns step_name : returns (take_screenshot env self step_name).
Proof. unfold take_screenshot. repeat ends_step. Qed.

Lemma dump_children_halts ws : halts (dump_children env ws).
Proof. induction ws as [| w ws IH]; cbn [dump_children]; repeat ends_step; exact IH. Qed.

Lemma print_window_text_returns : returns (print_window_text env).
Proof.
  unfold print_window_text, import_win32.
  ends_step; [| ends_step; [| ends_step; [| ends_step]]].
  - repeat ends_step.
  - repeat ends_step.
  - ends_step; [repeat ends_step |].
    ends_step; [ends_step |].
    ends_step; [ends_step |].
    ends_step; [ends_step | apply dump_children_halts].
Qed.

End StepsEnd.

Section StepsEmit.

Variable env : Env.
Variable self : Installer.

Lemma take_screenshot_emits step_name : emits probe (take_screenshot env self step_name).
Proof. unfold take_screenshot. repeat (emits_step; try reflexivity). Qed.

Lemma dump_children_emits ws : emits probe (dump_children env ws).
Proof.
  induction ws as [| w ws IH]; cbn [dump_children];
    repeat (emits_step; try reflexivity); exact IH.
Qed.

Lemma print_window_text_emits : emits probe (print_window_text env).
Proof.
  unfold print_window_text, import_win32.
  emits_step; [| emits_step; [| emits_step; [| emits_step]]].
  - repeat (emits_step; try reflexivity).
  - repeat (emits_step; try reflexivity).
  - emits_step; [repeat emits_step |].
    emits_step; [emits_step |].
    emits_step; [emits_step; reflexivity |].
    emits_step; [emits_step | apply dump_children_emits].
Qed.

Lemma find_text_on_screen_emits text : emits probe (find_text_on_screen env self text).
Proof. unfold find_text_on_screen. repeat (emits_step; try reflexivity). Qed.

Lemma click_coordinates_emits x y what :
  emits chain_event (click_coordinates env x y what).
Proof. unfold click_coordinates. repeat (emits_step; try discriminate). Qed.

Lemma probe_chain_event {A} (m : M A) : emits probe m -> emits chain_event m.
Proof.
  apply emits_weaken. intros e He. unfold probe in He. intros ->. discriminate He.
Qed.

Lemma click_search_texts_emits element_type texts :
  emits chain_event (click_search_texts env self element_type texts).
Proof.
  induction texts as [| t texts IH]; cbn [click_search_texts]; [emits_step |].
  emits_step; [apply probe_chain_event, find_text_on_screen_emits |].
  emits_step; [| exact IH].
  emits_step.
  emits_step; [apply click_coordinates_emits |].
  emits_step; [emits_step | exact IH].
Qed.

Lemma click_text_options_emits element_type text_options :
  emits chain_event (click_text_options env self element_type text_options).
Proof.
  induction text_options as [| t opts IH]; cbn [click_text_options]; [emits_step |].
  emits_step; [apply click_search_texts_emits |].
  emits_step; [emits_step | exact IH].
Qed.

Lemma click_fallback_positions_emits element_type positions :
  emits chain_event (click_fallback_positions env element_type positions).
Proof.
  induction positions as [| [x y] ps IH]; cbn [click_fallback_positions]; [emits_step |].
  emits_step; [apply click_coordinates_emits |].
  emits_step; [repeat (emits_step; try discriminate) | exact IH].
Qed.

Lemma keyboard_shortcut_emits element_type :
  emits chain_event (keyboard_shortcut env element_type).
Proof. unfold keyboard_shortcut. repeat (emits_step; try discriminate). Qed.

Lemma smart_find_and_click_emits element_type text_options fallback_positions :
  emits chain_event (smart_find_and_click env self element_type text_options fallback_positions).
Proof.
  unfold smart_find_and_click, ocr_text_search.
  emits_step; [emits_step |].
  emits_step; [emits_step; [apply click_text_options_emits | emits_step] |].
  emits_step; [emits_step |].
  emits_step; [apply click_fallback_positions_emits |].
  emits_step; [emits_step | apply keyboard_shortcut_emits].
Qed.

Lemma find_input_field_by_label_emits label :
  emits chain_event (find_input_field_by_label env self label).
Proof.
  unfold find_input_field_by_label.
  emits_step; [emits_step |].
  emits_step; [| emits_step].
  emits_step; [apply probe_chain_event, find_text_on_screen_emits |].
  repeat emits_step.
Qed.

Lemma type_value_emits value : emits chain_event (type_value env value).
Proof. unfold type_value. repeat (emits_step; try discriminate). Qed.

Lemma fill_by_labels_emits field_name value labels :
  emits chain_event (fill_by_labels env self field_name value labels).
Proof.
  induction labels as [| l labels IH]; cbn [fill_by_labels]; [emits_step |].
  emits_step; [apply find_input_field_by_label_emits |].
  emits_step; [| emits_step; [emits_step | exact IH]].
  emits_step; [| emits_step].
  emits_step.
  emits_step; [apply click_coordinates_emits |].
  emits_step; [apply type_value_emits | emits_step].
Qed.

Lemma fill_by_positions_emits field_name value positions :
  emits chain_event (fill_by_positions env field_name value positions).
Proof.
  induction positions as [| [x y] ps IH]; cbn [fill_by_positions]; [emits_step |].
  emits_step; [apply click_coordinates_emits |].
  emits_step; [emits_step; [apply type_value_emits | emits_step] |].
  emits_step; [emits_step | exact IH].
Qed.

Lemma smart_fill_field_emits field_name value labels positions :
  emits chain_event (smart_fill_field env self field_name value labels positions).
Proof.
  unfold smart_fill_field.
  emits_step; [emits_step |].
  emits_step; [apply fill_by_labels_emits |].
  emits_step; [emits_step | apply fill_by_positions_emits].
Qed.

Lemma click_with_win32gui_extends button_text :
  emits chain_event (click_with_win32gui env button_text).
Proof.
  eapply emits_weaken; [| apply click_with_win32gui_emits].
  intros e He ->. exact He.
Qed.

End StepsEmit.

(** ** The activation step *)

Lemma probe_no_button e : probe e -> is_button_activation e = false.
Proof. unfold probe. destruct e; cbn; congruence. Qed.

(** C6: a run of the activation step that is not a dry run first probes the
    screen, then makes the three positional fill attempts in the order
    server address (edit control 0), tag (edit control 1), license key (edit
    control 2), each with its configured value; no button is activated
    before the third attempt is over, so "Next" is only activated after all
    three. *)
Theorem handle_activation_information_fills_in_order :
  forall (env : Env) (self : Installer) (s : State),
    dry_run self = false ->
    exists (s0 : State) (pre f1 f2 f3 post : list Event),
      let s1 := final (fill_field_with_win32gui env "server" (server_address self) s0) in
      let s2 := final (fill_field_with_win32gui env "tag" (tag self) s1) in
      let s3 := final (fill_field_with_win32gui env "license" (license_key self) s2) in
      trace s0 = trace s ++ pre /\ Forall probe pre /\
      trace s1 = trace s0 ++ f1 /\ Forall (fill_event env "server" (server_address self)) f1 /\
      trace s2 = trace s1 ++ f2 /\ Forall (fill_event env "tag" (tag self)) f2 /\
      trace s3 = trace s2 ++ f3 /\ Forall (fill_event env "license" (license_key self)) f3 /\
      field_index "server" = 0%nat /\ field_index "tag" = 1%nat /\
      field_index "license" = 2%nat /\
      trace (final (handle_activation_information env self s)) = trace s3 ++ post /\
      Forall (fun e => is_button_activation e = false) (pre ++ f1 ++ f2 ++ f3).
Proof.
  intros env self s Hdry.
  unfold handle_activation_information. rewrite Hdry.
  destruct (take_screenshot_returns env self "activation_information" s) as ([] & sa & Ea).
  destruct (print_window_text_returns env sa) as ([] & s0 & Eb).
  destruct (fill_field_with_win32gui_returns env "server" (server_address self) s0)
    as (r1 & s1 & E1).
  destruct (fill_field_with_win32gui_returns env "tag" (tag self) s1) as (r2 & s2 & E2).
  destruct (fill_field_with_win32gui_returns env "license" (license_key self) s2)
    as (r3 & s3 & E3).
  rewrite (bind_step _ _ _ _ _ Ea), (bind_step _ _ _ _ _ Eb).
  cbv zeta.
  rewrite (bind_step _ _ _ _ _ E1), (bind_step _ _ _ _ _ E2), (bind_step _ _ _ _ _ E3).
  pose proof (take_screenshot_emits env self "activation_information" s) as (pa & Ta & Fa & _).
  pose proof (print_window_text_emits env sa) as (pb & Tb & Fb & _).
  pose proof (fill_field_with_win32gui_emits env "server" (server_address self) s0)
    as (f1 & T1 & F1 & _).
  pose proof (fill_field_with_win32gui_emits env "tag" (tag self) s1) as (f2 & T2 & F2 & _).
  pose proof (fill_field_with_win32gui_emits env "license" (license_key self) s2)
    as (f3 & T3 & F3 & _).
  rewrite Ea in Ta. rewrite Eb in Tb. cbn [final snd] in Ta, Tb.
  assert (Hrest : emits chain_event
            (done <- (if true && r1 && r2 && r3
                      then sleep env 500 ;; click_with_win32gui env "Next"
                      else ret false) ;;
             if done then ret true
             else
               smart_fill_field env self "Server address" (server_address self)
                 ["Server address"; "Adresse serveur"; "Server"; "Serveur"] [] ;;
               smart_fill_field env self "Tag" (tag self) ["Tag"; "Étiquette"] [] ;;
               smart_fill_field env self "License key" (license_key self)
                 ["License key"; "Clé de licence"; "License"; "Licence"] [] ;;
               sleep env 1000 ;;
               smart_find_and_click env self "Next button (activation screen)"
                 next_text_options [])).
  { emits_step.
    - emits_step; [| emits_step].
      emits_step; [emits_step; discriminate | apply click_with_win32gui_extends].
    - emits_step; [emits_step |].
      repeat (emits_step;
              [first [apply smart_fill_field_emits | emits_step; discriminate] |]).
      apply smart_find_and_click_emits. }
  destruct (Hrest s3) as (post & Tp & _ & _).
  exists s0, (pa ++ pb), f1, f2, f3, post.
  rewrite E1. cbn [final snd]. rewrite E2. cbn [final snd]. rewrite E3. cbn [final snd].
  rewrite E1 in T1. rewrite E2 in T2. rewrite E3 in T3. cbn [final snd] in T1, T2, T3.
  repeat split; try assumption; try reflexivity.
  - rewrite Tb, Ta, app_assoc. reflexivity.
  - apply Forall_app; split; assumption.
  - repeat (apply Forall_app; split);
      (eapply Forall_impl; [| eassumption]); intros e He;
      first [apply probe_no_button; exact He | eapply fill_event_no_button; exact He].
Qed.

(** C6 on the activation screen with the constructor's configuration: the
    three fields are set in order, then Next is clicked. *)
Lemma handle_activation_information_witness :
  (exists (s0 : State) (pre f1 f2 f3 post : list Event),
      let env := activation_env in
      let self := init "edr.msi" false in
      let s1 := final (fill_field_with_win32gui env "server" (server_address self) s0) in
      let s2 := final (fill_field_with_win32gui env "tag" (tag self) s1) in
      let s3 := final (fill_field_with_win32gui env "license" (license_key self) s2) in
      trace s0 = trace start ++ pre /\ Forall probe pre /\
      trace s1 = trace s0 ++ f1 /\ Forall (fill_event env "server" (server_address self)) f1 /\
      trace s2 = trace s1 ++ f2 /\ Forall (fill_event env "tag" (tag self)) f2 /\
      trace s3 = trace s2 ++ f3 /\ Forall (fill_event env "license" (license_key self)) f3 /\
      field_index "server" = 0%nat /\ field_index "tag" = 1%nat /\
      field_index "license" = 2%nat /\
      trace (final (handle_activation_information env self start)) = trace s3 ++ post /\
      Forall (fun e => is_button_activation e = false) (pre ++ f1 ++ f2 ++ f3)) /\
  filter is_actuation
    (trace (final (handle_activation_information activation_env (init "edr.msi" false) start))) =
    [Click 0 0; SendMessage 11 WM_SETTEXT ""; SendMessage 11 WM_SETTEXT "xpgapp16.tehtris.net";
     SendMessage 11 WM_KEYDOWN "VK_TAB"; SendMessage 11 WM_KEYUP "VK_TAB";
     Click 0 0; SendMessage 12 WM_SETTEXT ""; SendMessage 12 WM_SETTEXT "XPG_QAT";
     SendMessage 12 WM_KEYDOWN "VK_TAB"; SendMessage 12 WM_KEYUP "VK_TAB";
     Click 0 0; SendMessage 13 WM_SETTEXT "";
     SendMessage 13 WM_SETTEXT "MH83-2CDX-9DXQ-LG89-92FF";
     SendMessage 13 WM_KEYDOWN "VK_TAB"; SendMessage 13 WM_KEYUP "VK_TAB";
     PostMessage 21 BM_CLICK].
Proof.
  split.
  - apply (handle_activation_information_fills_in_order
             activation_env (init "edr.msi" false) start).
    reflexivity.
  - vm_compute. reflexivity.
Defined.

(** ** Dry run *)

(** C8 as stated fails: a dry run returns False, before any step, when
    pywinauto cannot be imported or the MSI file does not exist. *)
Lemma run_installation_dry_run_can_fail :
  run_installation no_pywinauto_env (init "edr.msi" true) start = (Ret false, start) /\
  result (run_installation no_msi_env (init "edr.msi" true) start) = Ret false /\
  trace (final (run_installation no_msi_env (init "edr.msi" true) start)) = [PathExists].
Proof. split; [reflexivity | split; reflexivity]. Qed.

(** C8, amended: in dry-run mode [run_installation] makes no probe and no
    actuation; its only external calls are the existence check of the MSI
    path and the half-second sleeps between the steps.  It returns True
    exactly when pywinauto is importable, the existence check succeeds and
    the tag starts with "XPG_"; then the trace grows by that check and four
    sleeps. *)
Theorem run_installation_dry_run :
  forall (env : Env) (self : Installer) (s : State),
    dry_run self = true ->
    exists evs,
      trace (final (run_installation env self s)) = trace s ++ evs /\
      Forall (fun e => is_probe e = false /\ is_actuation e = false /\
                       (e = PathExists \/ e = Sleep 500)) evs /\
      (result (run_installation env self s) = Ret true <->
       PYWINAUTO_AVAILABLE env = true /\ fails env (trace s) PathExists = false /\
       msi_exists env (trace s) = true /\ startswith "XPG_" (tag self) = true) /\
      (result (run_installation env self s) = Ret true ->
       evs = [PathExists; Sleep 500; Sleep 500; Sleep 500; Sleep 500]) /\
      (result (run_installation env self s) <> Ret true ->
       result (run_installation env self s) = Ret false /\ (evs = [] \/ evs = [PathExists])).
Proof.
  intros env self s Hdry.
  unfold run_installation, wizard_steps, validate_prerequisites, launch_installer,
    handle_welcome_screen, handle_license_agreement, handle_activation_information,
    handle_installation, wait_for_completion, verify_installation, cleanup.
  rewrite Hdry.
  unfold try_finally, try_except, bind, get_trace, get_app, call, sleep, ret, result, final.
  cbn.
  assert (Hev : forall e, e = PathExists \/ e = Sleep 500 ->
                  is_probe e = false /\ is_actuation e = false /\
                  (e = PathExists \/ e = Sleep 500)).
  { intros e [-> | ->]; repeat split; auto. }
  destruct (PYWINAUTO_AVAILABLE env); cbn.
  2:{ exists []. rewrite app_nil_r.
      destruct (app s); cbn;
        (split; [reflexivity |]; split; [constructor |]; split;
         [split; [intros H; discriminate H | intros (H & _); discriminate H] |];
         split; [intros H; discriminate H | intros _; split; [reflexivity | now left]]). }
  destruct (fails env (trace s) PathExists); cbn.
  { exists [PathExists].
    destruct (app s); cbn;
      (split; [reflexivity |]; split; [repeat constructor; apply Hev; now left |]; split;
       [split; [intros H; discriminate H | intros (_ & H & _); discriminate H] |];
       split; [intros H; discriminate H | intros _; split; [reflexivity | now right]]). }
  destruct (msi_exists env (trace s)); cbn.
  2:{ exists [PathExists].
      destruct (app s); cbn;
        (split; [reflexivity |]; split; [repeat constructor; apply Hev; now left |]; split;
         [split; [intros H; discriminate H | intros (_ & _ & H & _); discriminate H] |];
         split; [intros H; discriminate H | intros _; split; [reflexivity | now right]]). }
  destruct (startswith "XPG_" (tag self)); cbn.
  2:{ exists [PathExists].
      destruct (app s); cbn;
        (split; [reflexivity |]; split; [repeat constructor; apply Hev; now left |]; split;
         [split; [intros H; discriminate H | intros (_ & _ & _ & H); discriminate H] |];
         split; [intros H; discriminate H | intros _; split; [reflexivity | now right]]). }
  exists [PathExists; Sleep 500; Sleep 500; Sleep 500; Sleep 500].
  destruct (app s); cbn;
    (split; [repeat rewrite <- app_assoc; reflexivity |]; split;
     [repeat constructor; apply Hev; auto |]; split;
     [split; [intros _; repeat split | intros _; reflexivity] |];
     split; [intros _; reflexivity | intros H; exfalso; apply H; reflexivity]).
Qed.

(** C8 on a machine that has pywinauto and the MSI file. *)
Lemma run_installation_dry_run_witness :
  exists evs,
    trace (final (run_installation activation_env (init "edr.msi" true) start)) =
      trace start ++ evs /\
    Forall (fun e => is_probe e = false /\ is_actuation e = false /\
                     (e = PathExists \/ e = Sleep 500)) evs /\
    (result (run_installation activation_env (init "edr.msi" true) start) = Ret true <->
     PYWINAUTO_AVAILABLE activation_env = true /\
     fails activation_env (trace start) PathExists = false /\
     msi_exists activation_env (trace start) = true /\
     startswith "XPG_" (tag (init "edr.msi" true)) = true) /\
    (result (run_installation activation_env (init "edr.msi" true) start) = Ret true ->
     evs = [PathExists; Sleep 500; Sleep 500; Sleep 500; Sleep 500]) /\
    (result (run_installation activation_env (init "edr.msi" true) start) <> Ret true ->
     result (run_installation activation_env (init "edr.msi" true) start) = Ret false /\
     (evs = [] \/ evs = [PathExists])).
Proof.
  apply (run_installation_dry_run activation_env (init "edr.msi" true) start).
  reflexivity.
Defined.

(** ** Every step ends *)

Create HintDb ends discriminated.

Section StepsHalt.

Variable env : Env.
Variable self : Installer.

#[local] Hint Resolve returns_halts : ends.
#[local] Hint Resolve click_with_win32gui_returns fill_field_with_win32gui_returns
  take_screenshot_returns print_window_text_returns : ends.

(** Syntax-directed steps, with the lemmas of the database at the leaves. *)
Ltac ends_auto := repeat first [solve [auto with ends] | ends_step].

Lemma find_text_on_screen_returns text : returns (find_text_on_screen env self text).
Proof. unfold find_text_on_screen. ends_auto. Qed.
#[local] Hint Resolve find_text_on_screen_returns : ends.

Lemma click_coordinates_halts x y what : halts (click_coordinates env x y what).
Proof. unfold click_coordinates. ends_auto. Qed.
#[local] Hint Resolve click_coordinates_halts : ends.

Lemma click_search_texts_halts element_type texts :
  halts (click_search_texts env self element_type texts).
Proof. induction texts as [| t texts IH]; cbn [click_search_texts]; ends_auto. Qed.
#[local] Hint Resolve click_search_texts_halts : ends.

Lemma click_text_options_halts element_type text_options :
  halts (click_text_options env self element_type text_options).
Proof.
  induction text_options as [| t opts IH]; cbn [click_text_options]; ends_auto.
Qed.
#[local] Hint Resolve click_text_options_halts : ends.

Lemma click_fallback_positions_halts element_type positions :
  halts (click_fallback_positions env element_type positions).
Proof.
  induction positions as [| [x y] ps IH]; cbn [click_fallback_positions]; ends_auto.
Qed.
#[local] Hint Resolve click_fallback_positions_halts : ends.

Lemma smart_find_and_click_halts element_type text_options fallback_positions :
  halts (smart_find_and_click env self element_type text_options fallback_positions).
Proof.
  unfold smart_find_and_click, ocr_text_search, keyboard_shortcut. ends_auto.
Qed.
#[local] Hint Resolve smart_find_and_click_halts : ends.

Lemma find_input_field_by_label_returns label :
  returns (find_input_field_by_label env self label).
Proof. unfold find_input_field_by_label. ends_auto. Qed.
#[local] Hint Resolve find_input_field_by_label_returns : ends.

Lemma fill_by_labels_halts field_name value labels :
  halts (fill_by_labels env self field_name value labels).
Proof.
  induction labels as [| l labels IH]; cbn [fill_by_labels]; unfold type_value; ends_auto.
Qed.
#[local] Hint Resolve fill_by_labels_halts : ends.

Lemma fill_by_positions_halts field_name value positions :
  halts (fill_by_positions env field_name value positions).
Proof.
  induction positions as [| [x y] ps IH]; cbn [fill_by_positions]; unfold type_value;
    ends_auto.
Qed.
#[local] Hint Resolve fill_by_positions_halts : ends.

Lemma smart_fill_field_halts field_name value labels positions :
  halts (smart_fill_field env self field_name value labels positions).
Proof. unfold smart_fill_field. ends_auto. Qed.
#[local] Hint Resolve smart_fill_field_halts : ends.

Lemma launch_installer_returns : returns (launch_installer env self).
Proof. unfold launch_installer, minimize_all_windows. ends_auto. Qed.

Lemma validate_prerequisites_halts : halts (validate_prerequisites env self).
Proof. unfold validate_prerequisites, _is_admin. ends_auto. Qed.

Lemma handle_welcome_screen_halts : halts (handle_welcome_screen env self).
Proof. unfold handle_welcome_screen. ends_auto. Qed.

Lemma handle_license_agreement_halts : halts (handle_license_agreement env self).
Proof. unfold handle_license_agreement. ends_auto. Qed.

Lemma handle_activation_information_halts : halts (handle_activation_information env self).
Proof. unfold handle_activation_information. ends_auto. Qed.

Lemma handle_installation_halts : halts (handle_installation env self).
Proof. unfold handle_installation. ends_auto. Qed.

(** One pass of the polling loop returns; when it asks for another pass, two
    seconds at least have gone by. *)
Lemma poll_completion_progress s :
  exists r s',
    poll_completion env self s = (Ret r, s') /\
    (r = None -> clock s + 2000 <= clock s').
Proof.
  unfold poll_completion.
  destruct (take_screenshot_returns env self "completion_check" s) as ([] & s1 & E1).
  pose proof (take_screenshot_emits env self "completion_check" s) as (e1 & _ & _ & C1).
  rewrite E1 in C1. cbn [final snd] in C1.
  destruct (click_with_win32gui_returns env "Finish" s1) as (finish & s2 & E2).
  pose proof (click_with_win32gui_emits env "Finish" s1) as (e2 & _ & _ & C2).
  rewrite E2 in C2. cbn [final snd] in C2.
  destruct (click_with_win32gui_returns env "Close" s2) as (close & s3 & E3).
  pose proof (click_with_win32gui_emits env "Close" s2) as (e3 & _ & _ & C3).
  rewrite E3 in C3. cbn [final snd] in C3.
  destruct finish.
  { exists (Some true), s2. split; [| discriminate].
    erewrite try_except_step; [reflexivity |].
    rewrite (bind_step _ _ _ _ _ E1), (bind_step _ _ _ _ _ E2). reflexivity. }
  destruct close.
  { exists (Some true), s3. split; [| discriminate].
    erewrite try_except_step; [reflexivity |].
    rewrite (bind_step _ _ _ _ _ E1), (bind_step _ _ _ _ _ E2).
    rewrite (bind_step _ _ _ _ _ E3). reflexivity. }
  exists None, (record env (Sleep 2000) 2000 s3). split.
  - erewrite try_except_step; [reflexivity |].
    rewrite (bind_step _ _ _ _ _ E1), (bind_step _ _ _ _ _ E2).
    rewrite (bind_step _ _ _ _ _ E3). reflexivity.
  - intros _. cbn [clock record]. lia.
Qed.

(** With fuel for the time left, the polling loop returns. *)
Lemma completion_loop_returns fuel :
  forall start_time s,
    completion_timeout - (clock s - start_time) <= 2000 * Z.of_nat fuel ->
    exists r s', completion_loop env self fuel start_time s = (Ret r, s').
Proof.
  induction fuel as [| fuel IH]; intros start_time s Hfuel.
  - cbn [completion_loop]. rewrite (bind_step get_clock _ s (clock s) s eq_refl).
    destruct (Z.ltb_spec (clock s - start_time) completion_timeout) as [Hlt | Hge]; [lia |].
    eexists _, _. reflexivity.
  - cbn [completion_loop]. rewrite (bind_step get_clock _ s (clock s) s eq_refl).
    destruct (Z.ltb_spec (clock s - start_time) completion_timeout) as [Hlt | Hge].
    + destruct (poll_completion_progress s) as (r & s1 & E1 & C1).
      rewrite (bind_step _ _ _ _ _ E1).
      destruct r as [b |]; [eexists _, _; reflexivity |].
      apply IH. specialize (C1 eq_refl). lia.
    + eexists _, _. reflexivity.
Qed.

(** The fuel of [wait_for_completion] is never used up: the step always
    returns a boolean. *)
Lemma wait_for_completion_returns : returns (wait_for_completion env self).
Proof.
  intros s. unfold wait_for_completion.
  destruct (dry_run self); [eexists _, _; reflexivity |].
  unfold try_except.
  rewrite (bind_step get_clock _ s (clock s) s eq_refl).
  destruct (completion_loop_returns completion_fuel (clock s) s) as (r & s1 & E).
  { unfold completion_timeout, completion_fuel. lia. }
  rewrite (bind_step _ _ _ _ _ E).
  destruct r as [b |]; [eexists _, _; reflexivity |].
  destruct (PYAUTOGUI_AVAILABLE env); [| eexists _, _; reflexivity].
  unfold bind, call, sleep.
  destruct (fails env (trace s1) (Hotkey "alt" "f")); cbn; eexists _, _; reflexivity.
Qed.

Lemma wizard_steps_halts : halts (wizard_steps env self).
Proof.
  pose proof launch_installer_returns. pose proof validate_prerequisites_halts.
  pose proof handle_welcome_screen_halts. pose proof handle_license_agreement_halts.
  pose proof handle_activation_information_halts. pose proof handle_installation_halts.
  pose proof wait_for_completion_returns.
  unfold wizard_steps. ends_auto.
Qed.

End StepsHalt.

(** ** Verification *)

Section Verification.

Variable env : Env.
Variable self : Installer.

Lemma is_tehtris_agent_returns proc : returns (is_tehtris_agent env proc).
Proof. unfold is_tehtris_agent. repeat ends_step. Qed.

Lemma scan_processes_halts procs : forall agents, halts (scan_processes env procs agents).
Proof.
  induction procs as [| proc procs IH]; intros agents; cbn [scan_processes].
  - ends_step.
  - destruct (proc_fault proc); [| apply IH | ends_step].
    destruct (contains "agent" (lower (proc_name proc))); [| apply IH].
    ends_step; [apply returns_halts, is_tehtris_agent_returns | apply IH].
Qed.

Lemma verify_installation_true s :
  exists s', verify_installation env self s = (Ret true, s').
Proof.
  unfold verify_installation. destruct (dry_run self); [eexists; reflexivity |].
  unfold try_except at 1.
  destruct (PSUTIL_AVAILABLE env).
  2:{ cbn. eexists; reflexivity. }
  rewrite (bind_step _ _ s tt s eq_refl).
  match goal with
  | |- context [bind (try_except ?body ?h) _ s] =>
      assert (R : returns (try_except body h))
  end.
  { ends_step; [| ends_step].
    ends_step; [ends_step |].
    ends_step; [ends_step |].
    ends_step; [apply scan_processes_halts | ends_step]. }
  destruct (R s) as (r & s' & E).
  rewrite (bind_step _ _ _ _ _ E).
  destruct r as [[| p agents] |]; cbn; eexists; reflexivity.
Qed.

End Verification.

(** The verdict of the run is the verdict of the steps before verification. *)
Lemma run_installation_verdict env self s :
  result (run_installation env self s) =
    match result (wizard_steps env self s) with
    | Ret ok => Ret ok
    | Raise _ => Ret false
    | OutOfFuel => OutOfFuel
    end.
Proof.
  unfold run_installation, try_finally, try_except, result.
  unfold bind at 1.
  destruct (wizard_steps env self s) as [[[|] | x |] s1]; cbn [fst negb].
  - destruct (verify_installation_true env self s1) as (s2 & E).
    rewrite (bind_step _ _ _ _ _ E). cbn.
    destruct (app s2); reflexivity.
  - cbn. destruct (app s1); reflexivity.
  - cbn. destruct (app s1); reflexivity.
  - cbn. destruct (app s1); reflexivity.
Qed.

(** C7: the verification step is advisory.  [verify_installation] returns
    True whatever the process check meets (dry run, psutil missing, the
    process listing or an entry raising, agent found or not);
    [run_installation] always returns a boolean, and it returns False only
    when one of the steps before verification returned False or raised. *)
Theorem verification_is_advisory :
  forall (env : Env) (self : Installer) (s : State),
    result (verify_installation env self s) = Ret true /\
    (exists ok, result (run_installation env self s) = Ret ok) /\
    (result (run_installation env self s) = Ret false <->
     result (wizard_steps env self s) = Ret false \/
     exists x, result (wizard_steps env self s) = Raise x).
Proof.
  intros env self s.
  pose proof (run_installation_verdict env self s) as V.
  pose proof (wizard_steps_halts env self s) as H.
  split; [| split].
  - destruct (verify_installation_true env self s) as (s' & E). rewrite E. reflexivity.
  - rewrite V. destruct (result (wizard_steps env self s)) as [ok | x |];
      [eauto | eauto | contradiction].
  - rewrite V. destruct (result (wizard_steps env self s)) as [ok | x |].
    + split; [intros E; left; exact E | intros [E | [y E]]; [exact E | discriminate E]].
    + split; [intros _; right; eauto | reflexivity].
    + contradiction.
Qed.

(** ** Retry *)

Lemma invocations_app l1 l2 : invocations (l1 ++ l2) = (invocations l1 + invocations l2)%nat.
Proof. unfold invocations. rewrite filter_app, length_app. reflexivity. Qed.

Lemma invocations_none l : Forall no_invoke l -> invocations l = 0%nat.
Proof.
  induction 1 as [| e l He _ IH]; [reflexivity |].
  unfold invocations in *. cbn. rewrite He. exact IH.
Qed.

Section RetryFacts.

Variable env : Env.
Variable self : Installer.
Context {A : Type}.
Variable operation : M A.

(** The operation does not itself go through the retry wrapper. *)
Hypothesis operation_emits : emits no_invoke operation.

Lemma retry_from_attempts remaining :
  forall attempt s,
    attempt + Z.of_nat remaining = max_retries self ->
    (1 <= remaining)%nat ->
    exists evs,
      trace (final (retry_from env self operation remaining attempt s)) = trace s ++ evs /\
      (1 <= invocations evs <= remaining)%nat /\
      (0 <= retry_delay self -> 0 <= attempt ->
       (forall s0, exists x, result (operation s0) = Raise x) ->
       invocations evs = remaining /\
       exists s_last x,
         operation s_last = (Raise x, final (retry_from env self operation remaining attempt s)) /\
         result (retry_from env self operation remaining attempt s) = Raise x).
Proof.
  induction remaining as [| k IH]; intros attempt s Hsum Hpos; [lia |].
  remember (retry_from env self operation (S k) attempt s) as r eqn:Er.
  cbn [retry_from] in Er. unfold try_except, bind, invoke, raise, ret, sleep in Er.
  destruct (operation_emits (record env Invoke 0 s)) as (e1 & T1 & F1 & _).
  pose proof (invocations_none _ F1) as N1.
  destruct (operation (record env Invoke 0 s)) as [[a | x |] s1] eqn:Eop;
    cbn [final snd trace record] in T1.
  - subst r. exists (Invoke :: e1). cbn [final snd].
    split; [rewrite T1, <- app_assoc; reflexivity |].
    change (invocations (Invoke :: e1)) with (S (invocations e1)). split; [lia |].
    intros _ _ Hall. destruct (Hall (record env Invoke 0 s)) as (x & Hx).
    rewrite Eop in Hx. discriminate Hx.
  - destruct (Z.eqb_spec attempt (max_retries self - 1)) as [Hlast | Hmore].
    + subst r. exists (Invoke :: e1). cbn [final snd result fst].
      split; [rewrite T1, <- app_assoc; reflexivity |].
      change (invocations (Invoke :: e1)) with (S (invocations e1)).
      assert (k = 0%nat) by lia. subst k. split; [lia |].
      intros _ _ _. split; [lia |]. exists (record env Invoke 0 s), x. auto.
    + assert (Hk : (1 <= k)%nat) by lia.
      destruct (Z.ltb_spec (retry_delay self * (attempt + 1)) 0) as [Hneg | Hok].
      * subst r. exists (Invoke :: e1). cbn [final snd].
        split; [rewrite T1, <- app_assoc; reflexivity |].
        change (invocations (Invoke :: e1)) with (S (invocations e1)). split; [lia |].
        intros Hd Ha _. nia.
      * subst r.
        match goal with
        | |- context [retry_from env self operation k (attempt + 1) ?s2] =>
            destruct (IH (attempt + 1) s2 ltac:(lia) Hk) as (evs & T & C & R)
        end.
        cbn [trace record] in T.
        exists (Invoke :: e1 ++ Sleep (retry_delay self * (attempt + 1)) :: evs).
        split; [rewrite T, T1; repeat rewrite <- app_assoc; reflexivity |].
        change (invocations (Invoke :: e1 ++ Sleep (retry_delay self * (attempt + 1)) :: evs))
          with (S (invocations (e1 ++ Sleep (retry_delay self * (attempt + 1)) :: evs))).
        rewrite invocations_app, N1.
        change (invocations (Sleep (retry_delay self * (attempt + 1)) :: evs))
          with (invocations evs).
        split; [lia |].
        intros Hd Ha Hall.
        destruct (R Hd ltac:(lia) Hall) as (Hc & s_last & y & Hy & Rr).
        split; [lia |]. exists s_last, y. auto.
  - subst r. exists (Invoke :: e1). cbn [final snd].
    split; [rewrite T1, <- app_assoc; reflexivity |].
    change (invocations (Invoke :: e1)) with (S (invocations e1)). split; [lia |].
    intros _ _ Hall. destruct (Hall (record env Invoke 0 s)) as (x & Hx).
    rewrite Eop in Hx. discriminate Hx.
Qed.

End RetryFacts.




(** ** Waiting for completion *)

Lemma probe_no_hotkey e : probe e -> no_hotkey e.
Proof. unfold probe, no_hotkey. destruct e; cbn; congruence. Qed.

Lemma click_event_no_hotkey env button_text e : click_event env button_text e -> no_hotkey e.
Proof. unfold no_hotkey. destruct e; cbn; tauto. Qed.

Section Completion.

Variable env : Env.
Variable self : Installer.

Hypothesis finish_never_resolves :
  forall s, result (click_with_win32gui env "Finish" s) = Ret false.
Hypothesis close_never_resolves :
  forall s, result (click_with_win32gui env "Close" s) = Ret false.

(** A pass that finds neither button sleeps two seconds and goes on. *)
Lemma poll_completion_goes_on s :
  exists s' evs,
    poll_completion env self s = (Ret None, s') /\
    trace s' = trace s ++ evs /\ Forall no_hotkey evs /\
    clock s + 2000 <= clock s'.
Proof.
  unfold poll_completion.
  destruct (take_screenshot_returns env self "completion_check" s) as ([] & s1 & E1).
  pose proof (take_screenshot_emits env self "completion_check" s) as (e1 & T1 & F1 & C1).
  rewrite E1 in T1, C1. cbn [final snd] in T1, C1.
  pose proof (finish_never_resolves s1) as R2.
  pose proof (click_with_win32gui_emits env "Finish" s1) as (e2 & T2 & F2 & C2).
  destruct (click_with_win32gui env "Finish" s1) as [r2 s2] eqn:E2.
  cbn [result final fst snd] in R2, T2, C2. subst r2.
  pose proof (close_never_resolves s2) as R3.
  pose proof (click_with_win32gui_emits env "Close" s2) as (e3 & T3 & F3 & C3).
  destruct (click_with_win32gui env "Close" s2) as [r3 s3] eqn:E3.
  cbn [result final fst snd] in R3, T3, C3. subst r3.
  exists (record env (Sleep 2000) 2000 s3), (e1 ++ e2 ++ e3 ++ [Sleep 2000]).
  split; [| split; [| split]].
  - erewrite try_except_step; [reflexivity |].
    rewrite (bind_step _ _ _ _ _ E1), (bind_step _ _ _ _ _ E2).
    rewrite (bind_step _ _ _ _ _ E3). reflexivity.
  - cbn [trace record]. rewrite T3, T2, T1. repeat rewrite <- app_assoc. reflexivity.
  - repeat (apply Forall_app; split).
    + eapply Forall_impl; [| exact F1]. apply probe_no_hotkey.
    + eapply Forall_impl; [| exact F2]. apply click_event_no_hotkey.
    + eapply Forall_impl; [| exact F3]. apply click_event_no_hotkey.
    + repeat constructor.
  - cbn [clock record]. lia.
Qed.

(** With enough fuel for the time left, the loop ends on its condition. *)
Lemma completion_loop_times_out fuel :
  forall start_time s,
    completion_timeout - (clock s - start_time) <= 2000 * Z.of_nat fuel ->
    exists s' evs,
      completion_loop env self fuel start_time s = (Ret None, s') /\
      trace s' = trace s ++ evs /\ Forall no_hotkey evs /\
      completion_timeout <= clock s' - start_time.
Proof.
  induction fuel as [| fuel IH]; intros start_time s Hfuel.
  - cbn [completion_loop]. rewrite (bind_step get_clock _ s (clock s) s eq_refl).
    destruct (Z.ltb_spec (clock s - start_time) completion_timeout) as [Hlt | Hge]; [lia |].
    exists s, []. rewrite app_nil_r. repeat split; [constructor | lia].
  - cbn [completion_loop]. rewrite (bind_step get_clock _ s (clock s) s eq_refl).
    destruct (Z.ltb_spec (clock s - start_time) completion_timeout) as [Hlt | Hge].
    + destruct (poll_completion_goes_on s) as (s1 & e1 & E1 & T1 & F1 & C1).
      rewrite (bind_step _ _ _ _ _ E1).
      destruct (IH start_time s1 ltac:(lia)) as (s2 & e2 & E2 & T2 & F2 & C2).
      exists s2, (e1 ++ e2). rewrite E2, T2, T1, app_assoc.
      repeat split; [apply Forall_app; split; assumption | lia].
    + exists s, []. rewrite app_nil_r. repeat split; [constructor | lia].
Qed.

End Completion.

Lemma filter_no_hotkey l : Forall no_hotkey l -> filter is_hotkey l = [].
Proof.
  induction 1 as [| e l He _ IH]; [reflexivity |].
  cbn. rewrite He. exact IH.
Qed.




(** ** Ampersands in the query *)

Lemma strip_amp_without_amp text : contains "&" text = false -> strip_amp text = text.
Proof.
  induction text as [| c text IH]; [reflexivity |].
  cbn [contains strip_amp]. intros H. apply orb_false_iff in H. destruct H as [Hp Hc].
  cbn [String.prefix] in Hp.
  destruct (Ascii.eqb_spec c "&"%char) as [-> | Hne].
  - destruct (ascii_dec "&" "&") as [_ | Hn]; [| congruence].
    destruct text; discriminate Hp.
  - rewrite (IH Hc). reflexivity.
Qed.

Lemma search_texts_with_amp text :
  contains "&" text = false ->
  search_texts ("&" ++ text) = rev (search_texts text).
Proof.
  intros H. unfold search_texts. rewrite H.
  assert (E : contains "&" ("&" ++ text) = true).
  { cbn [append contains String.prefix].
    destruct (ascii_dec "&" "&") as [_ | Hn]; [| congruence].
    destruct text; reflexivity. }
  rewrite E. cbn [strip_amp append Ascii.eqb Bool.eqb rev List.app].
  rewrite (strip_amp_without_amp _ H). reflexivity.
Qed.

Lemma find_pointwise {X} (f g : X -> bool) l :
  (forall x, f x = g x) -> find f l = find g l.
Proof.
  intros H. induction l as [| x l IH]; [reflexivity |].
  cbn. rewrite H, IH. reflexivity.
Qed.

Lemma button_matches_clean q1 q2 b :
  strip_amp q1 = strip_amp q2 -> button_matches q1 b = button_matches q2 b.
Proof. intros H. unfold button_matches. rewrite H. reflexivity. Qed.

Lemma click_in_windows_clean env q1 q2 ws s :
  strip_amp q1 = strip_amp q2 ->
  click_in_windows env q1 ws s = click_in_windows env q2 ws s.
Proof.
  intros H. revert s. induction ws as [| w ws IH]; intros s; [reflexivity |].
  cbn [click_in_windows].
  apply bind_ext; [| intros [|] s1; [reflexivity | apply IH]].
  intros s0. apply bind_ext; [reflexivity |].
  intros t s1.
  rewrite (find_pointwise _ _ _ (fun b => button_matches_clean q1 q2 b H)).
  reflexivity.
Qed.




(** ** The strategy chain *)

Lemma first_success_stops pre m post s s1 s2 :
  all_fail pre s s1 -> m s1 = (Ret true, s2) ->
  first_success (pre ++ m :: post) s = (Ret true, s2).
Proof.
  intros Hpre. revert m post s2.
  induction Hpre as [s | m0 rest s sa sb E _ IH]; intros m post s2 Hm;
    cbn [List.app first_success].
  - rewrite (bind_step _ _ _ _ _ Hm). reflexivity.
  - rewrite (bind_step _ _ _ _ _ E). apply IH. exact Hm.
Qed.

Lemma first_success_not_found chain s s' :
  first_success chain s = (Ret false, s') <-> all_fail chain s s'.
Proof.
  revert s. induction chain as [| m rest IH]; intros s; cbn [first_success].
  - split.
    + intros E. inversion E. constructor.
    + intros H. inversion H. reflexivity.
  - split.
    + unfold bind. destruct (m s) as [[[|] | x |] s1] eqn:E; try discriminate.
      intros H. econstructor; [exact E | apply IH; exact H].
    + intros H. inversion H as [| m0 rest0 s0 s1 s2 E Hrest]; subst.
      rewrite (bind_step _ _ _ _ _ E). apply IH. exact Hrest.
Qed.

Section Chain.

Variable env : Env.
Variable self : Installer.

Lemma smart_find_and_click_chain element_type text_options fallback_positions s :
  dry_run self = false ->
  smart_find_and_click env self element_type text_options fallback_positions s =
  first_success (smart_chain env self element_type text_options fallback_positions) s.
Proof.
  intros Hdry. unfold smart_find_and_click, smart_chain. rewrite Hdry.
  cbn [first_success].
  apply bind_ext; [reflexivity |]. intros [|] s1; [reflexivity |].
  apply bind_ext; [reflexivity |]. intros [|] s2; [reflexivity |].
  symmetry. apply bind_bool_eta.
Qed.

(** A failed pass over the fallback coordinates has clicked every one of
    them, in order. *)
Lemma click_fallback_positions_all_tried element_type positions :
  forall s s',
    click_fallback_positions env element_type positions s = (Ret false, s') ->
    trace s' =
      trace s ++ map (fun p => ClickCoordinates (fst p) (snd p)
                                 (element_type ++ " fallback position")%string) positions.
Proof.
  induction positions as [| [x y] ps IH]; intros s s' H; cbn [click_fallback_positions] in H.
  - inversion H. cbn. rewrite app_nil_r. reflexivity.
  - unfold click_coordinates, bind at 1 2 3, get_trace, call, ret in H.
    destruct (fails env (trace s) _); [discriminate H |].
    destruct (click_result env (trace s) x y).
    + unfold bind, sleep in H. cbn in H. discriminate H.
    + apply IH in H. rewrite H. cbn [trace record map fst snd].
      rewrite <- app_assoc. reflexivity.
Qed.

Lemma keyboard_shortcut_fails element_type s :
  result (keyboard_shortcut env element_type s) = Ret false <->
  PYAUTOGUI_AVAILABLE env = false \/ shortcut_key element_type = None.
Proof.
  unfold keyboard_shortcut.
  destruct (PYAUTOGUI_AVAILABLE env); [| cbn; tauto].
  destruct (shortcut_key element_type) as [k |]; [| cbn; tauto].
  unfold bind, call, sleep, result.
  destruct (fails env (trace s) (Hotkey "alt" k)); cbn;
    (split; [intros H; discriminate H | intros [H | H]; discriminate H]).
Qed.

End Chain.

(** C2: in dry-run mode [smart_find_and_click] consults no strategy and
    returns True.  Otherwise it returns False exactly when the OCR text
    search, then the pass over the fallback coordinates (which has then
    clicked every one of them), then the keyboard shortcut have each returned
    failure, in that order; the keyboard shortcut fails exactly when
    pyautogui is missing or the element type names no known button.  As soon
    as one of them succeeds the method returns True. *)
Theorem smart_find_and_click_not_found :
  forall (env : Env) (self : Installer) (element_type : string)
         (text_options : list string) (fallback_positions : list (Z * Z)) (s : State),
    (dry_run self = true ->
     smart_find_and_click env self element_type text_options fallback_positions s
       = (Ret true, s)) /\
    (dry_run self = false ->
     (forall s',
        smart_find_and_click env self element_type text_options fallback_positions s
          = (Ret false, s') <->
        exists s1 s2,
          ocr_text_search env self element_type text_options s = (Ret false, s1) /\
          click_fallback_positions env element_type fallback_positions s1 = (Ret false, s2) /\
          trace s2 =
            trace s1 ++ map (fun p => ClickCoordinates (fst p) (snd p)
                                        (element_type ++ " fallback position")%string)
                            fallback_positions /\
          keyboard_shortcut env element_type s2 = (Ret false, s') /\
          (PYAUTOGUI_AVAILABLE env = false \/ shortcut_key element_type = None)) /\
     (forall pre m post s1 s2,
        smart_chain env self element_type text_options fallback_positions = pre ++ m :: post ->
        all_fail pre s s1 -> m s1 = (Ret true, s2) ->
        smart_find_and_click env self element_type text_options fallback_positions s
          = (Ret true, s2))).
Proof.
  intros env self element_type text_options fallback_positions s. split.
  { intros Hdry. unfold smart_find_and_click. rewrite Hdry. reflexivity. }
  intros Hdry. split.
  - intros s'. rewrite (smart_find_and_click_chain env self _ _ _ s Hdry).
    rewrite first_success_not_found. unfold smart_chain. split.
    + intros H.
      inversion H as [| m1 r1 sa s1 sb E1 H1]; subst.
      inversion H1 as [| m2 r2 sa s2 sb E2 H2]; subst.
      inversion H2 as [| m3 r3 sa s3 sb E3 H3]; subst.
      inversion H3; subst.
      exists s1, s2. repeat split; try assumption.
      * exact (click_fallback_positions_all_tried env _ _ _ _ E2).
      * apply (keyboard_shortcut_fails env element_type s2). rewrite E3. reflexivity.
    + intros (s1 & s2 & E1 & E2 & _ & E3 & _).
      repeat (econstructor; [eassumption |]). constructor.
  - intros pre m post s1 s2 Hchain Hpre Hm.
    rewrite (smart_find_and_click_chain env self _ _ _ s Hdry), Hchain.
    eapply first_success_stops; eassumption.
Qed.

(** C2 on an empty desktop: a query for a checkbox, without fallback
    coordinates as at every call site, finds nothing after two screenshots. *)
Lemma smart_find_and_click_not_found_witness :
  smart_find_and_click (empty_desktop true) (init "edr.msi" false)
    "License checkbox" ["I agree"] [] start
  = (Ret false, mkState [Screenshot; ImageToData; Screenshot; ImageToData] 0 false).
Proof.
  pose proof (proj2 (smart_find_and_click_not_found (empty_desktop true)
                       (init "edr.msi" false) "License checkbox" ["I agree"] [] start)
                eq_refl) as [H _].
  apply H. eexists _, _.
  split; [reflexivity |]. split; [reflexivity |]. split; [reflexivity |].
  split; [reflexivity |]. right. reflexivity.
Defined.

(** ** The priority order *)

Section Priority.

Variable env : Env.
Variable self : Installer.

Lemma handle_welcome_screen_emits : emits chain_event (handle_welcome_screen env self).
Proof.
  unfold handle_welcome_screen.
  emits_step; [emits_step |].
  emits_step; [apply probe_chain_event, take_screenshot_emits |].
  emits_step; [apply probe_chain_event, print_window_text_emits |].
  emits_step; [apply click_with_win32gui_extends |].
  emits_step; [emits_step | apply smart_find_and_click_emits].
Qed.

Lemma handle_installation_emits : emits chain_event (handle_installation env self).
Proof.
  unfold handle_installation.
  emits_step; [emits_step |].
  emits_step; [apply probe_chain_event, take_screenshot_emits |].
  emits_step; [apply click_with_win32gui_extends |].
  emits_step; [emits_step | apply smart_find_and_click_emits].
Qed.

Lemma emits_no_contours {A} (m : M A) s :
  emits chain_event m ->
  exists evs, trace (final (m s)) = trace s ++ evs /\ ~ In FindContours evs.
Proof.
  intros H. destruct (H s) as (evs & T & F & _). exists evs. split; [exact T |].
  intros Hin. rewrite Forall_forall in F. exact (F _ Hin eq_refl).
Qed.

End Priority.




(** * Further properties of the methods *)

(** ** What a successful native call has done *)

(** Reading back a computation that has returned. *)
Lemma bind_ret_inv {A B} (m : M A) (f : A -> M B) s b s' :
  bind m f s = (Ret b, s') ->
  exists a s1, m s = (Ret a, s1) /\ f a s1 = (Ret b, s').
Proof.
  unfold bind. destruct (m s) as [[a | x |] s1]; intros H; try discriminate H. eauto.
Qed.

Lemma try_except_true_inv (m : M bool) s s' :
  try_except m (fun _ => ret false) s = (Ret true, s') -> m s = (Ret true, s').
Proof.
  unfold try_except. destruct (m s) as [[b | x |] s1]; intros H; try discriminate H; exact H.
Qed.

Lemma call_ret_inv env e s u s' :
  call env e s = (Ret u, s') ->
  s' = record env e 0 s /\ fails env (trace s) e = false.
Proof.
  unfold call. destruct (fails env (trace s) e); intros H; inversion H. auto.
Qed.

Lemma sleep_ret_inv env ms s u s' :
  sleep env ms s = (Ret u, s') -> s' = record env (Sleep ms) ms s /\ 0 <= ms.
Proof.
  unfold sleep. destruct (Z.ltb_spec ms 0) as [Hneg | Hok]; intros H; inversion H. auto.
Qed.

Section NativeSuccess.

Variable env : Env.

Lemma click_in_windows_true button_text ws :
  forall s s',
    click_in_windows env button_text ws s = (Ret true, s') ->
    exists t h,
      trace s' = t ++ [PostMessage h BM_CLICK] /\
      fails env t (PostMessage h BM_CLICK) = false.
Proof.
  induction ws as [| w ws IH]; intros s s' H; cbn [click_in_windows] in H.
  - discriminate H.
  - unfold bind, try_except, get_trace, call, ret in H.
    destruct (fails env (trace s) (EnumChildWindows w)); cbn in H; [eapply IH; exact H |].
    destruct (find (button_matches button_text) (child_windows env (trace s) w)) as [b |];
      [| eapply IH; exact H].
    match type of H with
    | context [fails env ?t ?e] => destruct (fails env t e) eqn:Hf; cbn in H
    end.
    + eapply IH; exact H.
    + inversion H; subst s'. cbn in *. eauto.
Qed.

Lemma fill_edit_control_done h value s s' :
  fill_edit_control env h value s = (Ret tt, s') ->
  exists t,
    trace s' = t ++ [SendMessage h WM_SETTEXT ""; Sleep 100; SendMessage h WM_SETTEXT value;
                     Sleep 100; SendMessage h WM_KEYDOWN "VK_TAB";
                     SendMessage h WM_KEYUP "VK_TAB"].
Proof.
  unfold fill_edit_control. intros H.
  apply bind_ret_inv in H. destruct H as (t0 & s0 & _ & H).
  apply bind_ret_inv in H. destruct H as ([] & s1 & _ & H).
  destruct (window_rect env t0 h) as [[[r0 r1] r2] r3].
  apply bind_ret_inv in H. destruct H as ([] & s2 & _ & H).
  apply bind_ret_inv in H. destruct H as ([] & s3 & E3 & H).
  apply bind_ret_inv in H. destruct H as ([] & s4 & E4 & H).
  apply bind_ret_inv in H. destruct H as ([] & s5 & E5 & H).
  apply bind_ret_inv in H. destruct H as ([] & s6 & E6 & H).
  apply bind_ret_inv in H. destruct H as ([] & s7 & E7 & H).
  apply call_ret_inv in E3. apply sleep_ret_inv in E4. apply call_ret_inv in E5.
  apply sleep_ret_inv in E6. apply call_ret_inv in E7. apply call_ret_inv in H.
  destruct E3 as [-> _]. destruct E4 as [-> _]. destruct E5 as [-> _].
  destruct E6 as [-> _]. destruct E7 as [-> _]. destruct H as [-> _].
  exists (trace s2). cbn [trace record]. repeat rewrite <- app_assoc. reflexivity.
Qed.

Lemma fill_in_windows_true field_label value ws :
  forall s s',
    fill_in_windows env field_label value ws s = (Ret true, s') ->
    exists t h t0 parent,
      nth_error (edit_controls env t0 parent) (field_index field_label) = Some h /\
      trace s' = t ++ [SendMessage h WM_SETTEXT ""; Sleep 100;
                       SendMessage h WM_SETTEXT value; Sleep 100;
                       SendMessage h WM_KEYDOWN "VK_TAB"; SendMessage h WM_KEYUP "VK_TAB"].
Proof.
  induction ws as [| w ws IH]; intros s s' H; cbn [fill_in_windows] in H.
  - discriminate H.
  - apply bind_ret_inv in H. destruct H as ([|] & s1 & E1 & H); [| eapply IH; exact H].
    inversion H; subst s'. clear H.
    apply try_except_true_inv in E1.
    apply bind_ret_inv in E1. destruct E1 as (t0 & s0 & E0 & E1).
    inversion E0; subst t0 s0. clear E0.
    apply bind_ret_inv in E1. destruct E1 as ([] & s2 & _ & E1).
    destruct (edit_controls env (trace s) w) as [| c cs] eqn:Ec; [discriminate E1 |].
    destruct (nth_error (c :: cs) (field_index field_label)) as [h |] eqn:En;
      [| discriminate E1].
    apply bind_ret_inv in E1. destruct E1 as ([] & s3 & E3 & E1).
    inversion E1; subst s3. clear E1.
    destruct (fill_edit_control_done h value s2 s1 E3) as (t & T).
    exists t, h, (trace s), w. rewrite Ec. auto.
Qed.

End NativeSuccess.

(** X1: [click_with_win32gui] never raises.  When it returns True, the last
    call it made is a BM_CLICK that was posted without error; when win32gui
    cannot be imported it returns False without any call. *)
Theorem click_with_win32gui_outcome :
  forall (env : Env) (button_text : string) (s : State),
    exists b s',
      click_with_win32gui env button_text s = (Ret b, s') /\
      (b = true ->
       exists t h,
         trace s' = t ++ [PostMessage h BM_CLICK] /\
         fails env t (PostMessage h BM_CLICK) = false) /\
      (WIN32_AVAILABLE env = false -> b = false /\ s' = s).
Proof.
  intros env button_text s.
  destruct (click_with_win32gui_returns env button_text s) as (b & s' & E).
  exists b, s'. split; [exact E |]. split.
  - intros ->. unfold click_with_win32gui in E.
    apply try_except_true_inv in E.
    apply bind_ret_inv in E. destruct E as ([] & s1 & _ & E).
    apply bind_ret_inv in E. destruct E as (ws & s2 & _ & E).
    destruct ws as [| w ws]; [discriminate E |].
    eapply click_in_windows_true; exact E.
  - intros Hw. unfold click_with_win32gui, import_win32, try_except, bind in E.
    rewrite Hw in E. cbn in E. inversion E. auto.
Qed.


(** ** The screen strategies, for any class of events *)

Section ScreenEmits.

Variable env : Env.
Variable self : Installer.
Variable P : Event -> Prop.

Hypothesis P_probe : forall e, is_probe e = true -> P e.
Hypothesis P_click : forall x y what, P (ClickCoordinates x y what).
Hypothesis P_hotkey : forall k1 k2, P (Hotkey k1 k2).
Hypothesis P_write : forall text, P (Write text).
Hypothesis P_sleep : forall ms, P (Sleep ms).

Lemma probe_in_class {A} (m : M A) : emits probe m -> emits P m.
Proof. apply emits_weaken. exact P_probe. Qed.

Lemma click_coordinates_in_class x y what : emits P (click_coordinates env x y what).
Proof. unfold click_coordinates. repeat (emits_step; auto). Qed.

Lemma click_search_texts_in_class element_type texts :
  emits P (click_search_texts env self element_type texts).
Proof.
  induction texts as [| t texts IH]; cbn [click_search_texts]; [emits_step |].
  emits_step; [apply probe_in_class, find_text_on_screen_emits |].
  emits_step; [| exact IH].
  emits_step.
  emits_step; [apply click_coordinates_in_class |].
  emits_step; [emits_step | exact IH].
Qed.

Lemma click_text_options_in_class element_type text_options :
  emits P (click_text_options env self element_type text_options).
Proof.
  induction text_options as [| t opts IH]; cbn [click_text_options]; [emits_step |].
  emits_step; [apply click_search_texts_in_class |].
  emits_step; [emits_step | exact IH].
Qed.

Lemma click_fallback_positions_in_class element_type positions :
  emits P (click_fallback_positions env element_type positions).
Proof.
  induction positions as [| [x y] ps IH]; cbn [click_fallback_positions]; [emits_step |].
  emits_step; [apply click_coordinates_in_class |].
  emits_step; [repeat (emits_step; auto) | exact IH].
Qed.

Lemma smart_find_and_click_in_class element_type text_options fallback_positions :
  emits P (smart_find_and_click env self element_type text_options fallback_positions).
Proof.
  unfold smart_find_and_click, ocr_text_search, keyboard_shortcut.
  emits_step; [emits_step |].
  emits_step; [emits_step; [apply click_text_options_in_class | emits_step] |].
  emits_step; [emits_step |].
  emits_step; [apply click_fallback_positions_in_class |].
  emits_step; [emits_step |].
  repeat (emits_step; auto).
Qed.

Lemma find_input_field_by_label_in_class label :
  emits P (find_input_field_by_label env self label).
Proof.
  unfold find_input_field_by_label.
  emits_step; [emits_step |].
  emits_step; [| emits_step].
  emits_step; [apply probe_in_class, find_text_on_screen_emits |].
  repeat emits_step.
Qed.

Lemma type_value_in_class value : emits P (type_value env value).
Proof. unfold type_value. repeat (emits_step; auto). Qed.

Lemma fill_by_labels_in_class field_name value labels :
  emits P (fill_by_labels env self field_name value labels).
Proof.
  induction labels as [| l labels IH]; cbn [fill_by_labels]; [emits_step |].
  emits_step; [apply find_input_field_by_label_in_class |].
  emits_step; [| emits_step; [emits_step | exact IH]].
  emits_step; [| emits_step].
  emits_step.
  emits_step; [apply click_coordinates_in_class |].
  emits_step; [apply type_value_in_class | emits_step].
Qed.

Lemma fill_by_positions_in_class field_name value positions :
  emits P (fill_by_positions env field_name value positions).
Proof.
  induction positions as [| [x y] ps IH]; cbn [fill_by_positions]; [emits_step |].
  emits_step; [apply click_coordinates_in_class |].
  emits_step; [emits_step; [apply type_value_in_class | emits_step] |].
  emits_step; [emits_step | exact IH].
Qed.

Lemma smart_fill_field_in_class field_name value labels positions :
  emits P (smart_fill_field env self field_name value labels positions).
Proof.
  unfold smart_fill_field.
  emits_step; [emits_step |].
  emits_step; [apply fill_by_labels_in_class |].
  emits_step; [emits_step | apply fill_by_positions_in_class].
Qed.

End ScreenEmits.

(** ** The wizard steps and the keyboard shortcut *)

Lemma fill_event_no_post env field_label value e :
  fill_event env field_label value e -> no_post e.
Proof.
  intros [-> | [[title ->] | [[parent ->] | (t & parent & h & Hn & He)]]] h0 m0;
    try discriminate.
  destruct He as [-> | [(x & y & ->) | [[ms ->] | [-> | [-> | [-> | ->]]]]]]; discriminate.
Qed.

Lemma probe_no_post e : probe e -> no_post e.
Proof. unfold probe. intros H h m ->. discriminate H. Qed.

(** X3: in the activation step, unless all three native fills returned True
    no message is posted to any control: the native click on Next is only
    attempted after three successful fills. *)
Theorem native_next_needs_three_fills :
  forall (env : Env) (self : Installer) (s : State),
    dry_run self = false ->
    let s0 := final ((take_screenshot env self "activation_information" ;;
                      print_window_text env) s) in
    let f1 := fill_field_with_win32gui env "server" (server_address self) s0 in
    let f2 := fill_field_with_win32gui env "tag" (tag self) (final f1) in
    let f3 := fill_field_with_win32gui env "license" (license_key self) (final f2) in
    ~ (result f1 = Ret true /\ result f2 = Ret true /\ result f3 = Ret true) ->
    exists evs,
      trace (final (handle_activation_information env self s)) = trace s ++ evs /\
      Forall no_post evs.
Proof.
  intros env self s Hdry. cbv zeta.
  destruct (take_screenshot_returns env self "activation_information" s) as ([] & sa & Ea).
  destruct (print_window_text_returns env sa) as ([] & s0 & Eb).
  assert (Es0 : (take_screenshot env self "activation_information" ;;
                 print_window_text env) s = (Ret tt, s0)).
  { rewrite (bind_step _ _ _ _ _ Ea). exact Eb. }
  rewrite Es0. cbn [final snd].
  unfold handle_activation_information. rewrite Hdry.
  rewrite (bind_step _ _ _ _ _ Ea), (bind_step _ _ _ _ _ Eb).
  destruct (fill_field_with_win32gui_returns env "server" (server_address self) s0)
    as (r1 & s1 & E1).
  rewrite E1. cbn [final snd result fst].
  destruct (fill_field_with_win32gui_returns env "tag" (tag self) s1) as (r2 & s2 & E2).
  rewrite E2. cbn [final snd result fst].
  destruct (fill_field_with_win32gui_returns env "license" (license_key self) s2)
    as (r3 & s3 & E3).
  rewrite E3. cbn [final snd result fst].
  intros Hnot.
  rewrite (bind_step _ _ _ _ _ E1), (bind_step _ _ _ _ _ E2), (bind_step _ _ _ _ _ E3).
  assert (Hs : true && r1 && r2 && r3 = false).
  { destruct r1, r2, r3; try reflexivity. exfalso. apply Hnot. auto. }
  rewrite Hs.
  pose proof (take_screenshot_emits env self "activation_information" s) as (pa & Ta & Fa & _).
  pose proof (print_window_text_emits env sa) as (pb & Tb & Fb & _).
  pose proof (fill_field_with_win32gui_emits env "server" (server_address self) s0)
    as (e1 & T1 & F1 & _).
  pose proof (fill_field_with_win32gui_emits env "tag" (tag self) s1) as (e2 & T2 & F2 & _).
  pose proof (fill_field_with_win32gui_emits env "license" (license_key self) s2)
    as (e3 & T3 & F3 & _).
  rewrite Ea in Ta. rewrite Eb in Tb. rewrite E1 in T1. rewrite E2 in T2. rewrite E3 in T3.
  cbn [final snd] in Ta, Tb, T1, T2, T3.
  assert (Hclass : forall e, is_probe e = true -> no_post e) by exact probe_no_post.
  assert (Hrest : emits no_post
            (done <- ret false ;;
             if done then ret true
             else
               smart_fill_field env self "Server address" (server_address self)
                 ["Server address"; "Adresse serveur"; "Server"; "Serveur"] [] ;;
               smart_fill_field env self "Tag" (tag self) ["Tag"; "Étiquette"] [] ;;
               smart_fill_field env self "License key" (license_key self)
                 ["License key"; "Clé de licence"; "License"; "Licence"] [] ;;
               sleep env 1000 ;;
               smart_find_and_click env self "Next button (activation screen)"
                 next_text_options [])).
  { emits_step; [emits_step |].
    emits_step; [emits_step |].
    repeat (emits_step;
            [first [apply smart_fill_field_in_class; try exact Hclass; discriminate
                   | emits_step; discriminate] |]).
    apply smart_find_and_click_in_class; try exact Hclass; discriminate. }
  destruct (Hrest s3) as (post & Tp & Fp & _).
  exists (pa ++ pb ++ e1 ++ e2 ++ e3 ++ post). split.
  - rewrite Tp, T3, T2, T1, Tb, Ta. repeat rewrite <- app_assoc. reflexivity.
  - repeat (apply Forall_app; split); try exact Fp;
      (eapply Forall_impl; [| eassumption]); intros e He;
      first [apply probe_no_post; exact He | eapply fill_event_no_post; exact He].
Qed.

(** X3 on a window with a single edit control: the tag has no control, and
    the step goes on through the screen without posting anything. *)
Lemma native_next_needs_three_fills_witness :
  exists evs,
    trace (final (handle_activation_information one_edit_env (init "edr.msi" false) start))
      = trace start ++ evs /\
    Forall no_post evs.
Proof.
  apply (native_next_needs_three_fills one_edit_env (init "edr.msi" false) start eq_refl).
  intros (_ & H & _). vm_compute in H. discriminate H.
Defined.

Lemma never_false_bind {A} (m : M A) (f : A -> M bool) :
  (forall a, never_false (f a)) -> never_false (bind m f).
Proof.
  intros Hf s. unfold bind.
  destruct (m s) as [[a | x |] s1]; [apply Hf | discriminate | discriminate].
Qed.

Lemma never_false_ret_true : never_false (ret true).
Proof. intros s. discriminate. Qed.

Lemma smart_find_and_click_never_false env self element_type text_options fallback_positions :
  PYAUTOGUI_AVAILABLE env = true -> shortcut_key element_type <> None ->
  never_false (smart_find_and_click env self element_type text_options fallback_positions).
Proof.
  intros Hpy Hkey s Hres.
  destruct (dry_run self) eqn:Hdry.
  - unfold smart_find_and_click in Hres. rewrite Hdry in Hres. discriminate Hres.
  - destruct (smart_find_and_click env self element_type text_options fallback_positions s)
      as [r s'] eqn:E.
    cbn in Hres. subst r.
    rewrite (smart_find_and_click_chain env self _ _ _ s Hdry) in E.
    apply first_success_not_found in E. unfold smart_chain in E.
    inversion E as [| m1 r1 sa s1 sb E1 H1]; subst.
    inversion H1 as [| m2 r2 sa s2 sb E2 H2]; subst.
    inversion H2 as [| m3 r3 sa s3 sb E3 H3]; subst.
    assert (K : result (keyboard_shortcut env element_type s2) = Ret false)
      by (rewrite E3; reflexivity).
    apply keyboard_shortcut_fails in K. destruct K as [K | K]; congruence.
Qed.

(** X4: with pyautogui at hand, none of the four screen-handling steps ever
    returns False: each ends in the keyboard shortcut, which reports success
    without looking at the screen.  A step then only fails by an exception. *)
Theorem steps_never_return_false_with_pyautogui :
  forall (env : Env) (self : Installer) (s : State),
    PYAUTOGUI_AVAILABLE env = true ->
    result (handle_welcome_screen env self s) <> Ret false /\
    result (handle_license_agreement env self s) <> Ret false /\
    result (handle_activation_information env self s) <> Ret false /\
    result (handle_installation env self s) <> Ret false.
Proof.
  intros env self s Hpy.
  assert (Hnext : forall what, shortcut_key ("Next button (" ++ what) <> None).
  { intros what. vm_compute. discriminate. }
  assert (K : forall et opts fb, shortcut_key et <> None ->
                never_false (smart_find_and_click env self et opts fb)).
  { intros. apply smart_find_and_click_never_false; assumption. }
  repeat split.
  - revert s. change (never_false (handle_welcome_screen env self)).
    unfold handle_welcome_screen.
    destruct (dry_run self); [apply never_false_ret_true |].
    repeat (apply never_false_bind; intros ?).
    match goal with |- never_false (if ?b then _ else _) => destruct b end;
      [apply never_false_ret_true | apply K, (Hnext "welcome screen)")].
  - revert s. change (never_false (handle_license_agreement env self)).
    unfold handle_license_agreement.
    destruct (dry_run self); [apply never_false_ret_true |].
    repeat (apply never_false_bind; intros ?).
    match goal with |- never_false (if ?b then _ else _) => destruct b end;
      [apply never_false_ret_true |].
    repeat (apply never_false_bind; intros ?).
    apply K, (Hnext "license screen)").
  - revert s. change (never_false (handle_activation_information env self)).
    unfold handle_activation_information.
    destruct (dry_run self); [apply never_false_ret_true |].
    cbv zeta.
    repeat (apply never_false_bind; intros ?).
    match goal with |- never_false (if ?b then _ else _) => destruct b end;
      [apply never_false_ret_true |].
    repeat (apply never_false_bind; intros ?).
    apply K, (Hnext "activation screen)").
  - revert s. change (never_false (handle_installation env self)).
    unfold handle_installation.
    destruct (dry_run self); [apply never_false_ret_true |].
    repeat (apply never_false_bind; intros ?).
    match goal with |- never_false (if ?b then _ else _) => destruct b end;
      [apply never_false_ret_true | apply K; vm_compute; discriminate].
Qed.

(** X4 on an empty desktop: nothing is found, yet every step reports
    success after its shortcut. *)
Lemma steps_never_return_false_witness :
  (result (handle_welcome_screen (empty_desktop true) (init "edr.msi" false) start)
     <> Ret false /\
   result (handle_license_agreement (empty_desktop true) (init "edr.msi" false) start)
     <> Ret false /\
   result (handle_activation_information (empty_desktop true) (init "edr.msi" false) start)
     <> Ret false /\
   result (handle_installation (empty_desktop true) (init "edr.msi" false) start)
     <> Ret false) /\
  result (handle_welcome_screen (empty_desktop true) (init "edr.msi" false) start)
    = Ret true /\
  filter is_actuation
    (trace (final (handle_welcome_screen (empty_desktop true) (init "edr.msi" false) start)))
    = [Hotkey "alt" "n"].
Proof.
  split.
  - apply (steps_never_return_false_with_pyautogui (empty_desktop true)
             (init "edr.msi" false) start).
    reflexivity.
  - vm_compute. split; reflexivity.
Defined.

Section WithoutPyautogui.

Variable env : Env.
Variable self : Installer.

Hypothesis no_pyautogui : PYAUTOGUI_AVAILABLE env = false.
Hypothesis not_dry : dry_run self = false.

Lemma smart_find_and_click_idle element_type text_options s :
  smart_find_and_click env self element_type text_options [] s = (Ret false, s).
Proof.
  unfold smart_find_and_click, ocr_text_search, keyboard_shortcut.
  rewrite not_dry, no_pyautogui. reflexivity.
Qed.

Lemma fill_by_labels_idle field_name value labels s :
  fill_by_labels env self field_name value labels s = (Ret false, s).
Proof.
  induction labels as [| l labels IH]; [reflexivity |].
  cbn [fill_by_labels]. unfold find_input_field_by_label.
  rewrite no_pyautogui. cbn. exact IH.
Qed.

Lemma smart_fill_field_idle field_name value labels s :
  smart_fill_field env self field_name value labels [] s = (Ret false, s).
Proof.
  unfold smart_fill_field. rewrite not_dry.
  rewrite (bind_step _ _ _ _ _ (fill_by_labels_idle field_name value labels s)).
  reflexivity.
Qed.

Lemma handle_installation_is_native s :
  handle_installation env self s = click_with_win32gui env "Install" s.
Proof.
  unfold handle_installation, take_screenshot. rewrite not_dry, no_pyautogui.
  cbn [negb orb].
  rewrite (bind_step _ _ s tt s eq_refl).
  unfold bind.
  destruct (click_with_win32gui env "Install" s) as [[[|] | x |] s1]; try reflexivity.
  apply smart_find_and_click_idle.
Qed.

End WithoutPyautogui.

(** X5: without pyautogui (and outside dry-run mode) the screen strategies do
    nothing: [smart_find_and_click] and [smart_fill_field], called without
    fallback coordinates as the steps call them, return False and leave the
    state untouched, and [handle_installation] is exactly the native click on
    "Install". *)
Theorem screen_strategies_need_pyautogui :
  forall (env : Env) (self : Installer) (s : State),
    PYAUTOGUI_AVAILABLE env = false ->
    dry_run self = false ->
    (forall element_type text_options,
       smart_find_and_click env self element_type text_options [] s = (Ret false, s)) /\
    (forall field_name value labels,
       smart_fill_field env self field_name value labels [] s = (Ret false, s)) /\
    handle_installation env self s = click_with_win32gui env "Install" s.
Proof.
  intros env self s Hpy Hdry. repeat split; intros.
  - apply smart_find_and_click_idle; assumption.
  - apply smart_fill_field_idle; assumption.
  - apply handle_installation_is_native; assumption.
Qed.

(** X5 on a desktop without installer window. *)
Lemma screen_strategies_need_pyautogui_witness :
  (forall element_type text_options,
     smart_find_and_click (empty_desktop false) (init "edr.msi" false)
       element_type text_options [] start = (Ret false, start)) /\
  (forall field_name value labels,
     smart_fill_field (empty_desktop false) (init "edr.msi" false)
       field_name value labels [] start = (Ret false, start)) /\
  handle_installation (empty_desktop false) (init "edr.msi" false) start =
    click_with_win32gui (empty_desktop false) "Install" start.
Proof.
  apply (screen_strategies_need_pyautogui (empty_desktop false) (init "edr.msi" false) start);
    reflexivity.
Defined.

(** ** Launching the installer *)

(** A computation that always returns, seen with what it adds. *)
Lemma returns_emits {A} (P : Event -> Prop) (m : M A) :
  returns m -> emits P m ->
  forall s, exists a s' evs,
    m s = (Ret a, s') /\ trace s' = trace s ++ evs /\ Forall P evs /\ clock s <= clock s'.
Proof.
  intros Hr He s. destruct (Hr s) as (a & s' & E).
  destruct (He s) as (evs & T & F & C). rewrite E in T, C. cbn in T, C.
  exists a, s', evs. auto.
Qed.

Lemma probe_passive e : probe e -> passive e.
Proof. unfold probe, passive. destruct e; cbn; congruence. Qed.

Section Launch.

Variable env : Env.
Variable self : Installer.

Lemma minimize_all_windows_returns : returns (minimize_all_windows env self).
Proof. unfold minimize_all_windows. repeat ends_step. Qed.

Lemma minimize_all_windows_emits : emits minimizing (minimize_all_windows env self).
Proof.
  unfold minimize_all_windows.
  repeat (emits_step; try (now right); try (now left)).
Qed.

Lemma after_popen_emits : emits passive (after_popen env self).
Proof.
  unfold after_popen.
  emits_step; [emits_step; reflexivity |].
  emits_step; [eapply emits_weaken; [apply probe_passive | apply take_screenshot_emits] |].
  emits_step; [| emits_step].
  emits_step; [emits_step; reflexivity |].
  emits_step; [emits_step |].
  emits_step; [eapply emits_weaken; [apply probe_passive | apply print_window_text_emits] |].
  emits_step.
Qed.

Lemma after_popen_true s : exists s', after_popen env self s = (Ret true, s').
Proof.
  unfold after_popen.
  rewrite (bind_step (sleep env 5000) _ s tt (record env (Sleep 5000) 5000 s) eq_refl).
  destruct (take_screenshot_returns env self "after_launch" (record env (Sleep 5000) 5000 s))
    as ([] & s2 & E2).
  rewrite (bind_step _ _ _ _ _ E2).
  unfold try_except, bind at 1. unfold call.
  destruct (fails env (trace s2) Connect); [eexists; reflexivity |].
  unfold bind at 1. cbn [set_app].
  destruct (print_window_text_returns env
              (mkState (trace (record env Connect 0 s2)) (clock (record env Connect 0 s2)) true))
    as ([] & s3 & E3).
  rewrite (bind_step _ _ _ _ _ E3). eexists; reflexivity.
Qed.

Lemma launch_installer_after_popen s :
  dry_run self = false ->
  launch_installer env self s =
  try_except
    (minimize_all_windows env self ;;
     take_screenshot env self "before_launch" ;;
     call env (Popen (msiexec_command self)) ;;
     after_popen env self)
    (fun _ => ret false) s.
Proof. intros Hdry. unfold launch_installer. rewrite Hdry. reflexivity. Qed.

(** Up to the start of msiexec: the desktop is minimized and a screenshot
    taken, whatever follows. *)
Lemma before_popen_outcome {A} (k : M A) s :
  dry_run self = false ->
  exists s2 pre,
    trace s2 = trace s ++ pre /\ Forall minimizing pre /\ app s2 = app s /\
    (minimize_all_windows env self ;; take_screenshot env self "before_launch" ;; k) s = k s2.
Proof.
  intros Hdry.
  destruct (returns_emits minimizing _ minimize_all_windows_returns
              minimize_all_windows_emits s)
    as ([] & s1 & e1 & E1 & T1 & F1 & C1).
  destruct (returns_emits minimizing _ (take_screenshot_returns env self "before_launch")
              (emits_weaken probe minimizing _
                 (fun e H => or_introl (probe_passive e H))
                 (take_screenshot_emits env self "before_launch")) s1)
    as ([] & s2 & e2 & E2 & T2 & F2 & C2).
  assert (A1 : app s1 = app s).
  { revert E1. unfold minimize_all_windows. rewrite Hdry.
    destruct (PYAUTOGUI_AVAILABLE env); [| intros [= <-]; reflexivity].
    unfold try_except, bind, call, sleep, ret.
    destruct (fails env (trace s) (Hotkey "win" "d")); cbn; intros [= <-]; reflexivity. }
  assert (A2 : app s2 = app s1).
  { revert E2. unfold take_screenshot.
    destruct (negb (PYAUTOGUI_AVAILABLE env) || dry_run self); [intros [= <-]; reflexivity |].
    unfold try_except, bind, call, ret.
    destruct (fails env (trace s1) Screenshot); cbn; [intros [= <-]; reflexivity |].
    destruct (fails env _ (SaveScreenshot "before_launch")); cbn; intros [= <-]; reflexivity. }
  exists s2, (e1 ++ e2). split; [rewrite T2, T1, app_assoc; reflexivity |].
  split; [apply Forall_app; split; assumption |].
  split; [congruence |].
  rewrite (bind_step _ _ _ _ _ E1), (bind_step _ _ _ _ _ E2). reflexivity.
Qed.

End Launch.

(** X6: outside dry-run mode [launch_installer] never raises and starts
    msiexec exactly once; before that nothing acts on the desktop but the
    Win+D keystroke, after it nothing acts at all.  The method returns False
    exactly when the Popen call itself raised, and then stops there; a failed
    pywinauto connection does not change the verdict. *)
Theorem launch_installer_outcome :
  forall (env : Env) (self : Installer) (s : State),
    dry_run self = false ->
    exists pre post b s',
      launch_installer env self s = (Ret b, s') /\
      trace s' = (trace s ++ pre) ++ Popen (msiexec_command self) :: post /\
      Forall minimizing pre /\ Forall passive post /\
      b = negb (fails env (trace s ++ pre) (Popen (msiexec_command self))) /\
      (b = false -> post = [] /\ app s' = app s).
Proof.
  intros env self s Hdry.
  rewrite (launch_installer_after_popen env self s Hdry).
  destruct (before_popen_outcome env self
              (call env (Popen (msiexec_command self)) ;; after_popen env self) s Hdry)
    as (s2 & pre & T & F & A & E).
  exists pre. unfold try_except. rewrite E.
  unfold bind at 1. unfold call. rewrite <- T.
  destruct (fails env (trace s2) (Popen (msiexec_command self))) eqn:Hf.
  - exists [], false. eexists. split; [reflexivity |]. cbn [trace record].
    repeat split; try assumption; try constructor.
  - destruct (after_popen_true env self (record env (Popen (msiexec_command self)) 0 s2))
      as (s3 & E3).
    destruct (after_popen_emits env self (record env (Popen (msiexec_command self)) 0 s2))
      as (post & T3 & F3 & _).
    rewrite E3 in T3 |- *. cbn in T3.
    exists post, true, s3. split; [reflexivity |].
    rewrite T3, <- app_assoc. cbn [List.app].
    repeat split; try assumption; discriminate.
Qed.

(** X6 on a machine where pywinauto cannot connect: msiexec is started and
    the method answers True. *)
Lemma launch_installer_outcome_witness :
  (exists pre post b s',
     launch_installer no_connection_env (init "edr.msi" false) start = (Ret b, s') /\
     trace s' = (trace start ++ pre) ++ Popen (msiexec_command (init "edr.msi" false)) :: post /\
     Forall minimizing pre /\ Forall passive post /\
     b = negb (fails no_connection_env (trace start ++ pre)
                 (Popen (msiexec_command (init "edr.msi" false)))) /\
     (b = false -> post = [] /\ app s' = app start)) /\
  result (launch_installer no_connection_env (init "edr.msi" false) start) = Ret true /\
  app (final (launch_installer no_connection_env (init "edr.msi" false) start)) = false.
Proof.
  split.
  - apply (launch_installer_outcome no_connection_env (init "edr.msi" false) start).
    reflexivity.
  - vm_compute. split; reflexivity.
Defined.

(** ** Prerequisites *)

(** X7: [validate_prerequisites] only asks whether the MSI file exists and,
    outside dry-run mode, whether the user is an administrator.  It returns
    True only if pywinauto is importable, the file exists and the tag starts
    with XPG_; when pywinauto is importable and the existence check does not
    raise, its verdict is exactly the conjunction of the last two, whatever
    the administrator check answers and even if it raises. *)
Theorem validate_prerequisites_verdict :
  forall (env : Env) (self : Installer) (s : State),
    exists evs,
      trace (final (validate_prerequisites env self s)) = trace s ++ evs /\
      Forall prerequisite_event evs /\
      (result (validate_prerequisites env self s) = Ret true ->
       PYWINAUTO_AVAILABLE env = true /\ msi_exists env (trace s) = true /\
       startswith "XPG_" (tag self) = true) /\
      (PYWINAUTO_AVAILABLE env = true -> fails env (trace s) PathExists = false ->
       result (validate_prerequisites env self s) =
       Ret (msi_exists env (trace s) && startswith "XPG_" (tag self))).
Proof.
  intros env self s.
  unfold validate_prerequisites, _is_admin, try_except, bind, get_trace, call, ret.
  destruct (PYWINAUTO_AVAILABLE env); cbn [negb];
    [| exists []; rewrite app_nil_r; cbn; repeat split;
       try constructor; try discriminate].
  destruct (fails env (trace s) PathExists); cbn [trace record];
    [exists [PathExists]; cbn; repeat split; try discriminate;
     repeat constructor; now left |].
  destruct (msi_exists env (trace s)); cbn [negb andb];
    [| exists [PathExists]; cbn; repeat split; try discriminate;
       repeat constructor; now left].
  destruct (dry_run self); cbn [negb].
  - exists [PathExists].
    destruct (startswith "XPG_" (tag self)); cbn;
      repeat split; try discriminate; repeat constructor; now left.
  - match goal with
    | |- context [fails env ?t IsUserAnAdmin] => destruct (fails env t IsUserAnAdmin)
    end; cbn;
      exists [PathExists; IsUserAnAdmin];
      destruct (startswith "XPG_" (tag self)); cbn;
      rewrite <- app_assoc; cbn;
      (repeat split; try discriminate; repeat constructor; try (now left); now right).
Qed.

Lemma validate_prerequisites_emits env self :
  emits prerequisite_event (validate_prerequisites env self).
Proof.
  unfold validate_prerequisites, _is_admin.
  repeat (emits_step; try (now left); try (now right)).
Qed.

(** ** The whole run: what it never does *)

Lemma run_installation_app env self s :
  app (final (run_installation env self s)) = false.
Proof.
  unfold run_installation, try_finally.
  match goal with |- context [try_except ?m ?h s] => destruct (try_except m h s) as [r s1] end.
  unfold cleanup, bind, get_app, set_app.
  destruct (app s1) eqn:Ea; destruct r; cbn; auto.
Qed.

Lemma run_installation_after_wizard env self s r s1 :
  wizard_steps env self s = (r, s1) -> r <> Ret true -> r <> OutOfFuel ->
  result (run_installation env self s) = Ret false /\
  trace (final (run_installation env self s)) = trace s1.
Proof.
  intros E Hr Hf.
  assert (B : forall f : bool -> M bool,
            bind (wizard_steps env self) (fun ok => if negb ok then ret false else f ok) s
            = (r, s1)).
  { intros f. unfold bind. rewrite E. destruct r as [[|] | x |]; congruence || reflexivity. }
  unfold run_installation, try_finally, try_except, cleanup.
  rewrite B.
  destruct r as [[|] | x |]; try congruence; cbn;
    unfold bind, get_app, set_app; destruct (app s1); cbn; auto.
Qed.

(** X8: [run_installation] always leaves [self.app] unbound, the [finally]
    clause running [cleanup] on every path.  If the prerequisites are not
    validated, it returns False having only carried out the checks of
    [validate_prerequisites]: nothing is launched and nothing is sent. *)
Theorem run_installation_stops_at_prerequisites :
  forall (env : Env) (self : Installer) (s : State),
    app (final (run_installation env self s)) = false /\
    (result (validate_prerequisites env self s) <> Ret true ->
     result (run_installation env self s) = Ret false /\
     exists evs,
       trace (final (run_installation env self s)) = trace s ++ evs /\
       Forall prerequisite_event evs).
Proof.
  intros env self s. split; [apply run_installation_app |].
  intros Hv.
  destruct (validate_prerequisites_emits env self s) as (evs & T & F & _).
  pose proof (validate_prerequisites_halts env self s) as Hh.
  destruct (validate_prerequisites env self s) as [r s1] eqn:E. cbn in Hv, T, Hh.
  assert (W : exists r', wizard_steps env self s = (r', s1) /\ r' <> Ret true /\
                         r' <> OutOfFuel).
  { unfold wizard_steps, bind at 1. rewrite E.
    destruct r as [[|] | x |]; try congruence; eexists; (split; [reflexivity |]);
      split; discriminate. }
  destruct W as (r' & W & H1 & H2).
  destruct (run_installation_after_wizard env self s r' s1 W H1 H2) as (R & T').
  split; [exact R |]. exists evs. rewrite T'. auto.
Qed.

(** X8 on a machine without the MSI file. *)
Lemma run_installation_stops_at_prerequisites_witness :
  (app (final (run_installation no_msi_env (init "edr.msi" false) start)) = false /\
   (result (validate_prerequisites no_msi_env (init "edr.msi" false) start) <> Ret true ->
    result (run_installation no_msi_env (init "edr.msi" false) start) = Ret false /\
    exists evs,
      trace (final (run_installation no_msi_env (init "edr.msi" false) start))
        = trace start ++ evs /\
      Forall prerequisite_event evs)) /\
  result (validate_prerequisites no_msi_env (init "edr.msi" false) start) = Ret false /\
  trace (final (run_installation no_msi_env (init "edr.msi" false) start)) = [PathExists].
Proof.
  split.
  - apply (run_installation_stops_at_prerequisites no_msi_env (init "edr.msi" false) start).
  - vm_compute. split; reflexivity.
Defined.

(** ** Waiting for completion, in any world *)

Section CompletionOutcome.

Variable env : Env.
Variable self : Installer.

Lemma click_with_win32gui_true button_text s s' :
  click_with_win32gui env button_text s = (Ret true, s') -> ends_on_click env s'.
Proof.
  intros E. unfold click_with_win32gui in E.
  apply try_except_true_inv in E.
  apply bind_ret_inv in E. destruct E as ([] & s1 & _ & E).
  apply bind_ret_inv in E. destruct E as (ws & s2 & _ & E).
  destruct ws as [| w ws]; [discriminate E |].
  eapply click_in_windows_true; exact E.
Qed.

(** One pass of the polling loop: it clicked a completion button and
    answers True, or it found none and slept two seconds. *)
Lemma poll_completion_outcome s :
  exists r s' evs,
    poll_completion env self s = (Ret r, s') /\
    trace s' = trace s ++ evs /\ Forall (completion_event env) evs /\
    clock s <= clock s' /\
    (r = None -> clock s + 2000 <= clock s') /\
    (forall b, r = Some b -> b = true /\ ends_on_click env s').
Proof.
  unfold poll_completion.
  destruct (returns_emits _ _ (take_screenshot_returns env self "completion_check")
              (take_screenshot_emits env self "completion_check") s)
    as ([] & s1 & e1 & E1 & T1 & F1 & C1).
  destruct (returns_emits _ _ (click_with_win32gui_returns env "Finish")
              (click_with_win32gui_emits env "Finish") s1)
    as (finish & s2 & e2 & E2 & T2 & F2 & C2).
  destruct (returns_emits _ _ (click_with_win32gui_returns env "Close")
              (click_with_win32gui_emits env "Close") s2)
    as (close & s3 & e3 & E3 & T3 & F3 & C3).
  assert (G1 : Forall (completion_event env) e1)
    by (eapply Forall_impl; [| exact F1]; intros e He; now left).
  assert (G2 : Forall (completion_event env) e2)
    by (eapply Forall_impl; [| exact F2]; intros e He; right; now left).
  assert (G3 : Forall (completion_event env) e3)
    by (eapply Forall_impl; [| exact F3]; intros e He; right; right; now left).
  destruct finish.
  { exists (Some true), s2, (e1 ++ e2). split; [| split; [| split; [| split; [| split]]]].
    - erewrite try_except_step; [reflexivity |].
      rewrite (bind_step _ _ _ _ _ E1), (bind_step _ _ _ _ _ E2). reflexivity.
    - rewrite T2, T1, app_assoc. reflexivity.
    - apply Forall_app; split; assumption.
    - lia.
    - discriminate.
    - intros b [= <-]. split; [reflexivity |].
      eapply click_with_win32gui_true; exact E2. }
  destruct close.
  { exists (Some true), s3, (e1 ++ e2 ++ e3). split; [| split; [| split; [| split; [| split]]]].
    - erewrite try_except_step; [reflexivity |].
      rewrite (bind_step _ _ _ _ _ E1), (bind_step _ _ _ _ _ E2).
      rewrite (bind_step _ _ _ _ _ E3). reflexivity.
    - rewrite T3, T2, T1. repeat rewrite <- app_assoc. reflexivity.
    - repeat (apply Forall_app; split); assumption.
    - lia.
    - discriminate.
    - intros b [= <-]. split; [reflexivity |].
      eapply click_with_win32gui_true; exact E3. }
  exists None, (record env (Sleep 2000) 2000 s3), (e1 ++ e2 ++ e3 ++ [Sleep 2000]).
  split; [| split; [| split; [| split; [| split]]]].
  - erewrite try_except_step; [reflexivity |].
    rewrite (bind_step _ _ _ _ _ E1), (bind_step _ _ _ _ _ E2).
    rewrite (bind_step _ _ _ _ _ E3). reflexivity.
  - cbn [trace record]. rewrite T3, T2, T1. repeat rewrite <- app_assoc. reflexivity.
  - repeat (apply Forall_app; split); try assumption.
    apply Forall_cons; [right; right; now right | constructor].
  - cbn [clock record]. lia.
  - intros _. cbn [clock record]. lia.
  - discriminate.
Qed.

Lemma completion_loop_outcome fuel :
  forall start_time s,
    completion_timeout - (clock s - start_time) <= 2000 * Z.of_nat fuel ->
    exists r s' evs,
      completion_loop env self fuel start_time s = (Ret r, s') /\
      trace s' = trace s ++ evs /\ Forall (completion_event env) evs /\
      clock s <= clock s' /\
      (r = None -> completion_timeout <= clock s' - start_time) /\
      (forall b, r = Some b -> b = true /\ ends_on_click env s').
Proof.
  induction fuel as [| fuel IH]; intros start_time s Hfuel.
  - cbn [completion_loop]. rewrite (bind_step get_clock _ s (clock s) s eq_refl).
    destruct (Z.ltb_spec (clock s - start_time) completion_timeout) as [Hlt | Hge]; [lia |].
    exists None, s, []. rewrite app_nil_r.
    repeat split; try constructor; try lia; discriminate.
  - cbn [completion_loop]. rewrite (bind_step get_clock _ s (clock s) s eq_refl).
    destruct (Z.ltb_spec (clock s - start_time) completion_timeout) as [Hlt | Hge].
    + destruct (poll_completion_outcome s) as (r & s1 & e1 & E1 & T1 & F1 & C1 & N1 & S1).
      rewrite (bind_step _ _ _ _ _ E1).
      destruct r as [b |].
      * exists (Some b), s1, e1.
        split; [reflexivity |]. split; [exact T1 |]. split; [exact F1 |].
        split; [exact C1 |]. split; [discriminate | exact S1].
      * specialize (N1 eq_refl).
        destruct (IH start_time s1 ltac:(lia))
          as (r2 & s2 & e2 & E2 & T2 & F2 & C2 & N2 & S2).
        exists r2, s2, (e1 ++ e2). rewrite E2, T2, T1, app_assoc.
        split; [reflexivity |]. split; [reflexivity |].
        split; [apply Forall_app; split; assumption |].
        split; [lia |]. split; assumption.
    + exists None, s, []. rewrite app_nil_r.
      repeat split; try constructor; try lia; discriminate.
Qed.

End CompletionOutcome.



(** ** The verification only reads *)

Section VerificationEvents.

Variable env : Env.
Variable self : Installer.

Lemma mentions_tehtris_truthy text : mentions_tehtris text = true -> truthy text = true.
Proof. destruct text; [discriminate | reflexivity]. Qed.

(** What makes [is_tehtris_agent] answer True, and what suffices for it. *)
Lemma is_tehtris_agent_spec proc s :
  exists b s' evs,
    is_tehtris_agent env proc s = (Ret b, s') /\
    trace s' = trace s ++ evs /\
    Forall (fun e => e = GetFileVersionInfo (proc_exe proc) /\ truthy (proc_exe proc) = true) evs /\
    (b = true ->
     truthy (proc_exe proc) = true /\ WIN32_AVAILABLE env = true /\
     (mentions_tehtris (file_description proc) = true \/
      mentions_tehtris (proc_exe proc) = true)) /\
    (truthy (proc_exe proc) = true -> WIN32_AVAILABLE env = true ->
     mentions_tehtris (file_description proc) = true ->
     mentions_tehtris (proc_exe proc) = true -> b = true).
Proof.
  unfold is_tehtris_agent. cbv zeta.
  destruct (truthy (proc_exe proc)) eqn:Hexe.
  2:{ exists false, s, []. rewrite app_nil_r.
      repeat split; try constructor; discriminate. }
  destruct (WIN32_AVAILABLE env) eqn:Hw.
  2:{ exists false, s, []. rewrite app_nil_r.
      repeat split; try constructor; discriminate. }
  unfold try_except, bind, call, ret.
  destruct (fails env (trace s) (GetFileVersionInfo (proc_exe proc))) eqn:Hf.
  - eexists _, _, [GetFileVersionInfo (proc_exe proc)].
    split; [reflexivity |]. split; [reflexivity |].
    split; [repeat constructor |].
    split; [intros Hb; repeat split; right; exact Hb | intros _ _ _ Hb; exact Hb].
  - eexists _, _, [GetFileVersionInfo (proc_exe proc)].
    split; [reflexivity |]. split; [reflexivity |].
    split; [repeat constructor |].
    split.
    + intros Hb. apply andb_true_iff in Hb. destruct Hb as (_ & Hb).
      repeat split; left; exact Hb.
    + intros _ _ Hd _. apply andb_true_iff. split; [| exact Hd].
      apply mentions_tehtris_truthy, Hd.
Qed.

Lemma verification_event_tail proc procs e :
  verification_event procs e -> verification_event (proc :: procs) e.
Proof.
  intros [-> | (p & Hin & Hc & ->)]; [now left |].
  right. exists p. repeat split; try apply Hc. now right.
Qed.

Lemma scan_processes_emits procs :
  forall agents, emits (verification_event procs) (scan_processes env procs agents).
Proof.
  induction procs as [| proc procs IH]; intros agents; cbn [scan_processes].
  - emits_step.
  - assert (IH' : forall a, emits (verification_event (proc :: procs))
                              (scan_processes env procs a)).
    { intros a. eapply emits_weaken; [apply verification_event_tail | apply IH]. }
    destruct (proc_fault proc) eqn:Hfault; [| apply IH' | emits_step].
    destruct (contains "agent" (lower (proc_name proc))) eqn:Hname; [| apply IH'].
    emits_step; [| apply IH'].
    intros s. destruct (is_tehtris_agent_spec proc s) as (b & s' & evs & E & T & F & _).
    exists evs. rewrite E. cbn [final snd]. split; [exact T |]. split.
    + eapply Forall_impl; [| exact F]. intros e (-> & Hexe).
      right. exists proc. repeat split; auto. now left.
    + assert (Em : emits (fun _ => True) (is_tehtris_agent env proc)).
      { unfold is_tehtris_agent. repeat (emits_step; try exact I). }
      destruct (Em s) as (_ & _ & _ & Hc). rewrite E in Hc. exact Hc.
Qed.

(** [verify_installation] with the trace it reads made explicit. *)
Lemma verify_installation_at s :
  verify_installation env self s =
  (if dry_run self then ret true
   else
     try_except
       ((if PSUTIL_AVAILABLE env then ret tt else raise (ImportError "psutil")) ;;
        r <- try_except
               (call env ProcessIter ;;
                tehtris_agents <- scan_processes env (processes env (trace s)) [] ;;
                ret (Some tehtris_agents))
               (fun _ => ret None) ;;
        match r with
        | None => ret true
        | Some [] => ret true
        | Some (_ :: _) => ret true
        end)
       (fun x =>
          match x with
          | ImportError _ => ret true
          | _ => ret true
          end)) s.
Proof.
  unfold verify_installation. destruct (dry_run self); [reflexivity |].
  destruct (PSUTIL_AVAILABLE env); reflexivity.
Qed.

Lemma verify_installation_events s :
  exists evs,
    trace (final (verify_installation env self s)) = trace s ++ evs /\
    Forall (verification_event (processes env (trace s))) evs.
Proof.
  rewrite verify_installation_at.
  match goal with
  | |- context [final (?m s)] =>
      assert (Em : emits (verification_event (processes env (trace s))) m)
  end.
  { emits_step; [emits_step |].
    emits_step.
    - emits_step; [repeat emits_step |].
      emits_step.
      + emits_step; [| emits_step].
        emits_step; [emits_step; now left |].
        emits_step; [apply scan_processes_emits | emits_step].
      + repeat emits_step.
    - repeat emits_step. }
  destruct (Em s) as (evs & T & F & _). exists evs. auto.
Qed.

End VerificationEvents.

(** X10: [verify_installation] only reads.  It always returns True, and the
    calls it makes are the process listing and, for each process of that
    listing that is readable, has "agent" in its name and an executable path,
    the query of the version resource of that executable. *)
Theorem verify_installation_read_only :
  forall (env : Env) (self : Installer) (s : State),
    exists s' evs,
      verify_installation env self s = (Ret true, s') /\
      trace s' = trace s ++ evs /\
      Forall (verification_event (processes env (trace s))) evs /\
      Forall passive evs.
Proof.
  intros env self s.
  destruct (verify_installation_true env self s) as (s' & E).
  destruct (verify_installation_events env self s) as (evs & T & F).
  rewrite E in T. cbn in T.
  exists s', evs. repeat split; try assumption.
  eapply Forall_impl; [| exact F].
  intros e [-> | (p & _ & _ & ->)]; reflexivity.
Qed.

(** X11: the processes that the verification loop keeps.  When
    [scan_processes] returns, it has appended to the list, in the order of
    the listing, only readable processes with "agent" in their name (in any
    case) and an executable path, whose file description or whose path
    mentions "tehtris", and only if win32api is importable.  Under that
    import every such process whose description and path both mention
    "tehtris" is kept, whether or not the version query raises. *)
Theorem scan_processes_keeps_tehtris_agents :
  forall (env : Env) (procs tehtris_agents agents : list Proc) (s s' : State),
    scan_processes env procs tehtris_agents s = (Ret agents, s') ->
    exists found,
      agents = tehtris_agents ++ found /\
      subsequence found procs /\
      Forall (fun p =>
                agent_candidate p /\ WIN32_AVAILABLE env = true /\
                (mentions_tehtris (file_description p) = true \/
                 mentions_tehtris (proc_exe p) = true)) found /\
      (forall p,
         In p procs -> agent_candidate p -> WIN32_AVAILABLE env = true ->
         mentions_tehtris (file_description p) = true ->
         mentions_tehtris (proc_exe p) = true -> In p found).
Proof.
  intros env procs.
  induction procs as [| proc procs IH]; intros acc agents s s' H; cbn [scan_processes] in H.
  - inversion H. exists []. rewrite app_nil_r.
    repeat split; try constructor. intros p [].
  - destruct (proc_fault proc) eqn:Hfault.
    + destruct (contains "agent" (lower (proc_name proc))) eqn:Hname.
      * apply bind_ret_inv in H. destruct H as (b & s1 & E1 & H).
        destruct (is_tehtris_agent_spec env proc s)
          as (b0 & s0 & evs & E & _ & _ & Hsound & Hcomplete).
        rewrite E in E1. inversion E1; subst b0 s0. clear E1.
        apply IH in H. destruct H as (found & -> & Hsub & Hall & Hin).
        destruct b.
        -- exists (proc :: found). rewrite <- app_assoc. split; [reflexivity |].
           split; [constructor; exact Hsub |]. split.
           ++ constructor; [| exact Hall].
              destruct (Hsound eq_refl) as (Hexe & Hw & Hm).
              repeat split; assumption.
           ++ intros p [<- | Hp] Hc Hw Hd He; [now left | right; auto].
        -- exists found. split; [reflexivity |].
           split; [constructor; exact Hsub |]. split; [exact Hall |].
           intros p [<- | Hp] Hc Hw Hd He; [| auto].
           destruct Hc as (_ & _ & Hexe).
           specialize (Hcomplete Hexe Hw Hd He). discriminate Hcomplete.
      * apply IH in H. destruct H as (found & -> & Hsub & Hall & Hin).
        exists found. split; [reflexivity |].
        split; [constructor; exact Hsub |]. split; [exact Hall |].
        intros p [<- | Hp] Hc Hw Hd He; [| auto].
        destruct Hc as (_ & Hn & _). congruence.
    + apply IH in H. destruct H as (found & -> & Hsub & Hall & Hin).
      exists found. split; [reflexivity |].
      split; [constructor; exact Hsub |]. split; [exact Hall |].
      intros p [<- | Hp] Hc Hw Hd He; [| auto].
      destruct Hc as (Hf & _). congruence.
    + discriminate H.
Qed.

(** X11 on a machine where the agent runs: of four processes, the one that
    is kept is the TEHTRIS agent. *)
Lemma scan_processes_keeps_tehtris_agents_witness :
  exists found,
    [mkProc NoFault "Agent.exe" "C:\Program Files\TEHTRIS\Agent.exe" "TEHTRIS EDR Agent"]
      = [] ++ found /\
    subsequence found (processes agent_running_env []) /\
    Forall (fun p =>
              agent_candidate p /\ WIN32_AVAILABLE agent_running_env = true /\
              (mentions_tehtris (file_description p) = true \/
               mentions_tehtris (proc_exe p) = true)) found /\
    (forall p,
       In p (processes agent_running_env []) -> agent_candidate p ->
       WIN32_AVAILABLE agent_running_env = true ->
       mentions_tehtris (file_description p) = true ->
       mentions_tehtris (proc_exe p) = true -> In p found).
Proof.
  apply (scan_processes_keeps_tehtris_agents agent_running_env
           (processes agent_running_env []) [] _ start
           (final (scan_processes agent_running_env (processes agent_running_env []) [] start))).
  vm_compute. reflexivity.
Defined.

(** ** One launch, and the wizard only after it *)

Section StepsAfterLaunch.

Variable env : Env.
Variable self : Installer.

Lemma probe_no_popen e : probe e -> no_popen e.
Proof. intros H cmd ->. discriminate H. Qed.

Lemma passive_no_popen e : passive e -> no_popen e.
Proof. intros H cmd ->. discriminate H. Qed.

Lemma minimizing_no_popen e : minimizing e -> no_popen e.
Proof. intros [H | ->]; [apply passive_no_popen, H | intros cmd; discriminate]. Qed.

Lemma click_event_no_popen button_text e : click_event env button_text e -> no_popen e.
Proof. intros H cmd ->. exact H. Qed.

Lemma fill_event_no_popen field_label value e :
  fill_event env field_label value e -> no_popen e.
Proof.
  intros [-> | [(title & ->) | [(parent & ->) | (t & parent & h & _ & H)]]] cmd;
    try discriminate.
  destruct H as [-> | [(x & y & ->) | [(ms & ->) | [-> | [-> | [-> | ->]]]]]]; discriminate.
Qed.

Lemma take_screenshot_no_popen step_name :
  emits no_popen (take_screenshot env self step_name).
Proof. eapply emits_weaken; [apply probe_no_popen | apply take_screenshot_emits]. Qed.

Lemma print_window_text_no_popen : emits no_popen (print_window_text env).
Proof. eapply emits_weaken; [apply probe_no_popen | apply print_window_text_emits]. Qed.

Lemma click_with_win32gui_no_popen button_text :
  emits no_popen (click_with_win32gui env button_text).
Proof.
  eapply emits_weaken; [apply click_event_no_popen | apply click_with_win32gui_emits].
Qed.

Lemma fill_field_with_win32gui_no_popen field_label value :
  emits no_popen (fill_field_with_win32gui env field_label value).
Proof.
  eapply emits_weaken; [apply fill_event_no_popen | apply fill_field_with_win32gui_emits].
Qed.

Lemma smart_find_and_click_no_popen element_type text_options fallback_positions :
  emits no_popen (smart_find_and_click env self element_type text_options fallback_positions).
Proof.
  apply smart_find_and_click_in_class; try (intros; intros cmd; discriminate).
  intros e He. apply probe_no_popen, He.
Qed.

Lemma smart_fill_field_no_popen field_name value labels positions :
  emits no_popen (smart_fill_field env self field_name value labels positions).
Proof.
  apply smart_fill_field_in_class; try (intros; intros cmd; discriminate).
  intros e He. apply probe_no_popen, He.
Qed.

Ltac no_popen_step :=
  first [ apply take_screenshot_no_popen
        | apply print_window_text_no_popen
        | apply click_with_win32gui_no_popen
        | apply fill_field_with_win32gui_no_popen
        | apply smart_find_and_click_no_popen
        | apply smart_fill_field_no_popen
        | emits_step; try (intros cmd; discriminate) ].

Lemma handle_welcome_screen_no_popen : emits no_popen (handle_welcome_screen env self).
Proof. unfold handle_welcome_screen. repeat no_popen_step. Qed.

Lemma handle_license_agreement_no_popen : emits no_popen (handle_license_agreement env self).
Proof. unfold handle_license_agreement. repeat no_popen_step. Qed.

Lemma handle_activation_information_no_popen :
  emits no_popen (handle_activation_information env self).
Proof. unfold handle_activation_information. repeat no_popen_step. Qed.

Lemma handle_installation_no_popen : emits no_popen (handle_installation env self).
Proof. unfold handle_installation. repeat no_popen_step. Qed.

Lemma poll_completion_no_popen : emits no_popen (poll_completion env self).
Proof. unfold poll_completion. repeat no_popen_step. Qed.

Lemma completion_loop_no_popen fuel start_time :
  emits no_popen (completion_loop env self fuel start_time).
Proof.
  induction fuel as [| fuel IH]; cbn [completion_loop].
  - emits_step; [emits_step |]. emits_step; [| emits_step].
    apply emits_silent. reflexivity.
  - emits_step; [emits_step |]. emits_step; [| emits_step].
    emits_step; [apply poll_completion_no_popen |].
    emits_step; [emits_step | exact IH].
Qed.

Lemma wait_for_completion_no_popen : emits no_popen (wait_for_completion env self).
Proof.
  unfold wait_for_completion.
  emits_step; [emits_step |].
  emits_step; [| emits_step].
  emits_step; [emits_step |].
  emits_step; [apply completion_loop_no_popen |].
  repeat no_popen_step.
Qed.

Lemma screen_steps_no_popen : emits no_popen (screen_steps env self).
Proof.
  unfold screen_steps.
  repeat first [ apply handle_welcome_screen_no_popen
               | apply handle_license_agreement_no_popen
               | apply handle_activation_information_no_popen
               | apply handle_installation_no_popen
               | apply wait_for_completion_no_popen
               | emits_step; try (intros cmd; discriminate) ].
Qed.

(** After the steps, [run_installation] only adds the calls of the
    verification. *)
Lemma run_installation_trace s :
  exists evs,
    trace (final (run_installation env self s)) =
      trace (final (wizard_steps env self s)) ++ evs /\
    Forall passive evs.
Proof.
  destruct (wizard_steps env self s) as [r s1] eqn:W. cbn [final snd].
  assert (B : forall f : bool -> M bool,
            bind (wizard_steps env self) f s =
            match r with
            | Ret ok => f ok s1
            | Raise x => (Raise x, s1)
            | OutOfFuel => (OutOfFuel, s1)
            end).
  { intros f. unfold bind. rewrite W. destruct r; reflexivity. }
  unfold run_installation, try_finally, try_except, cleanup.
  rewrite B.
  destruct r as [[|] | x |]; cbn [negb].
  - destruct (verify_installation_true env self s1) as (s2 & E).
    destruct (verify_installation_events env self s1) as (evs & T & F).
    rewrite E in T. cbn in T.
    rewrite (bind_step _ _ _ _ _ E). cbn.
    exists evs. unfold bind, get_app, set_app. split.
    + destruct (app s2); cbn; exact T.
    + eapply Forall_impl; [| exact F].
      intros e [-> | (p & _ & _ & ->)]; reflexivity.
  - exists []. rewrite app_nil_r. unfold bind, get_app, set_app, ret.
    destruct (app s1); cbn; auto.
  - exists []. rewrite app_nil_r. unfold bind, get_app, set_app, ret.
    destruct (app s1); cbn; auto.
  - exists []. rewrite app_nil_r. unfold bind, get_app, set_app, ret.
    destruct (app s1); cbn; auto.
Qed.

End StepsAfterLaunch.

(** X12: outside dry-run mode, once the prerequisites are validated,
    [run_installation] starts msiexec exactly once.  Before that start
    nothing acts on the desktop but the Win+D keystroke: every click, message
    and keystroke of the wizard steps comes after it, and none of them starts
    another process. *)
Theorem msiexec_is_started_once :
  forall (env : Env) (self : Installer) (s : State),
    dry_run self = false ->
    result (validate_prerequisites env self s) = Ret true ->
    exists pre post,
      trace (final (run_installation env self s)) =
        trace s ++ pre ++ Popen (msiexec_command self) :: post /\
      Forall minimizing pre /\ Forall no_popen pre /\ Forall no_popen post.
Proof.
  intros env self s Hdry Hv.
  destruct (validate_prerequisites_emits env self s) as (e0 & T0 & F0 & _).
  destruct (validate_prerequisites env self s) as [r s1] eqn:E0.
  cbn in Hv, T0. subst r.
  assert (G0 : Forall minimizing e0).
  { eapply Forall_impl; [| exact F0]. intros e [-> | ->]; left; reflexivity. }
  destruct (before_popen_outcome env self
              (call env (Popen (msiexec_command self)) ;; after_popen env self) s1 Hdry)
    as (s2 & e1 & T1 & F1 & _ & E1).
  destruct (run_installation_trace env self s) as (e4 & T4 & F4).
  exists (e0 ++ e1).
  assert (L : launch_installer env self s1 =
              try_except (call env (Popen (msiexec_command self)) ;; after_popen env self)
                (fun _ => ret false) s2).
  { rewrite (launch_installer_after_popen env self s1 Hdry).
    unfold try_except. rewrite E1. reflexivity. }
  assert (W : wizard_steps env self s =
              (ok <- launch_installer env self ;;
               if negb ok then ret false else screen_steps env self) s1).
  { unfold wizard_steps. rewrite (bind_step _ _ _ _ _ E0). reflexivity. }
  unfold bind in W. rewrite L in W.
  unfold try_except, bind at 1, call in W.
  destruct (fails env (trace s2) (Popen (msiexec_command self))) eqn:Hf.
  - cbn in W. rewrite W in T4. cbn in T4.
    exists e4. rewrite T4, T1, T0. repeat rewrite <- app_assoc. cbn.
    split; [reflexivity |].
    assert (Fpre : Forall minimizing (e0 ++ e1)) by (apply Forall_app; split; assumption).
    split; [exact Fpre |].
    split; [eapply Forall_impl; [| exact Fpre]; apply minimizing_no_popen |].
    eapply Forall_impl; [| exact F4]. apply passive_no_popen.
  - destruct (after_popen_true env self (record env (Popen (msiexec_command self)) 0 s2))
      as (s3 & E3).
    destruct (after_popen_emits env self (record env (Popen (msiexec_command self)) 0 s2))
      as (e2 & T2 & F2 & _).
    rewrite E3 in T2, W. cbn in T2. cbn [negb] in W.
    destruct (screen_steps_no_popen env self s3) as (e3 & T3 & F3 & _).
    rewrite <- W in T3.
    exists (e2 ++ e3 ++ e4).
    rewrite T4, T3, T2, T1, T0. repeat rewrite <- app_assoc. cbn.
    split; [reflexivity |].
    assert (Fpre : Forall minimizing (e0 ++ e1)) by (apply Forall_app; split; assumption).
    split; [exact Fpre |].
    split; [eapply Forall_impl; [| exact Fpre]; apply minimizing_no_popen |].
    repeat (apply Forall_app; split); try assumption;
      (eapply Forall_impl; [| eassumption]); apply passive_no_popen.
Qed.

(** X12 on a desktop where the wizard never shows up: msiexec is started,
    and the steps fall back on their keyboard shortcuts. *)
Lemma msiexec_is_started_once_witness :
  (exists pre post,
     trace (final (run_installation (empty_desktop true) (init "edr.msi" false) start)) =
       trace start ++ pre ++ Popen (msiexec_command (init "edr.msi" false)) :: post /\
     Forall minimizing pre /\ Forall no_popen pre /\ Forall no_popen post) /\
  map (fun e => match e with Hotkey _ k => k | Popen _ => "msiexec" | _ => "?" end)
    (filter is_actuation
       (trace (final (run_installation (empty_desktop true) (init "edr.msi" false) start))))
    = ["d"; "msiexec"; "n"; "a"; "n"; "n"; "i"; "f"].
Proof.
  split.
  - apply (msiexec_is_started_once (empty_desktop true) (init "edr.msi" false) start);
      reflexivity.
  - vm_compute. reflexivity.
Defined.

(** ** Retry: the schedule of the attempts *)

Lemma filter_operation_events l :
  Forall operation_event l -> filter is_retry_event l = [].
Proof.
  induction 1 as [| e l He _ IH]; [reflexivity |].
  cbn. rewrite He. exact IH.
Qed.

Section RetrySchedule.

Variable env : Env.
Variable self : Installer.
Context {A : Type}.
Variable operation : M A.

Hypothesis operation_quiet : emits operation_event operation.
Hypothesis delay_accepted : 0 <= retry_delay self.

Lemma retry_from_schedule remaining :
  forall attempt s,
    attempt + Z.of_nat remaining = max_retries self ->
    (1 <= remaining)%nat -> 0 <= attempt ->
    exists evs k,
      trace (final (retry_from env self operation remaining attempt s)) = trace s ++ evs /\
      (1 <= k <= remaining)%nat /\
      filter is_retry_event evs = attempts_from (retry_delay self) attempt k /\
      result (retry_from env self operation remaining attempt s) <> Ret None /\
      (forall a,
         result (retry_from env self operation remaining attempt s) = Ret (Some a) ->
         exists s_last,
           operation s_last =
             (Ret a, final (retry_from env self operation remaining attempt s))).
Proof.
  induction remaining as [| k IH]; intros attempt s Hsum Hpos Hatt; [lia |].
  remember (retry_from env self operation (S k) attempt s) as r eqn:Er.
  cbn [retry_from] in Er. unfold try_except, bind, invoke, raise, ret, sleep in Er.
  destruct (operation_quiet (record env Invoke 0 s)) as (e1 & T1 & F1 & _).
  pose proof (filter_operation_events _ F1) as N1.
  destruct (operation (record env Invoke 0 s)) as [[a | x |] s1] eqn:Eop;
    cbn [final snd trace record] in T1.
  - subst r. exists (Invoke :: e1), 1%nat. cbn [final snd result fst].
    split; [rewrite T1, <- app_assoc; reflexivity |]. split; [lia |].
    split; [cbn; rewrite N1; reflexivity |]. split; [discriminate |].
    intros a' [= <-]. exists (record env Invoke 0 s). exact Eop.
  - destruct (Z.eqb_spec attempt (max_retries self - 1)) as [Hlast | Hmore].
    + subst r. exists (Invoke :: e1), 1%nat. cbn [final snd result fst].
      split; [rewrite T1, <- app_assoc; reflexivity |]. split; [lia |].
      split; [cbn; rewrite N1; reflexivity |]. split; discriminate.
    + assert (Hk : (1 <= k)%nat) by lia.
      destruct (Z.ltb_spec (retry_delay self * (attempt + 1)) 0) as [Hneg | Hok]; [nia |].
      subst r.
      match goal with
      | |- context [retry_from env self operation k (attempt + 1) ?s2] =>
          destruct (IH (attempt + 1) s2 ltac:(lia) Hk ltac:(lia))
            as (evs & j & T & Hj & Sch & N & V)
      end.
      cbn [trace record] in T.
      exists (Invoke :: e1 ++ Sleep (retry_delay self * (attempt + 1)) :: evs), (S j).
      split; [rewrite T, T1; repeat rewrite <- app_assoc; reflexivity |].
      split; [lia |].
      split; [| split; assumption].
      cbn [filter is_retry_event is_invoke is_sleep orb].
      rewrite filter_app, N1. cbn [List.app filter is_retry_event is_invoke is_sleep orb].
      rewrite Sch. destruct j as [| j]; [lia | reflexivity].
  - subst r. exists (Invoke :: e1), 1%nat. cbn [final snd result fst].
    split; [rewrite T1, <- app_assoc; reflexivity |]. split; [lia |].
    split; [cbn; rewrite N1; reflexivity |]. split; discriminate.
Qed.

End RetrySchedule.

(** X13: the schedule of [_retry_operation].  With a budget of at least one
    attempt and a delay that [time.sleep] accepts, around an operation that
    does not itself sleep: the wrapper makes some number [k] of attempts
    between one and the budget, and after the failure of the [i]-th attempt
    it sleeps [i] times the delay, a linear back-off.  It never returns None,
    and a value it returns is the value the last attempt returned, nothing
    being done after that attempt. *)
Theorem retry_operation_schedule :
  forall (env : Env) (self : Installer) (A : Type) (operation : M A) (s : State),
    1 <= max_retries self ->
    0 <= retry_delay self ->
    emits operation_event operation ->
    exists evs k,
      trace (final (_retry_operation env self operation s)) = trace s ++ evs /\
      (1 <= k)%nat /\ Z.of_nat k <= max_retries self /\
      filter is_retry_event evs = attempts_from (retry_delay self) 0 k /\
      result (_retry_operation env self operation s) <> Ret None /\
      (forall a,
         result (_retry_operation env self operation s) = Ret (Some a) ->
         exists s_last,
           operation s_last = (Ret a, final (_retry_operation env self operation s))).
Proof.
  intros env self A operation s Hn Hd Hop. unfold _retry_operation.
  destruct (retry_from_schedule env self operation Hop Hd (Z.to_nat (max_retries self)) 0 s
              ltac:(lia) ltac:(lia) ltac:(lia)) as (evs & k & T & Hk & Sch & N & V).
  exists evs, k. split; [exact T |]. split; [lia |]. split; [lia |].
  split; [exact Sch |]. split; assumption.
Qed.

(** X13 around a connection attempt that succeeds at the third try: sleeps
    of two and four seconds. *)
Lemma retry_operation_schedule_witness :
  (exists evs k,
     trace (final (_retry_operation flaky_connection_env (init "edr.msi" false)
                     (call flaky_connection_env Connect) start)) = trace start ++ evs /\
     (1 <= k)%nat /\ Z.of_nat k <= max_retries (init "edr.msi" false) /\
     filter is_retry_event evs = attempts_from (retry_delay (init "edr.msi" false)) 0 k /\
     result (_retry_operation flaky_connection_env (init "edr.msi" false)
               (call flaky_connection_env Connect) start) <> Ret None /\
     (forall a,
        result (_retry_operation flaky_connection_env (init "edr.msi" false)
                  (call flaky_connection_env Connect) start) = Ret (Some a) ->
        exists s_last,
          call flaky_connection_env Connect s_last =
            (Ret a, final (_retry_operation flaky_connection_env (init "edr.msi" false)
                             (call flaky_connection_env Connect) start)))) /\
  _retry_operation flaky_connection_env (init "edr.msi" false)
    (call flaky_connection_env Connect) start =
  (Ret (Some tt),
   mkState [Invoke; Connect; Sleep 2000; Invoke; Connect; Sleep 4000; Invoke; Connect]
           6000 false).
Proof.
  split.
  - apply (retry_operation_schedule flaky_connection_env (init "edr.msi" false) unit
             (call flaky_connection_env Connect) start).
    + cbn. lia.
    + cbn. lia.
    + apply emits_call. reflexivity.
  - reflexivity.
Defined.

(** ** The colour search *)

Lemma insert_by_area_In c l x : In x (insert_by_area c l) <-> x = c \/ In x l.
Proof.
  induction l as [| d l IH]; cbn [insert_by_area].
  - cbn. intuition congruence.
  - destruct (area c <? area d); cbn [In]; [rewrite IH |]; intuition congruence.
Qed.

Lemma sort_by_area_In l x : In x (sort_by_area l) <-> In x l.
Proof.
  induction l as [| c l IH]; [reflexivity |].
  unfold sort_by_area in *. cbn [fold_right In].
  rewrite insert_by_area_In, IH. intuition congruence.
Qed.

Lemma insert_by_area_descending c l : descending l -> descending (insert_by_area c l).
Proof.
  induction l as [| d l IH]; intros H; cbn [insert_by_area].
  - split; [intros d [] | exact I].
  - destruct H as (Hd & Hl).
    destruct (Z.ltb_spec (area c) (area d)) as [Hlt | Hge].
    + split; [| apply IH, Hl].
      intros x Hx. apply insert_by_area_In in Hx. destruct Hx as [-> | Hx]; [lia | auto].
    + split; [| split; assumption].
      intros x [<- | Hx]; [lia | specialize (Hd x Hx); lia].
Qed.

Lemma sort_by_area_descending l : descending (sort_by_area l).
Proof.
  induction l as [| c l IH]; [exact I |].
  apply insert_by_area_descending, IH.
Qed.

Lemma first_large_contour_some min_area l p :
  descending l -> first_large_contour min_area l = Some p ->
  exists c, In c l /\ qualifies min_area c = true /\ p = centroid c /\
            forall d, In d l -> qualifies min_area d = true -> area d <= area c.
Proof.
  induction l as [| c l IH]; intros Hd H; [discriminate H |].
  cbn [first_large_contour] in H. destruct Hd as (Hc & Hl).
  destruct ((min_area <? area c) && negb (m00 c =? 0)) eqn:Hq.
  - inversion H. exists c. split; [now left |]. split; [exact Hq |].
    split; [reflexivity |].
    intros d [<- | Hin] _; [lia | auto].
  - destruct (IH Hl H) as (c' & Hin & Hq' & -> & Hmax).
    exists c'. split; [now right |]. split; [exact Hq' |]. split; [reflexivity |].
    intros d [<- | Hd] Hqd; [unfold qualifies in Hqd; congruence | auto].
Qed.

Lemma first_large_contour_none min_area l :
  first_large_contour min_area l = None ->
  forall c, In c l -> qualifies min_area c = false.
Proof.
  induction l as [| c l IH]; intros H d; [intros [] |].
  cbn [first_large_contour] in H.
  destruct ((min_area <? area c) && negb (m00 c =? 0)) eqn:Hq; [discriminate H |].
  intros [<- | Hin]; [exact Hq | auto].
Qed.

(** X14: [find_ui_element_by_color] never raises and only takes a screenshot
    and searches its contours.  A position it returns is the centroid of a
    contour of the frame that is larger than [min_area], has a non-zero
    moment [m00] and whose area is the largest among such contours.  When
    both calls go through, it returns None only if no contour of the frame
    qualifies. *)
Theorem find_ui_element_by_color_largest :
  forall (env : Env) (self : Installer) (min_area : Z) (s : State),
    exists r s' evs,
      find_ui_element_by_color env self min_area s = (Ret r, s') /\
      trace s' = trace s ++ evs /\
      Forall (fun e => e = Screenshot \/ e = FindContours) evs /\
      (forall p, r = Some p ->
         exists c, In c (contours env (trace s)) /\ qualifies min_area c = true /\
                   p = centroid c /\
                   forall d, In d (contours env (trace s)) ->
                             qualifies min_area d = true -> area d <= area c) /\
      (r = None ->
       PYAUTOGUI_AVAILABLE env = true -> dry_run self = false ->
       fails env (trace s) Screenshot = false ->
       fails env (trace s ++ [Screenshot]) FindContours = false ->
       forall c, In c (contours env (trace s)) -> qualifies min_area c = false).
Proof.
  intros env self min_area s. unfold find_ui_element_by_color.
  destruct (PYAUTOGUI_AVAILABLE env); cbn [negb orb].
  2:{ exists None, s, []. rewrite app_nil_r.
      repeat split; try constructor; discriminate. }
  destruct (dry_run self).
  { exists None, s, []. rewrite app_nil_r.
    repeat split; try constructor; discriminate. }
  unfold try_except, bind, get_trace, call, ret.
  destruct (fails env (trace s) Screenshot) eqn:H1.
  { eexists None, _, [Screenshot]. split; [reflexivity |]. split; [reflexivity |].
    split; [repeat (apply Forall_cons; [auto |]); constructor |]. split; discriminate. }
  cbn [trace record].
  destruct (fails env (trace s ++ [Screenshot]) FindContours) eqn:H2.
  { eexists None, _, [Screenshot; FindContours]. split; [reflexivity |].
    split; [cbn; rewrite <- app_assoc; reflexivity |].
    split; [repeat (apply Forall_cons; [auto |]); constructor |]. split; discriminate. }
  eexists _, _, [Screenshot; FindContours]. split; [reflexivity |].
  split; [cbn; rewrite <- app_assoc; reflexivity |].
  split; [repeat (apply Forall_cons; [auto |]); constructor |]. split.
  - intros p Hp.
    destruct (first_large_contour_some min_area _ p (sort_by_area_descending _) Hp)
      as (c & Hin & Hq & -> & Hmax).
    exists c. rewrite sort_by_area_In in Hin. repeat split; try assumption.
    intros d Hd. apply Hmax. apply sort_by_area_In, Hd.
  - intros Hn _ _ _ _ c Hc.
    apply (first_large_contour_none min_area _ Hn). apply sort_by_area_In, Hc.
Qed.

(** X14 on a frame with one large shape: its centroid is returned. *)
Lemma find_ui_element_by_color_largest_witness :
  (exists r s' evs,
     find_ui_element_by_color shape_only_env (init "edr.msi" false) 100 start = (Ret r, s') /\
     trace s' = trace start ++ evs /\
     Forall (fun e => e = Screenshot \/ e = FindContours) evs /\
     (forall p, r = Some p ->
        exists c, In c (contours shape_only_env (trace start)) /\ qualifies 100 c = true /\
                  p = centroid c /\
                  forall d, In d (contours shape_only_env (trace start)) ->
                            qualifies 100 d = true -> area d <= area c) /\
     (r = None ->
      PYAUTOGUI_AVAILABLE shape_only_env = true -> dry_run (init "edr.msi" false) = false ->
      fails shape_only_env (trace start) Screenshot = false ->
      fails shape_only_env (trace start ++ [Screenshot]) FindContours = false ->
      forall c, In c (contours shape_only_env (trace start)) -> qualifies 100 c = false)) /\
  result (find_ui_element_by_color shape_only_env (init "edr.msi" false) 100 start)
    = Ret (Some (200, 100)).
Proof.
  split.
  - apply (find_ui_element_by_color_largest shape_only_env (init "edr.msi" false) 100 start).
  - reflexivity.
Defined.

(** ** The OCR search *)

Lemma first_ocr_match_some text data p :
  first_ocr_match text data = Some p ->
  exists before w after,
    data = before ++ w :: after /\
    Forall (fun v => ocr_row_matches text v = false) before /\
    ocr_row_matches text w = true /\ p = centre w.
Proof.
  induction data as [| v data IH]; intros H; [discriminate H |].
  cbn [first_ocr_match] in H.
  destruct (contains (lower text) (lower (ocr_text v)) && (80 <? ocr_conf v)) eqn:Hm.
  - inversion H. exists [], v, data. repeat split; [constructor | exact Hm].
  - destruct (IH H) as (before & w & after & -> & Hb & Hw & ->).
    exists (v :: before), w, after. repeat split; [constructor; assumption | exact Hw].
Qed.

Lemma first_ocr_match_none text data :
  first_ocr_match text data = None ->
  Forall (fun v => ocr_row_matches text v = false) data.
Proof.
  induction data as [| v data IH]; intros H; [constructor |].
  cbn [first_ocr_match] in H.
  destruct (contains (lower text) (lower (ocr_text v)) && (80 <? ocr_conf v)) eqn:Hm;
    [discriminate H |].
  constructor; [exact Hm | exact (IH H)].
Qed.

(** X15: [find_text_on_screen] never raises and only takes a screenshot and
    reads it.  A position it returns is the centre of the first row of the
    OCR data whose text contains the query, letter case aside, with a
    confidence above 80; rows before it do not match.  When both calls go
    through, it returns None only if no row matches. *)
Theorem find_text_on_screen_first_match :
  forall (env : Env) (self : Installer) (text : string) (s : State),
    exists r s' evs,
      find_text_on_screen env self text s = (Ret r, s') /\
      trace s' = trace s ++ evs /\
      Forall (fun e => e = Screenshot \/ e = ImageToData) evs /\
      (forall p, r = Some p ->
         exists before w after,
           ocr_data env (trace s) = before ++ w :: after /\
           Forall (fun v => ocr_row_matches text v = false) before /\
           ocr_row_matches text w = true /\ p = centre w) /\
      (r = None ->
       PYAUTOGUI_AVAILABLE env = true -> dry_run self = false ->
       fails env (trace s) Screenshot = false ->
       fails env (trace s ++ [Screenshot]) ImageToData = false ->
       Forall (fun v => ocr_row_matches text v = false) (ocr_data env (trace s))).
Proof.
  intros env self text s. unfold find_text_on_screen.
  destruct (PYAUTOGUI_AVAILABLE env); cbn [negb orb].
  2:{ exists None, s, []. rewrite app_nil_r.
      repeat split; try constructor; discriminate. }
  destruct (dry_run self).
  { exists None, s, []. rewrite app_nil_r.
    repeat split; try constructor; discriminate. }
  unfold try_except, bind, get_trace, call, ret.
  destruct (fails env (trace s) Screenshot) eqn:H1.
  { eexists None, _, [Screenshot]. split; [reflexivity |]. split; [reflexivity |].
    split; [repeat (apply Forall_cons; [auto |]); constructor |]. split; discriminate. }
  cbn [trace record].
  destruct (fails env (trace s ++ [Screenshot]) ImageToData) eqn:H2.
  { eexists None, _, [Screenshot; ImageToData]. split; [reflexivity |].
    split; [cbn; rewrite <- app_assoc; reflexivity |].
    split; [repeat (apply Forall_cons; [auto |]); constructor |]. split; discriminate. }
  eexists _, _, [Screenshot; ImageToData]. split; [reflexivity |].
  split; [cbn; rewrite <- app_assoc; reflexivity |].
  split; [repeat (apply Forall_cons; [auto |]); constructor |]. split.
  - intros p Hp. apply first_ocr_match_some, Hp.
  - intros Hn _ _ _ _. apply first_ocr_match_none, Hn.
Qed.

(** X15 on a frame with two rows: the first one is taken. *)
Lemma find_text_on_screen_first_match_witness :
  (exists r s' evs,
     find_text_on_screen two_labels_env (init "edr.msi" false) "NEXT" start = (Ret r, s') /\
     trace s' = trace start ++ evs /\
     Forall (fun e => e = Screenshot \/ e = ImageToData) evs /\
     (forall p, r = Some p ->
        exists before w after,
          ocr_data two_labels_env (trace start) = before ++ w :: after /\
          Forall (fun v => ocr_row_matches "NEXT" v = false) before /\
          ocr_row_matches "NEXT" w = true /\ p = centre w) /\
     (r = None ->
      PYAUTOGUI_AVAILABLE two_labels_env = true -> dry_run (init "edr.msi" false) = false ->
      fails two_labels_env (trace start) Screenshot = false ->
      fails two_labels_env (trace start ++ [Screenshot]) ImageToData = false ->
      Forall (fun v => ocr_row_matches "NEXT" v = false) (ocr_data two_labels_env (trace start)))) /\
  result (find_text_on_screen two_labels_env (init "edr.msi" false) "NEXT" start)
    = Ret (Some (10, 10)).
Proof.
  split.
  - apply (find_text_on_screen_first_match two_labels_env (init "edr.msi" false) "NEXT" start).
  - reflexivity.
Defined.

(** ** Waiting for a button to show *)

Section FindButton.

Variable env : Env.
Variable self : Installer.

Lemma find_text_on_screen_search text : emits search_event (find_text_on_screen env self text).
Proof.
  unfold find_text_on_screen.
  repeat (emits_step; try (now left); try (right; now left)).
Qed.

Lemma find_text_on_screen_some text s p s' :
  find_text_on_screen env self text s = (Ret (Some p), s') ->
  first_ocr_match text (ocr_data env (trace s)) = Some p.
Proof.
  unfold find_text_on_screen.
  destruct (negb (PYAUTOGUI_AVAILABLE env) || dry_run self); [discriminate |].
  unfold try_except, bind, get_trace, call, ret.
  destruct (fails env (trace s) Screenshot); [discriminate |].
  cbn [trace record].
  destruct (fails env (trace s ++ [Screenshot]) ImageToData); [discriminate |].
  intros [= H _]. exact H.
Qed.

(** With a pass of fuel for every second left, the loop returns: a position
    read off some frame, or None once the time is up. *)
Lemma find_button_loop_outcome fuel :
  forall button_text timeout start_time s,
    timeout - (clock s - start_time) <= 1000 * Z.of_nat fuel ->
    exists r s' evs,
      find_button_loop env self fuel button_text timeout start_time s = (Ret r, s') /\
      trace s' = trace s ++ evs /\ Forall search_event evs /\
      (forall p, r = Some p ->
         exists t, first_ocr_match button_text (ocr_data env t) = Some p) /\
      (r = None -> timeout <= clock s' - start_time).
Proof.
  induction fuel as [| fuel IH]; intros button_text timeout start_time s Hfuel.
  - cbn [find_button_loop]. rewrite (bind_step get_clock _ s (clock s) s eq_refl).
    destruct (Z.ltb_spec (clock s - start_time) timeout) as [Hlt | Hge]; [lia |].
    exists None, s, []. rewrite app_nil_r.
    repeat split; try constructor; try discriminate. intros _. lia.
  - cbn [find_button_loop]. rewrite (bind_step get_clock _ s (clock s) s eq_refl).
    destruct (Z.ltb_spec (clock s - start_time) timeout) as [Hlt | Hge].
    + destruct (returns_emits search_event _ (find_text_on_screen_returns env self button_text)
                  (find_text_on_screen_search button_text) s)
        as (r1 & s1 & e1 & E1 & T1 & F1 & C1).
      rewrite (bind_step _ _ _ _ _ E1).
      destruct r1 as [p |].
      * exists (Some p), s1, e1. split; [reflexivity |]. split; [exact T1 |].
        split; [exact F1 |]. split; [| discriminate].
        intros p' [= <-]. exists (trace s). eapply find_text_on_screen_some, E1.
      * rewrite (bind_step (sleep env 1000) _ s1 tt (record env (Sleep 1000) 1000 s1) eq_refl).
        destruct (IH button_text timeout start_time (record env (Sleep 1000) 1000 s1))
          as (r2 & s2 & e2 & E2 & T2 & F2 & P2 & N2).
        { cbn [clock record]. lia. }
        exists r2, s2, (e1 ++ Sleep 1000 :: e2). rewrite E2, T2. cbn [trace record].
        rewrite T1. repeat rewrite <- app_assoc.
        split; [reflexivity |]. split; [reflexivity |].
        split; [| split; assumption].
        apply Forall_app. split; [exact F1 |].
        constructor; [right; now right | exact F2].
    + exists None, s, []. rewrite app_nil_r.
      repeat split; try constructor; try discriminate. intros _. lia.
Qed.

End FindButton.

(** X16: [find_button_by_text], with a whole number of seconds as timeout,
    always returns and never raises: it takes OCR passes, sleeping one second
    after each pass that finds nothing.  A position it returns was read off
    one of the frames; outside dry-run mode and with pyautogui it answers
    None only when at least [timeout] seconds have gone by, and with a
    timeout of zero or less it does not look at the screen at all. *)
Theorem find_button_by_text_outcome :
  forall (env : Env) (self : Installer) (button_text : string) (timeout : Z) (s : State),
    exists r s' evs,
      find_button_by_text env self button_text timeout s = (Ret r, s') /\
      trace s' = trace s ++ evs /\ Forall search_event evs /\
      (forall p, r = Some p ->
         exists t, first_ocr_match button_text (ocr_data env t) = Some p) /\
      (r = None -> PYAUTOGUI_AVAILABLE env = true -> dry_run self = false ->
       timeout * 1000 <= clock s' - clock s) /\
      (timeout <= 0 -> r = None /\ s' = s).
Proof.
  intros env self button_text timeout s. unfold find_button_by_text.
  destruct (negb (PYAUTOGUI_AVAILABLE env) || dry_run self) eqn:Hg.
  - exists None, s, []. rewrite app_nil_r.
    repeat split; try constructor; try discriminate.
    intros _ Hpy Hdry. rewrite Hpy, Hdry in Hg. discriminate Hg.
  - rewrite (bind_step get_clock _ s (clock s) s eq_refl).
    destruct (find_button_loop_outcome env self (Z.to_nat timeout) button_text
                (timeout * 1000) (clock s) s ltac:(lia))
      as (r & s' & evs & E & T & F & P & N).
    exists r, s', evs. split; [exact E |]. split; [exact T |]. split; [exact F |].
    split; [exact P |]. split; [intros Hn _ _; exact (N Hn) |].
    intros Hle. revert E.
    replace (Z.to_nat timeout) with 0%nat by lia.
    cbn [find_button_loop]. rewrite (bind_step get_clock _ s (clock s) s eq_refl).
    destruct (Z.ltb_spec (clock s - clock s) (timeout * 1000)) as [Hlt | Hge]; [lia |].
    intros [= <- <-]. auto.
Qed.

(** X16 on a frame that shows the button: the first pass finds it. *)
Lemma find_button_by_text_outcome_witness :
  (exists r s' evs,
     find_button_by_text plain_label_env (init "edr.msi" false) "Next" 10 start = (Ret r, s') /\
     trace s' = trace start ++ evs /\ Forall search_event evs /\
     (forall p, r = Some p ->
        exists t, first_ocr_match "Next" (ocr_data plain_label_env t) = Some p) /\
     (r = None -> PYAUTOGUI_AVAILABLE plain_label_env = true ->
      dry_run (init "edr.msi" false) = false -> 10 * 1000 <= clock s' - clock start) /\
     (10 <= 0 -> r = None /\ s' = start)) /\
  find_button_by_text plain_label_env (init "edr.msi" false) "Next" 10 start =
    (Ret (Some (10, 10)), mkState [Screenshot; ImageToData] 0 false) /\
  result (find_button_by_text (empty_desktop true) (init "edr.msi" false) "Next" 10 start)
    = Ret None /\
  clock (final (find_button_by_text (empty_desktop true) (init "edr.msi" false) "Next" 10 start))
    = 10000.
Proof.
  split.
  - apply (find_button_by_text_outcome plain_label_env (init "edr.msi" false) "Next" 10 start).
  - vm_compute. repeat split.
Defined.

(** ** Letter case *)

Lemma lower_ascii_idempotent c : lower_ascii (lower_ascii c) = lower_ascii c.
Proof. destruct c as [[] [] [] [] [] [] [] []]; reflexivity. Qed.

Lemma lower_ascii_amp c : Ascii.eqb (lower_ascii c) "&" = Ascii.eqb c "&".
Proof. destruct c as [[] [] [] [] [] [] [] []]; reflexivity. Qed.

Lemma lower_idempotent text : lower (lower text) = lower text.
Proof.
  induction text as [| c text IH]; [reflexivity |].
  cbn [lower]. rewrite lower_ascii_idempotent, IH. reflexivity.
Qed.

Lemma strip_amp_lower text : strip_amp (lower text) = lower (strip_amp text).
Proof.
  induction text as [| c text IH]; [reflexivity |].
  cbn [lower strip_amp]. rewrite lower_ascii_amp.
  destruct (Ascii.eqb c "&"); [exact IH |].
  cbn [lower]. rewrite IH. reflexivity.
Qed.

Lemma button_matches_folded q1 q2 b :
  lower (strip_amp q1) = lower (strip_amp q2) -> button_matches q1 b = button_matches q2 b.
Proof. intros H. unfold button_matches. cbv zeta. rewrite H. reflexivity. Qed.

Lemma click_in_windows_folded env q1 q2 ws s :
  lower (strip_amp q1) = lower (strip_amp q2) ->
  click_in_windows env q1 ws s = click_in_windows env q2 ws s.
Proof.
  intros H. revert s. induction ws as [| w ws IH]; intros s; [reflexivity |].
  cbn [click_in_windows].
  apply bind_ext; [| intros [|] s1; [reflexivity | apply IH]].
  intros s0. apply bind_ext; [reflexivity |].
  intros t s1.
  rewrite (find_pointwise _ _ _ (fun b => button_matches_folded q1 q2 b H)).
  reflexivity.
Qed.

Lemma first_ocr_match_folded q1 q2 data :
  lower q1 = lower q2 -> first_ocr_match q1 data = first_ocr_match q2 data.
Proof.
  intros H. induction data as [| w data IH]; [reflexivity |].
  cbn [first_ocr_match]. rewrite H, IH. reflexivity.
Qed.



(** ** Filling a field through the screen: what success means *)

Section ScreenFill.

Variable env : Env.
Variable self : Installer.

Lemma click_coordinates_ret x y what s b s' :
  click_coordinates env x y what s = (Ret b, s') ->
  trace s' = trace s ++ [ClickCoordinates x y what] /\ b = click_result env (trace s) x y.
Proof.
  unfold click_coordinates, bind, get_trace, call, ret.
  destruct (fails env (trace s) (ClickCoordinates x y what)); [discriminate |].
  intros [= <- <-]. auto.
Qed.

Lemma type_value_true value s s' :
  type_value env value s = (Ret true, s') ->
  PYAUTOGUI_AVAILABLE env = true /\
  trace s' = trace s ++ [Sleep 300; Hotkey "ctrl" "a"; Write value].
Proof.
  unfold type_value.
  rewrite (bind_step (sleep env 300) _ s tt (record env (Sleep 300) 300 s) eq_refl).
  destruct (PYAUTOGUI_AVAILABLE env); [| discriminate].
  unfold bind, call, ret. cbn [trace record].
  destruct (fails env (trace s ++ [Sleep 300]) (Hotkey "ctrl" "a")); [discriminate |].
  cbn [trace record].
  destruct (fails env _ (Write value)); [discriminate |].
  intros [= <-]. cbn [trace record]. repeat rewrite <- app_assoc. auto.
Qed.

(** A click that was followed by the typing of the value. *)
Lemma click_and_type x y what value s s' :
  (clicked <- click_coordinates env x y what ;;
   if clicked then type_value env value else ret false) s = (Ret true, s') ->
  PYAUTOGUI_AVAILABLE env = true /\ click_result env (trace s) x y = true /\
  trace s' = trace s ++ [ClickCoordinates x y what; Sleep 300; Hotkey "ctrl" "a"; Write value].
Proof.
  intros H. apply bind_ret_inv in H. destruct H as (clicked & s1 & E1 & H).
  apply click_coordinates_ret in E1. destruct E1 as (T1 & ->).
  destruct (click_result env (trace s) x y); [| discriminate H].
  apply type_value_true in H. destruct H as (Hpy & T).
  rewrite T, T1, <- app_assoc. auto.
Qed.

Lemma find_input_field_by_label_some label s x y s' :
  find_input_field_by_label env self label s = (Ret (Some (x, y)), s') ->
  exists w, In w (ocr_data env (trace s)) /\ ocr_row_matches label w = true /\
            (x, y) = (fst (centre w), snd (centre w) + 25).
Proof.
  unfold find_input_field_by_label.
  destruct (negb (PYAUTOGUI_AVAILABLE env) || dry_run self); [discriminate |].
  unfold try_except, bind.
  destruct (find_text_on_screen env self label s) as [[[[lx ly] |] | e |] s1] eqn:E;
    try discriminate.
  intros [= <- <- _].
  apply find_text_on_screen_some in E. apply first_ocr_match_some in E.
  destruct E as (before & w & after & Hd & _ & Hm & Hp).
  exists w. rewrite Hd. split; [apply in_elt |]. split; [exact Hm |].
  inversion Hp. cbn. f_equal. lia.
Qed.

Lemma fill_by_labels_true field_name value labels :
  forall s s',
    fill_by_labels env self field_name value labels s = (Ret true, s') ->
    PYAUTOGUI_AVAILABLE env = true /\
    exists x y, typed_at env value x y s' /\
      exists label w t0,
        In label labels /\ In w (ocr_data env t0) /\ ocr_row_matches label w = true /\
        (x, y) = (fst (centre w), snd (centre w) + 25).
Proof.
  induction labels as [| label rest IH]; intros s s' H; [discriminate H |].
  cbn [fill_by_labels] in H.
  apply bind_ret_inv in H. destruct H as (pos & s1 & E1 & H).
  apply bind_ret_inv in H. destruct H as (filled & s2 & E2 & H).
  destruct filled.
  - inversion H; subst s2. clear H.
    destruct pos as [[x y] |]; [| discriminate E2].
    apply click_and_type in E2. destruct E2 as (Hpy & Hc & T).
    split; [exact Hpy |]. exists x, y. split; [eexists _, _; split; eassumption |].
    apply find_input_field_by_label_some in E1. destruct E1 as (w & Hin & Hm & Hxy).
    exists label, w, (trace s). repeat split; try assumption. now left.
  - destruct (IH _ _ H) as (Hpy & x & y & Ht & label' & w & t0 & Hin & Hw & Hm & Hxy).
    split; [exact Hpy |]. exists x, y. split; [exact Ht |].
    exists label', w, t0. repeat split; try assumption. now right.
Qed.

Lemma fill_by_positions_true field_name value positions :
  forall s s',
    fill_by_positions env field_name value positions s = (Ret true, s') ->
    PYAUTOGUI_AVAILABLE env = true /\
    exists x y, typed_at env value x y s' /\ In (x, y) positions.
Proof.
  induction positions as [| [x y] rest IH]; intros s s' H; [discriminate H |].
  cbn [fill_by_positions] in H.
  apply bind_ret_inv in H. destruct H as (clicked & s1 & E1 & H).
  apply bind_ret_inv in H. destruct H as (filled & s2 & E2 & H).
  destruct filled.
  - inversion H; subst s2. clear H.
    assert (E : (clicked <- click_coordinates env x y (field_name ++ " fallback position") ;;
                 if clicked then type_value env value else ret false) s = (Ret true, s'))
      by (rewrite (bind_step _ _ _ _ _ E1); exact E2).
    apply click_and_type in E. destruct E as (Hpy & Hc & T).
    split; [exact Hpy |]. exists x, y. split; [eexists _, _; split; eassumption | now left].
  - destruct (IH _ _ H) as (Hpy & x' & y' & Ht & Hin).
    split; [exact Hpy |]. exists x', y'. split; [exact Ht | now right].
Qed.

End ScreenFill.



(** ** The debugging aids *)

Section KeepsApp.

Variable env : Env.

Lemma keeps_app_silent {A} (m : M A) : (forall s, final (m s) = s) -> keeps_app m.
Proof. intros H s. rewrite H. reflexivity. Qed.

Lemma keeps_app_call e : keeps_app (call env e).
Proof. intros s. unfold call. destruct (fails env (trace s) e); reflexivity. Qed.

Lemma keeps_app_sleep ms : keeps_app (sleep env ms).
Proof. intros s. unfold sleep. destruct (ms <? 0); reflexivity. Qed.

Lemma keeps_app_bind {A B} (m : M A) (f : A -> M B) :
  keeps_app m -> (forall a, keeps_app (f a)) -> keeps_app (bind m f).
Proof.
  intros Hm Hf s. unfold bind. specialize (Hm s).
  destruct (m s) as [[a | x |] s1]; cbn in *; [rewrite Hf | |]; assumption.
Qed.

Lemma keeps_app_try_except {A} (m : M A) (h : Exn -> M A) :
  keeps_app m -> (forall x, keeps_app (h x)) -> keeps_app (try_except m h).
Proof.
  intros Hm Hh s. unfold try_except. specialize (Hm s).
  destruct (m s) as [[a | x |] s1]; cbn in *; [| rewrite Hh |]; assumption.
Qed.

End KeepsApp.

(** One syntax-directed step of a [keeps_app] proof. *)
Ltac keeps_app_step :=
  lazymatch goal with
  | |- keeps_app (ret _) => apply keeps_app_silent; reflexivity
  | |- keeps_app (raise _) => apply keeps_app_silent; reflexivity
  | |- keeps_app get_trace => apply keeps_app_silent; reflexivity
  | |- keeps_app get_clock => apply keeps_app_silent; reflexivity
  | |- keeps_app get_app => apply keeps_app_silent; reflexivity
  | |- keeps_app (bind _ _) => apply keeps_app_bind; [ | intros ? ]
  | |- keeps_app (try_except _ _) => apply keeps_app_try_except; [ | intros ? ]
  | |- keeps_app (call _ _) => apply keeps_app_call
  | |- keeps_app (sleep _ _) => apply keeps_app_sleep
  | |- keeps_app (if ?b then _ else _) => destruct b
  | |- keeps_app (match ?x with _ => _ end) => destruct x
  end.

Section Dumps.

Variable env : Env.
Variable self : Installer.

Lemma dump_children_keeps_app ws : keeps_app (dump_children env ws).
Proof.
  induction ws as [| w ws IH]; cbn [dump_children]; repeat keeps_app_step. exact IH.
Qed.

Lemma print_window_text_keeps_app : keeps_app (print_window_text env).
Proof.
  unfold print_window_text, import_win32.
  repeat first [apply dump_children_keeps_app | keeps_app_step].
Qed.

Lemma dump_children_events t hs :
  incl hs (filter is_setup_window (top_windows env t)) ->
  emits (dump_event env) (dump_children env (map hwnd hs)).
Proof.
  induction hs as [| h hs IH]; intros Hin; cbn [map dump_children]; [emits_step |].
  emits_step.
  - emits_step. right; right; right; right.
    assert (Hh : In h (filter is_setup_window (top_windows env t))) by (apply Hin; now left).
    apply filter_In in Hh. destruct Hh as (Hh & Hs). exists t, h. auto.
  - apply IH. intros x Hx. apply Hin. now right.
Qed.

Lemma print_window_text_dump : emits (dump_event env) (print_window_text env).
Proof.
  unfold print_window_text, import_win32.
  emits_step; [| emits_step; [| emits_step; [| emits_step]]].
  - emits_step; [| emits_step].
    emits_step; [emits_step |].
    emits_step; [emits_step; now left | emits_step].
  - emits_step; [| emits_step].
    emits_step; [| emits_step].
    emits_step; [emits_step; right; now left |].
    emits_step. right; right; now left.
  - emits_step; [repeat emits_step |].
    emits_step; [emits_step |].
    emits_step; [emits_step; right; right; right; now left |].
    emits_step; [emits_step |].
    eapply dump_children_events. apply incl_refl.
Qed.

End Dumps.

(** X19: the debugging aids are harmless.  [print_window_text] and
    [take_screenshot] never raise and leave [self.app] alone.  The dump only
    reads: the controls of the connected application, one screenshot with its
    OCR text, the top-level windows and the children of the visible ones
    whose title contains "TEHTRIS" or "Setup".  [take_screenshot] takes at
    most one screenshot and saves it under the name of the step. *)
Theorem debugging_aids_only_read :
  forall (env : Env) (self : Installer) (step_name : string) (s : State),
    (exists s' evs,
       print_window_text env s = (Ret tt, s') /\
       trace s' = trace s ++ evs /\ Forall (dump_event env) evs /\ app s' = app s) /\
    (exists s' evs,
       take_screenshot env self step_name s = (Ret tt, s') /\
       trace s' = trace s ++ evs /\ app s' = app s /\
       (evs = [] \/ evs = [Screenshot] \/ evs = [Screenshot; SaveScreenshot step_name])).
Proof.
  intros env self step_name s. split.
  - destruct (returns_emits _ _ (print_window_text_returns env) (print_window_text_dump env) s)
      as ([] & s' & evs & E & T & F & _).
    pose proof (print_window_text_keeps_app env s) as K. rewrite E in K.
    exists s', evs. auto.
  - unfold take_screenshot.
    destruct (negb (PYAUTOGUI_AVAILABLE env) || dry_run self).
    { exists s, []. rewrite app_nil_r. auto. }
    unfold try_except, bind, call, ret.
    destruct (fails env (trace s) Screenshot).
    { eexists _, [Screenshot]. split; [reflexivity |]. cbn. auto. }
    cbn [trace record].
    destruct (fails env (trace s ++ [Screenshot]) (SaveScreenshot step_name));
      eexists _, [Screenshot; SaveScreenshot step_name];
      (split; [reflexivity |]); cbn; rewrite <- app_assoc; auto 6.
Qed.

(** ** The native methods stay inside the installer's windows *)

(** [bind] when what follows relies on a property of the value. *)
Lemma emits_bind_post {A B} (P : Event -> Prop) (Q : A -> Prop) (m : M A) (f : A -> M B) :
  emits P m -> (forall s a s', m s = (Ret a, s') -> Q a) ->
  (forall a, Q a -> emits P (f a)) -> emits P (bind m f).
Proof.
  intros Hm Hq Hf s. unfold bind.
  destruct (Hm s) as (e1 & T1 & F1 & C1).
  destruct (m s) as [[a | x |] s1] eqn:E; cbn in *.
  - destruct (Hf a (Hq s a s1 E) s1) as (e2 & T2 & F2 & C2).
    exists (e1 ++ e2). rewrite T2, T1, app_assoc.
    repeat split; [apply Forall_app; split; assumption | lia].
  - exists e1. repeat split; assumption.
  - exists e1. repeat split; assumption.
Qed.

Section NativeScope.

Variable env : Env.

Lemma find_tehtris_windows_native : emits (native_event env) (find_tehtris_windows env).
Proof. unfold find_tehtris_windows. repeat (emits_step; cbn; auto). Qed.

Lemma filtered_windows_scope t :
  Forall (setup_parent env) (map hwnd (filter is_tehtris_window (top_windows env t))).
Proof.
  apply Forall_forall. intros p Hp.
  apply in_map_iff in Hp. destruct Hp as (h & <- & Hh).
  apply filter_In in Hh. destruct Hh as (Hin & Hw).
  left. exists t, h. auto.
Qed.

Lemma find_tehtris_windows_scope s ws s' :
  find_tehtris_windows env s = (Ret ws, s') -> Forall (setup_parent env) ws.
Proof.
  unfold find_tehtris_windows, try_except, bind, get_trace, call, ret. cbv zeta.
  destruct (fails env (trace s) EnumWindows).
  - cbn [trace record].
    destruct (fails env (trace s ++ [EnumWindows]) (FindWindow "TEHTRIS EDR Setup")).
    + intros [= <- _]. apply filtered_windows_scope.
    + intros [= <- _].
      destruct (Z.eqb_spec (find_window env (trace s ++ [EnumWindows]) "TEHTRIS EDR Setup") 0)
        as [_ | Hne]; [apply filtered_windows_scope |].
      constructor; [| constructor]. right. eauto.
  - intros [= <- _]. apply filtered_windows_scope.
Qed.

Lemma click_in_windows_native button_text ws :
  Forall (setup_parent env) ws ->
  emits (native_event env) (click_in_windows env button_text ws).
Proof.
  induction ws as [| w ws IH]; intros Hws; cbn [click_in_windows]; [emits_step |].
  inversion Hws as [| w' ws' Hw Hrest]; subst.
  emits_step.
  - emits_step; [emits_step |]. cbv zeta.
    emits_step; [| emits_step].
    emits_step; [emits_step; exact Hw |].
    emits_step; [| emits_step].
    emits_step; [| emits_step].
    emits_step; [| emits_step].
    emits_step. split; [reflexivity |].
    match goal with H : find _ _ = Some _ |- _ => apply find_some in H; destruct H as (Hin & Hm) end.
    apply button_matches_spec in Hm. destruct Hm as (Hc & _).
    eexists _, w, _. split; [exact Hw |]. split; [exact Hin |].
    split; [apply String.eqb_eq, Hc | reflexivity].
  - emits_step; [emits_step | apply IH, Hrest].
Qed.

Lemma edit_controls_scope t w n h :
  setup_parent env w -> nth_error (edit_controls env t w) n = Some h ->
  setup_control env is_edit_control h.
Proof.
  intros Hw Hn. apply nth_error_In in Hn. unfold edit_controls in Hn.
  apply in_map_iff in Hn. destruct Hn as (b & <- & Hb).
  apply filter_In in Hb. destruct Hb as (Hin & He).
  exists t, w, b. auto.
Qed.

Lemma fill_edit_control_native h value :
  setup_control env is_edit_control h ->
  emits (native_event env) (fill_edit_control env h value).
Proof.
  intros Hh. unfold fill_edit_control.
  emits_step; [emits_step |].
  emits_step; [emits_step; exact Hh |].
  match goal with
  | |- context [window_rect env ?t h] =>
      pose proof (eq_refl (rect_centre (window_rect env t h))) as Hc;
      unfold rect_centre at 1 in Hc;
      destruct (window_rect env t h) as [[[rect0 rect1] rect2] rect3] eqn:Er
  end.
  cbv zeta.
  emits_step.
  - emits_step; [| emits_step].
    emits_step; [| emits_step; exact I].
    emits_step. eexists _, h. split; [exact Hh |]. rewrite Er. exact Hc.
  - repeat (emits_step; try exact Hh; try exact I).
Qed.

Lemma fill_in_windows_native field_label value ws :
  Forall (setup_parent env) ws ->
  emits (native_event env) (fill_in_windows env field_label value ws).
Proof.
  induction ws as [| w ws IH]; intros Hws; cbn [fill_in_windows]; [emits_step |].
  inversion Hws as [| w' ws' Hw Hrest]; subst.
  emits_step.
  - emits_step; [| emits_step].
    emits_step; [emits_step |].
    emits_step; [emits_step; exact Hw |].
    emits_step; [emits_step |].
    emits_step; [| emits_step].
    emits_step; [| emits_step].
    match goal with
    | E : edit_controls _ _ _ = _, N : nth_error _ _ = Some _ |- _ =>
        rewrite <- E in N; apply fill_edit_control_native;
        eapply edit_controls_scope; [exact Hw | exact N]
    end.
  - emits_step; [emits_step | apply IH, Hrest].
Qed.

End NativeScope.


(** ** The licence step *)

(** X21: in the licence step, unless the native click on the acceptance
    returned True, no message is posted to a Next button: the only messages
    the step may post went (and failed) to buttons matching "accept", and
    the step goes on through the screen strategies. *)
Theorem native_next_needs_accept :
  forall (env : Env) (self : Installer) (s : State),
    dry_run self = false ->
    let s0 := final ((take_screenshot env self "license_agreement" ;;
                      print_window_text env) s) in
    result (click_with_win32gui env "accept" s0) <> Ret true ->
    exists evs,
      trace (final (handle_license_agreement env self s)) = trace s ++ evs /\
      Forall (posts_to_accept_only env) evs.
Proof.
  intros env self s Hdry. cbv zeta.
  destruct (returns_emits _ _ (take_screenshot_returns env self "license_agreement")
              (take_screenshot_emits env self "license_agreement") s)
    as ([] & sa & pa & Ea & Ta & Fa & _).
  destruct (returns_emits _ _ (print_window_text_returns env) (print_window_text_emits env) sa)
    as ([] & s0 & pb & Eb & Tb & Fb & _).
  assert (Es0 : (take_screenshot env self "license_agreement" ;;
                 print_window_text env) s = (Ret tt, s0)).
  { rewrite (bind_step _ _ _ _ _ Ea). exact Eb. }
  rewrite Es0. cbn [final snd].
  destruct (returns_emits _ _ (click_with_win32gui_returns env "accept")
              (click_with_win32gui_emits env "accept") s0)
    as (accepted & s1 & e1 & E1 & T1 & F1 & _).
  rewrite E1. cbn [result fst]. intros Hnot.
  destruct accepted; [congruence |].
  unfold handle_license_agreement. rewrite Hdry.
  rewrite (bind_step _ _ _ _ _ Ea), (bind_step _ _ _ _ _ Eb).
  assert (Hdone : (accepted <- click_with_win32gui env "accept" ;;
                   if accepted then sleep env 500 ;; click_with_win32gui env "Next"
                   else ret false) s0 = (Ret false, s1)).
  { rewrite (bind_step _ _ _ _ _ E1). reflexivity. }
  rewrite (bind_step _ _ _ _ _ Hdone).
  assert (Hclass : forall e, is_probe e = true -> no_post e) by exact probe_no_post.
  assert (Hrest : emits no_post
            (accepted <- smart_find_and_click env self "I accept radio button"
                           ["I accept"; "J'accepte"; "accept"; "accepte"] [] ;;
             (if accepted then sleep env 500 else ret tt) ;;
             smart_find_and_click env self "Next button (license screen)"
               next_text_options [])).
  { emits_step; [apply smart_find_and_click_in_class; try exact Hclass; discriminate |].
    emits_step; [emits_step; [emits_step; discriminate | emits_step] |].
    apply smart_find_and_click_in_class; try exact Hclass; discriminate. }
  destruct (Hrest s1) as (post & Tp & Fp & _).
  exists (pa ++ pb ++ e1 ++ post). split.
  - cbn [negb]. rewrite Tp, T1, Tb, Ta. repeat rewrite <- app_assoc. reflexivity.
  - repeat (apply Forall_app; split).
    + eapply Forall_impl; [| exact Fa]. intros e He h m ->. discriminate He.
    + eapply Forall_impl; [| exact Fb]. intros e He h m ->. discriminate He.
    + eapply Forall_impl; [| exact F1]. intros e He h m _. exact He.
    + eapply Forall_impl; [| exact Fp]. intros e He h m ->. exfalso. exact (He h m eq_refl).
Qed.

(** X21 on a desktop without the installer window: nothing is posted, the
    step presses Alt+A and Alt+N. *)
Lemma native_next_needs_accept_witness :
  (exists evs,
     trace (final (handle_license_agreement (empty_desktop true) (init "edr.msi" false) start))
       = trace start ++ evs /\
     Forall (posts_to_accept_only (empty_desktop true)) evs) /\
  filter is_actuation
    (trace (final (handle_license_agreement (empty_desktop true) (init "edr.msi" false) start)))
    = [Hotkey "alt" "a"; Hotkey "alt" "n"].
Proof.
  split.
  - apply (native_next_needs_accept (empty_desktop true) (init "edr.msi" false) start).
    + reflexivity.
    + vm_compute. discriminate.
  - vm_compute. reflexivity.
Defined.

(** ** The smart click: what success means *)

Section SmartClick.

Variable env : Env.
Variable self : Installer.

Lemma click_search_texts_true element_type texts :
  forall s s',
    click_search_texts env self element_type texts s = (Ret true, s') ->
    exists x y,
      clicked_at env x y [] s' /\
      exists text w t0,
        In text texts /\ In w (ocr_data env t0) /\ ocr_row_matches text w = true /\
        (x, y) = centre w.
Proof.
  induction texts as [| text rest IH]; intros s s' H; [discriminate H |].
  cbn [click_search_texts] in H.
  apply bind_ret_inv in H. destruct H as (pos & s1 & E1 & H).
  destruct pos as [[x y] |].
  - apply bind_ret_inv in H. destruct H as (clicked & s2 & E2 & H).
    destruct clicked.
    + inversion H; subst s2. clear H.
      apply click_coordinates_ret in E2. destruct E2 as (T2 & Hc).
      apply find_text_on_screen_some in E1. apply first_ocr_match_some in E1.
      destruct E1 as (before & w & after & Hd & _ & Hm & Hp).
      exists x, y. split; [eexists _, _; split; [exact T2 | symmetry; exact Hc] |].
      exists text, w, (trace s). rewrite Hd.
      split; [now left |]. split; [apply in_elt |]. split; assumption.
    + destruct (IH _ _ H) as (x' & y' & Hcl & text' & w & t0 & Hin & Hw & Hm & Hxy).
      exists x', y'. split; [exact Hcl |].
      exists text', w, t0. repeat split; try assumption. now right.
  - destruct (IH _ _ H) as (x' & y' & Hcl & text' & w & t0 & Hin & Hw & Hm & Hxy).
    exists x', y'. split; [exact Hcl |].
    exists text', w, t0. repeat split; try assumption. now right.
Qed.

Lemma click_text_options_true element_type text_options :
  forall s s',
    click_text_options env self element_type text_options s = (Ret true, s') ->
    exists x y,
      clicked_at env x y [] s' /\
      exists option text w t0,
        In option text_options /\ In text (search_texts option) /\
        In w (ocr_data env t0) /\ ocr_row_matches text w = true /\ (x, y) = centre w.
Proof.
  induction text_options as [| option rest IH]; intros s s' H; [discriminate H |].
  cbn [click_text_options] in H.
  apply bind_ret_inv in H. destruct H as (clicked & s1 & E1 & H).
  destruct clicked.
  - inversion H; subst s1. clear H.
    apply click_search_texts_true in E1.
    destruct E1 as (x & y & Hcl & text & w & t0 & Hin & Hw & Hm & Hxy).
    exists x, y. split; [exact Hcl |].
    exists option, text, w, t0. repeat split; try assumption. now left.
  - destruct (IH _ _ H) as (x & y & Hcl & option' & text & w & t0 & Ho & Hin & Hw & Hm & Hxy).
    exists x, y. split; [exact Hcl |].
    exists option', text, w, t0. repeat split; try assumption. now right.
Qed.

Lemma click_fallback_positions_true element_type positions :
  forall s s',
    click_fallback_positions env element_type positions s = (Ret true, s') ->
    exists x y, clicked_at env x y [Sleep 500] s' /\ In (x, y) positions.
Proof.
  induction positions as [| [x y] rest IH]; intros s s' H; [discriminate H |].
  cbn [click_fallback_positions] in H.
  apply bind_ret_inv in H. destruct H as (clicked & s1 & E1 & H).
  destruct clicked.
  - apply click_coordinates_ret in E1. destruct E1 as (T1 & Hc).
    rewrite (bind_step (sleep env 500) _ s1 tt (record env (Sleep 500) 500 s1) eq_refl) in H.
    injection H as Hs. subst s'.
    exists x, y. split; [| now left].
    exists (trace s), (element_type ++ " fallback position")%string.
    split; [| symmetry; exact Hc].
    cbn [trace record]. rewrite T1, <- app_assoc. reflexivity.
  - destruct (IH _ _ H) as (x' & y' & Hcl & Hin).
    exists x', y'. split; [exact Hcl | now right].
Qed.

Lemma keyboard_shortcut_true element_type s s' :
  keyboard_shortcut env element_type s = (Ret true, s') ->
  PYAUTOGUI_AVAILABLE env = true /\
  exists k, shortcut_key element_type = Some k /\
            trace s' = trace s ++ [Hotkey "alt" k; Sleep 500].
Proof.
  unfold keyboard_shortcut.
  destruct (PYAUTOGUI_AVAILABLE env); [| discriminate].
  destruct (shortcut_key element_type) as [k |]; [| discriminate].
  unfold bind, call, sleep, ret.
  destruct (fails env (trace s) (Hotkey "alt" k)); [discriminate |].
  cbn. intros [= <-]. split; [reflexivity |]. exists k. split; [reflexivity |].
  cbn [trace record]. rewrite <- app_assoc. reflexivity.
Qed.

End SmartClick.


